(** * The search and await engine of the integration test API

    A shallow embedding of
    [Gds/src/fprime_gds/common/testing_fw/api.py] (class
    [IntegrationTestAPI]): the three history searches
    [find_history_item], [find_history_sequence] and
    [find_history_count], the await and assert functions that translate
    specifiers into predicates and reach the searches, the command
    functions, and the bookkeeping of test cases with the time query
    [get_latest_fsw_time].

    The methods are stateful: they read and advance histories, install a
    signal handler, arm and cancel the process alarm, and sleep while a
    receiver appends records.  They are written in a state and exception
    monad over a [World] that holds the fields of the instance together
    with the part of the process and of the environment the methods
    touch.  Two fields of the world are ghost state, written but never
    read by the code: the log of history method calls and the log of
    records handed to a search predicate. *)

From Stdlib Require Import String.
From Stdlib Require Import ZArith List Bool Lia Sorted.
Import ListNotations.
Open Scope Z_scope.

(* ================================================================== *)
(** ** Data objects *)

(** Modelled from the spec: the class [TimeType] (module
    [fprime.common.models.serialize.time_type]) is not part of the
    sources.  A time stamp carries whole seconds and a microsecond
    field; the code under study reads the attribute [useconds] only. *)
Record TimeType := mkTime { seconds : Z; useconds : Z }.

(** Modelled from the spec: [TimeType()], the time stamp built by the
    constructor of the missing class without arguments. *)
Definition TimeType_default : TimeType := mkTime 0 0.

(** The payload values a record carries: numbers and strings. *)
Inductive Scalar :=
| SInt (z : Z)
| SStr (s : string).

Definition Scalar_eqb (a b : Scalar) : bool :=
  match a, b with
  | SInt x, SInt y => Z.eqb x y
  | SStr x, SStr y => String.eqb x y
  | _, _ => false
  end.

(** Modelled from the spec: the record classes ([ChData], [EventData])
    are not part of the sources.  A record exposes an identifier, a
    value (channel updates), an argument list (events) and a time
    stamp. *)
Record DataObject := mkData {
  get_id : Z;
  get_val : Scalar;
  get_args : list Scalar;
  get_time : TimeType
}.

(** What a predicate object can be called on. *)
Inductive Value :=
| VNone
| VScalar (s : Scalar)
| VArgs (l : list Scalar)
| VTime (t : TimeType)
| VData (d : DataObject).

(** Modelled from the spec: the module [predicates] is not part of the
    sources.  A predicate is a pure, total boolean function of the value
    it is called on. *)
Definition predicate := Value -> bool.

(** [search_pred(item)] for a predicate and a record. *)
Definition holds (p : predicate) (item : DataObject) : bool := p (VData item).

(** [count_pred(len(objects))]. *)
Definition holds_len (p : predicate) (objects : list DataObject) : bool :=
  p (VScalar (SInt (Z.of_nat (length objects)))).

(** The classes of predicate objects the facade tells apart with
    [isinstance]. *)
Inductive pred_class :=
| plain_predicate
| telemetry_predicate_class
| event_predicate_class.

(** The test histories and aggregate histories of one instance, and
    substitute histories supplied by the caller. *)
Inductive HistRef :=
| command_history
| telemetry_history
| event_history
| aggregate_command_history
| aggregate_telemetry_history
| aggregate_event_history
| user_history (n : nat).

Definition HistRef_eqb (a b : HistRef) : bool :=
  match a, b with
  | command_history, command_history => true
  | telemetry_history, telemetry_history => true
  | event_history, event_history => true
  | aggregate_command_history, aggregate_command_history => true
  | aggregate_telemetry_history, aggregate_telemetry_history => true
  | aggregate_event_history, aggregate_event_history => true
  | user_history n, user_history m => Nat.eqb n m
  | _, _ => false
  end.

(** Python objects as the facade and the item search receive them. *)
#[warnings="-register-all"]
Inductive Obj :=
| ONone
| OScalar (s : Scalar)
| OList (l : list Obj)
| OPredicate (c : pred_class) (p : predicate)
| OHistory (r : HistRef).

(** The start cursor of a search: [None], the sentinel ["NOW"], or a
    literal index. *)
Inductive Cursor :=
| start_None
| NOW
| index (i : Z).

(* ================================================================== *)
(** ** Histories *)

(** Modelled from the spec: the class [TestHistory] is not part of the
    sources.  A history is an ordered log of records with an internal
    read cursor; [retrieve] is a snapshot that leaves the history as it
    is, [retrieve_new] returns what lies behind the read cursor and
    moves the cursor to the end. *)
Record History := mkHistory {
  objects : list DataObject;
  retrieved_cursor : nat
}.

(** Modelled from the spec: [TestHistory()], a history without
    records. *)
Definition empty_history : History := mkHistory [] 0.

(** Modelled from the spec: [TestHistory.size()], the current number of
    records. *)
Definition size (h : History) : Z := Z.of_nat (length (objects h)).

(** Modelled from the spec: [TestHistory.retrieve(from)], the records at
    positions [>= from], in arrival order; [from] omitted means from the
    start. *)
Definition retrieve (start : option Z) (h : History) : list DataObject :=
  match start with
  | None => objects h
  | Some i => skipn (Z.to_nat i) (objects h)
  end.

(** Modelled from the spec: [TestHistory.retrieve_new()], the records
    appended since the read cursor was last advanced by this call, and
    the history with the cursor advanced to the end. *)
Definition retrieve_new (h : History) : list DataObject * History :=
  (skipn (retrieved_cursor h) (objects h),
   mkHistory (objects h) (length (objects h))).

(** Modelled from the spec: the receiver (the data callback of the
    missing [TestHistory]) appends a record. *)
Definition append_object (d : DataObject) (h : History) : History :=
  mkHistory (objects h ++ [d]) (retrieved_cursor h).

(** Modelled from the spec: [TestHistory.clear(predicate?)].  Without a
    predicate every record goes; with one, the records preceding the
    first record that satisfies it go. *)
Fixpoint drop_until (p : predicate) (l : list DataObject) : list DataObject :=
  match l with
  | [] => []
  | d :: rest => if holds p d then l else drop_until p rest
  end.

(** Modelled from the spec: [TestHistory.clear], as [drop_until]
    describes. *)
Definition clear (start : option predicate) (h : History) : History :=
  match start with
  | None => empty_history
  | Some p => mkHistory (drop_until p (objects h)) 0
  end.

(* ================================================================== *)
(** ** The world *)

(** The history method calls a search performs (ghost). *)
Inductive Call :=
| call_size (r : HistRef)
| call_retrieve (r : HistRef) (start : option Z)
| call_retrieve_new (r : HistRef).

(** What the receiver appends while the caller sleeps once. *)
Definition Tick := list (HistRef * DataObject).

(** The dictionaries of the pipeline: mnemonic to identifier, and the
    set of known identifiers. *)
Record Pipeline := mkPipeline {
  command_name_dictionary : string -> option Z;
  command_id_dictionary : Z -> bool;
  channel_name_dictionary : string -> option Z;
  channel_id_dictionary : Z -> bool;
  event_name_dictionary : string -> option Z;
  event_id_dictionary : Z -> bool
}.

Record World := mkWorld {
  histories : HistRef -> History;
  latest_time : Z;
  pipeline : Pipeline;
  (** [true] once [_timeout_sig_handler] is installed for SIGALRM *)
  sigalrm_handler : bool;
  (** the seconds of the pending alarm, [0] when no alarm is pending *)
  alarm : Z;
  (** what arrives during each of the coming sleeps; when the feed is
      used up the pending alarm expires during the next sleep *)
  feed : list Tick;
  (** ghost: the history method calls, oldest first *)
  calls : list Call;
  (** ghost: the records handed to a search predicate, oldest first,
      each with the position of the predicate in its sequence ([0%nat]
      for the item and count searches) *)
  tested : list (nat * DataObject)
}.

Definition set_histories (f : HistRef -> History) (w : World) : World :=
  mkWorld f (latest_time w) (pipeline w) (sigalrm_handler w) (alarm w)
          (feed w) (calls w) (tested w).

Definition set_history (r : HistRef) (h : History) (w : World) : World :=
  set_histories (fun r' => if HistRef_eqb r' r then h else histories w r') w.

Definition set_latest_time (t : Z) (w : World) : World :=
  mkWorld (histories w) t (pipeline w) (sigalrm_handler w) (alarm w)
          (feed w) (calls w) (tested w).

Definition set_sigalrm_handler (b : bool) (w : World) : World :=
  mkWorld (histories w) (latest_time w) (pipeline w) b (alarm w)
          (feed w) (calls w) (tested w).

Definition set_alarm (t : Z) (w : World) : World :=
  mkWorld (histories w) (latest_time w) (pipeline w) (sigalrm_handler w) t
          (feed w) (calls w) (tested w).

Definition set_feed (f : list Tick) (w : World) : World :=
  mkWorld (histories w) (latest_time w) (pipeline w) (sigalrm_handler w)
          (alarm w) f (calls w) (tested w).

Definition log_call (c : Call) (w : World) : World :=
  mkWorld (histories w) (latest_time w) (pipeline w) (sigalrm_handler w)
          (alarm w) (feed w) (calls w ++ [c]) (tested w).

Definition log_tested (t : list (nat * DataObject)) (w : World) : World :=
  mkWorld (histories w) (latest_time w) (pipeline w) (sigalrm_handler w)
          (alarm w) (feed w) (calls w) (tested w ++ t).

(** The receiver delivers the records of one tick. *)
Fixpoint arrive (t : Tick) (w : World) : World :=
  match t with
  | [] => w
  | (r, d) :: rest => arrive rest (set_history r (append_object d (histories w r)) w)
  end.

(* ================================================================== *)
(** ** The monad of the methods *)

Inductive exn :=
| KeyError
| TypeError
| AttributeError
| IndexError
| AssertionError
| TimeoutException.

Inductive outcome (A : Type) :=
| Return (a : A)
| Raise (e : exn).
Arguments Return {A} a.
Arguments Raise {A} e.

Definition M (A : Type) := World -> outcome A * World.

Definition ret {A} (a : A) : M A := fun w => (Return a, w).

Definition raise {A} (e : exn) : M A := fun w => (Raise e, w).

Definition bind {A B} (m : M A) (k : A -> M B) : M B :=
  fun w => match m w with
           | (Return a, w') => k a w'
           | (Raise e, w') => (Raise e, w')
           end.

Declare Scope api_scope.
Delimit Scope api_scope with api.
Notation "x <- c1 ;; c2" := (bind c1 (fun x => c2))
  (at level 61, c1 at next level, right associativity) : api_scope.
Notation "c1 ;;; c2" := (bind c1 (fun _ => c2))
  (at level 61, right associativity) : api_scope.
Open Scope api_scope.

(* ================================================================== *)
(** ** History methods, signals and sleeping *)

Definition history_size (r : HistRef) : M Z :=
  fun w => (Return (size (histories w r)), log_call (call_size r) w).

Definition history_retrieve (r : HistRef) (start : option Z) : M (list DataObject) :=
  fun w => (Return (retrieve start (histories w r)),
            log_call (call_retrieve r start) w).

Definition history_retrieve_new (r : HistRef) : M (list DataObject) :=
  fun w => (Return (fst (retrieve_new (histories w r))),
            log_call (call_retrieve_new r)
                     (set_history r (snd (retrieve_new (histories w r))) w)).

Definition history_clear (r : HistRef) (start : option predicate) : M unit :=
  fun w => (Return tt, set_history r (clear start (histories w r)) w).

(** [o.size()], [o.retrieve(start)], [o.retrieve_new()] on an arbitrary
    object: only a history has these methods. *)
Definition method_size (o : Obj) : M Z :=
  match o with
  | OHistory r => history_size r
  | _ => raise AttributeError
  end.

Definition method_retrieve (o : Obj) (start : option Z) : M (list DataObject) :=
  match o with
  | OHistory r => history_retrieve r start
  | _ => raise AttributeError
  end.

Definition method_retrieve_new (o : Obj) : M (list DataObject) :=
  match o with
  | OHistory r => history_retrieve_new r
  | _ => raise AttributeError
  end.

(** [pred(item)] for a predicate known to be one; the record is entered
    in the ghost log with the position [pos] of the predicate. *)
Definition test (pos : nat) (p : predicate) (item : DataObject) : M bool :=
  fun w => (Return (holds p item), log_tested [(pos, item)] w).

(** [o(item)] on an arbitrary object: only a predicate is callable. *)
Definition call (o : Obj) (item : DataObject) : M bool :=
  match o with
  | OPredicate _ p => test 0 p item
  | _ => raise TypeError
  end.

(** [signal.signal(signal.SIGALRM, self._timeout_sig_handler)]. *)
Definition signal_signal_SIGALRM : M unit :=
  fun w => (Return tt, set_sigalrm_handler true w).

(** [signal.alarm(seconds)]: replaces the pending alarm; [0] cancels. *)
Definition signal_alarm (seconds : Z) : M unit :=
  fun w => (Return tt, set_alarm seconds w).

(** [time.sleep(0.1)] while the receiver delivers the tick [t]. *)
Definition sleep_arrivals (t : Tick) (rest : list Tick) (w : World) : World :=
  arrive t (set_feed rest w).

(** [time.sleep(0.1)] during which the alarm expires: the alarm is no
    longer pending and the handler raises [TimeoutException]. *)
Definition sleep_expired (w : World) : World := set_alarm 0 w.

(** [while True: body; time.sleep(0.1)] under an armed alarm, with the
    local variables [s] of the loop.  The body yields [inr a] when it
    executes [return a] and [inl s'] when it falls through with the
    locals [s'].  The loop as a whole yields [inr a] for a return and
    [inl s] when [TimeoutException] was raised with the locals [s], which
    is what the [except] clause of the caller sees. *)
Fixpoint while_true {S A : Type} (body : S -> M (S + A)) (s : S)
         (fd : list Tick) : M (S + A) :=
  fun w =>
    match body s w with
    | (Return (inr a), w') => (Return (inr a), w')
    | (Return (inl s'), w') =>
        match fd with
        | [] => (Return (inl s'), sleep_expired w')
        | t :: fd' => while_true body s' fd' (sleep_arrivals t fd' w')
        end
    | (Raise e, w') => (Raise e, w')
    end.

Definition polling {S A : Type} (body : S -> M (S + A)) (s : S) : M (S + A) :=
  fun w => while_true body s (feed w) w.

(** [if start == self.NOW: start = history.size()], for a history. *)
Definition resolve_start (history : HistRef) (start : Cursor) : M (option Z) :=
  match start with
  | NOW => z <- history_size history ;; ret (Some z)
  | start_None => ret None
  | index i => ret (Some i)
  end.

(* ================================================================== *)
(** ** find_history_item *)

(** [for item in items: if search_pred(item): return item]. *)
Fixpoint for_item (search_pred : Obj) (items : list DataObject)
  : M (unit + DataObject) :=
  match items with
  | [] => ret (inl tt)
  | item :: rest =>
      b <- call search_pred item ;;
      if b then ret (inr item) else for_item search_pred rest
  end.

(** The two positional arguments stay dynamic: the facade hands the
    method objects of either class. *)
Definition find_history_item (search_pred history : Obj) (start : Cursor)
           (timeout : Z) : M (option DataObject) :=
  start <- match start with
           | NOW => z <- method_size history ;; ret (Some z)
           | start_None => ret None
           | index i => ret (Some i)
           end ;;
  current <- method_retrieve history start ;;
  r <- for_item search_pred current ;;
  match r with
  | inr item => ret (Some item)
  | inl _ =>
      if negb (timeout =? 0) then
        signal_signal_SIGALRM ;;;
        signal_alarm timeout ;;;
        r <- polling (fun _ => new_items <- method_retrieve_new history ;;
                               for_item search_pred new_items) tt ;;
        match r with
        | inr item => ret (Some item)
        | inl _ => ret None
        end
      else ret None
  end.

(* ================================================================== *)
(** ** find_history_sequence *)

(** [[
    for item in items:
        if seq_preds[0](item):
            sequence.append(item)
            seq_preds.pop(0)
            if len(seq_preds) == 0:
                <before_return>
                return sequence
    ]]
    The initial scan returns at once; the polling loop first executes
    [signal.alarm(0)]. *)
Fixpoint for_sequence (before_return : M unit) (seq_preds : list predicate)
         (sequence : list DataObject) (items : list DataObject)
  : M ((list predicate * list DataObject) + list DataObject) :=
  match items with
  | [] => ret (inl (seq_preds, sequence))
  | item :: rest =>
      match seq_preds with
      | [] => raise IndexError
      | p :: seq_preds' =>
          b <- test (length sequence) p item ;;
          if b then
            let sequence := sequence ++ [item] in
            match seq_preds' with
            | [] => before_return ;;; ret (inr sequence)
            | _ => for_sequence before_return seq_preds' sequence rest
            end
          else for_sequence before_return seq_preds sequence rest
      end
  end.

(** The search pops from its own copy of [seq_preds]
    ([seq_preds = seq_preds.copy()]), so the list of the caller is a
    value here. *)
Definition find_history_sequence (seq_preds : list predicate)
           (history : HistRef) (start : Cursor) (timeout : Z)
  : M (list DataObject) :=
  start <- resolve_start history start ;;
  current <- history_retrieve history start ;;
  match seq_preds with
  | [] => ret []
  | _ =>
      r <- for_sequence (ret tt) seq_preds [] current ;;
      match r with
      | inr sequence => ret sequence
      | inl (seq_preds, sequence) =>
          if negb (timeout =? 0) then
            signal_signal_SIGALRM ;;;
            signal_alarm timeout ;;;
            r <- polling
                   (fun st => new_items <- history_retrieve_new history ;;
                              for_sequence (signal_alarm 0) (fst st) (snd st)
                                           new_items)
                   (seq_preds, sequence) ;;
            match r with
            | inr sequence => ret sequence
            | inl (_, sequence) => ret sequence
            end
          else ret sequence
      end
  end.

(* ================================================================== *)
(** ** Predicate constructors *)

(** The constructors of the module [predicates], which is not part of
    the sources, follow. *)

(** Modelled from the spec: [predicates.always_true()], constant true. *)
Definition always_true : predicate := fun _ => true.

(** Modelled from the spec: [predicates.is_predicate(o)], which tells the
    predicate objects of the missing module from other values. *)
Definition is_predicate (o : Obj) : bool :=
  match o with
  | OPredicate _ _ => true
  | _ => false
  end.

(** [isinstance(o, int)]. *)
Definition is_int (o : Obj) : bool :=
  match o with
  | OScalar (SInt _) => true
  | _ => false
  end.

Definition is_None (o : Obj) : bool :=
  match o with
  | ONone => true
  | _ => false
  end.

(** Equality of argument lists, for [equal_to]. *)
Fixpoint scalars_eqb (a b : list Scalar) : bool :=
  match a, b with
  | [], [] => true
  | x :: a', y :: b' => Scalar_eqb x y && scalars_eqb a' b'
  | _, _ => false
  end.

Fixpoint as_scalars (l : list Obj) : option (list Scalar) :=
  match l with
  | [] => Some []
  | OScalar s :: rest =>
      match as_scalars rest with
      | Some ss => Some (s :: ss)
      | None => None
      end
  | _ :: _ => None
  end.

(** Modelled from the spec: [predicates.equal_to(expected)], true of the
    values equal to [expected]. *)
Definition equal_to (expected : Obj) : predicate :=
  fun v =>
    match expected, v with
    | OScalar s, VScalar s' => Scalar_eqb s' s
    | OList l, VArgs a =>
        match as_scalars l with
        | Some ss => scalars_eqb a ss
        | None => false
        end
    | _, _ => false
    end.

(** The order of time stamps: seconds first, then microseconds. *)
Definition time_geb (a b : TimeType) : bool :=
  (seconds b <? seconds a) || ((seconds a =? seconds b) && (useconds b <=? useconds a)).

(** Modelled from the spec: [predicates.greater_than_or_equal_to(x)],
    true of the numbers and time stamps that are at least [x]. *)
Definition greater_than_or_equal_to (bound : Value) : predicate :=
  fun v =>
    match bound, v with
    | VTime t, VTime t' => time_geb t' t
    | VScalar (SInt n), VScalar (SInt z) => n <=? z
    | _, _ => false
    end.

(** Modelled from the spec: [predicates.satisfies_any(ps)], true when at
    least one of [ps] is. *)
Definition satisfies_any (ps : list predicate) : predicate :=
  fun v => existsb (fun p => p v) ps.

(** Modelled from the spec: a sub-predicate of a kind predicate of the
    missing module; absent, and so true, unless it is a predicate
    object. *)
Definition sub_predicate (o : Obj) (v : Value) : bool :=
  match o with
  | OPredicate _ p => p v
  | _ => true
  end.

(** Modelled from the spec: [predicates.telemetry_predicate], true of a
    record when every supplied sub-predicate is true of its field
    (identifier, value, time stamp). *)
Definition telemetry_predicate (id_pred value_pred time_pred : Obj) : predicate :=
  fun v =>
    match v with
    | VData d => sub_predicate id_pred (VScalar (SInt (get_id d)))
                 && sub_predicate value_pred (VScalar (get_val d))
                 && sub_predicate time_pred (VTime (get_time d))
    | _ => false
    end.

(** Modelled from the spec: [predicates.event_predicate], the same over
    identifier, argument list and time stamp. *)
Definition event_predicate (id_pred args_pred time_pred : Obj) : predicate :=
  fun v =>
    match v with
    | VData d => sub_predicate id_pred (VScalar (SInt (get_id d)))
                 && sub_predicate args_pred (VArgs (get_args d))
                 && sub_predicate time_pred (VTime (get_time d))
    | _ => false
    end.

(** Modelled from the spec: one position of [args_predicate]: [None] is
    a wildcard, a predicate is applied, a literal is compared. *)
Definition arg_matches (expected : Obj) (actual : Scalar) : bool :=
  match expected with
  | ONone => true
  | OPredicate _ p => p (VScalar actual)
  | _ => equal_to expected (VScalar actual)
  end.

Fixpoint args_match (expected : list Obj) (actual : list Scalar) : bool :=
  match expected, actual with
  | [], [] => true
  | e :: expected', a :: actual' => arg_matches e a && args_match expected' actual'
  | _, _ => false
  end.

(** Modelled from the spec: [predicates.args_predicate(expected)], true
    of an argument list of the same length that matches at every
    position. *)
Definition args_predicate (args : Obj) : predicate :=
  fun v =>
    match args, v with
    | OList expected, VArgs actual => args_match expected actual
    | _, _ => false
    end.

(* ================================================================== *)
(** ** find_history_count *)

(** The first loop, which only collects:
    [for item in current: if search_pred(item): objects.append(item)]. *)
Fixpoint for_count_initial (search_pred : predicate) (objects : list DataObject)
         (items : list DataObject) : M (list DataObject) :=
  match items with
  | [] => ret objects
  | item :: rest =>
      b <- test 0 search_pred item ;;
      if b then for_count_initial search_pred (objects ++ [item]) rest
      else for_count_initial search_pred objects rest
  end.

(** The loop over a polled batch:
    [[
    for item in new_items:
        if search_pred(item):
            objects.append(item)
            if count_pred(len(objects)):
                signal.alarm(0)
                return objects
    ]] *)
Fixpoint for_count (count_pred search_pred : predicate)
         (objects : list DataObject) (items : list DataObject)
  : M (list DataObject + list DataObject) :=
  match items with
  | [] => ret (inl objects)
  | item :: rest =>
      b <- test 0 search_pred item ;;
      if b then
        let objects := objects ++ [item] in
        if holds_len count_pred objects then
          signal_alarm 0 ;;; ret (inr objects)
        else for_count count_pred search_pred objects rest
      else for_count count_pred search_pred objects rest
  end.

(** Without a search predicate [objects] is the very list [retrieve]
    returned, and the polling loop appends to it; [retrieve] returns a
    snapshot, so the history does not see the appends. *)
Definition find_history_count (count : Obj) (history : HistRef)
           (search_pred : option predicate) (start : Cursor) (timeout : Z)
  : M (list DataObject) :=
  count_pred <- match count with
                | OPredicate _ p => ret p
                | OScalar (SInt _) => ret (equal_to count)
                | _ => raise TypeError
                end ;;
  start <- resolve_start history start ;;
  so <- match search_pred with
        | None =>
            objects <- history_retrieve history start ;;
            ret (always_true, objects)
        | Some search_pred =>
            current <- history_retrieve history start ;;
            objects <- for_count_initial search_pred [] current ;;
            ret (search_pred, objects)
        end ;;
  let search_pred := fst so in
  let objects := snd so in
  if holds_len count_pred objects then ret objects
  else
    if negb (timeout =? 0) then
      signal_signal_SIGALRM ;;;
      signal_alarm timeout ;;;
      r <- polling (fun objects =>
                      new_items <- history_retrieve_new history ;;
                      for_count count_pred search_pred objects new_items)
                   objects ;;
      match r with
      | inr objects => ret objects
      | inl objects => ret objects
      end
    else ret objects.

(* ================================================================== *)
(** ** The facade *)

Definition get_pipeline : M Pipeline := fun w => (Return (pipeline w), w).

(** A dictionary lookup with a key that is neither a string nor a
    number: a list cannot be hashed, any other object is not a key. *)
Definition lookup_other (key : Obj) : M Obj :=
  match key with
  | OList _ => raise TypeError
  | _ => raise KeyError
  end.

Definition translate_telemetry_name (channel : Obj) : M Obj :=
  match channel with
  | OScalar (SStr name) =>
      pl <- get_pipeline ;;
      match channel_name_dictionary pl name with
      | Some id => ret (OScalar (SInt id))
      | None => raise KeyError
      end
  | OScalar (SInt id) =>
      pl <- get_pipeline ;;
      if channel_id_dictionary pl id then ret channel else raise KeyError
  | _ => lookup_other channel
  end.

Definition get_telemetry_predicate (channel value time_pred : Obj) : M Obj :=
  match channel with
  | OPredicate telemetry_predicate_class _ => ret channel
  | _ =>
      channel <- (if negb (is_predicate channel) && negb (is_None channel) then
                    channel <- translate_telemetry_name channel ;;
                    ret (OPredicate plain_predicate (equal_to channel))
                  else ret channel) ;;
      let value := if negb (is_predicate value) && negb (is_None value)
                   then OPredicate plain_predicate (equal_to value)
                   else value in
      ret (OPredicate telemetry_predicate_class
                      (telemetry_predicate channel value time_pred))
  end.

Definition translate_event_name (event : Obj) : M Obj :=
  match event with
  | OScalar (SStr name) =>
      pl <- get_pipeline ;;
      match event_name_dictionary pl name with
      | Some id => ret (OScalar (SInt id))
      | None => raise KeyError
      end
  | OScalar (SInt id) =>
      pl <- get_pipeline ;;
      if event_id_dictionary pl id then ret event else raise KeyError
  | _ => lookup_other event
  end.

Definition get_event_predicate (event args time_pred : Obj) : M Obj :=
  match event with
  | OPredicate event_predicate_class _ => ret event
  | _ =>
      event <- (if negb (is_predicate event) && negb (is_None event) then
                  event <- translate_event_name event ;;
                  ret (OPredicate plain_predicate (equal_to event))
                else ret event) ;;
      let args := if negb (is_predicate args) && negb (is_None args)
                  then OPredicate plain_predicate (args_predicate args)
                  else args in
      ret (OPredicate event_predicate_class
                      (event_predicate event args time_pred))
  end.

(** [self.get_telemetry_test_history()], [self.get_event_test_history()]. *)
Definition get_telemetry_test_history : Obj := OHistory telemetry_history.
Definition get_event_test_history : Obj := OHistory event_history.

(** The last statement is the call as the source writes it,
    [self.find_history_item(history, t_pred, start, timeout)], against
    the parameter list [(search_pred, history, start, timeout)]. *)
Definition await_telemetry (channel value time_pred history : Obj)
           (start : Cursor) (timeout : Z) : M (option DataObject) :=
  t_pred <- get_telemetry_predicate channel value time_pred ;;
  let history := if is_None history then get_telemetry_test_history
                 else history in
  find_history_item history t_pred start timeout.

(** Likewise [self.find_history_item(history, e_pred, start, timeout)]. *)
Definition await_event (event args time_pred history : Obj)
           (start : Cursor) (timeout : Z) : M (option DataObject) :=
  e_pred <- get_event_predicate event args time_pred ;;
  let history := if is_None history then get_event_test_history
                 else history in
  find_history_item history e_pred start timeout.

(** The callable behind a predicate object. *)
Definition predicate_of (o : Obj) : predicate :=
  match o with
  | OPredicate _ p => p
  | _ => fun _ => false
  end.

(** [[ seq_preds = []
       for channel in channels:
           seq_preds.append(self.get_telemetry_predicate(channel)) ]] *)
Fixpoint get_telemetry_predicates (channels : list Obj) : M (list predicate) :=
  match channels with
  | [] => ret []
  | channel :: rest =>
      p <- get_telemetry_predicate channel ONone ONone ;;
      ps <- get_telemetry_predicates rest ;;
      ret (predicate_of p :: ps)
  end.

Fixpoint get_event_predicates (events : list Obj) : M (list predicate) :=
  match events with
  | [] => ret []
  | event :: rest =>
      p <- get_event_predicate event ONone ONone ;;
      ps <- get_event_predicates rest ;;
      ret (predicate_of p :: ps)
  end.

(** The sequence and count searches on an arbitrary object in the place
    of the history: their first use of it is [history.size()] or
    [history.retrieve(start)], which only a history has; in the count
    search the check of the count comes before. *)
Definition call_find_history_sequence (seq_preds : list predicate)
           (history : Obj) (start : Cursor) (timeout : Z)
  : M (list DataObject) :=
  match history with
  | OHistory r => find_history_sequence seq_preds r start timeout
  | _ => raise AttributeError
  end.

Definition call_find_history_count (count : Obj) (history : Obj)
           (search_pred : option predicate) (start : Cursor) (timeout : Z)
  : M (list DataObject) :=
  match history with
  | OHistory r => find_history_count count r search_pred start timeout
  | _ => if is_predicate count || is_int count then raise AttributeError
         else raise TypeError
  end.

Definition await_telemetry_sequence (channels : list Obj) (history : Obj)
           (start : Cursor) (timeout : Z) : M (list DataObject) :=
  seq_preds <- get_telemetry_predicates channels ;;
  let history := if is_None history then get_telemetry_test_history
                 else history in
  call_find_history_sequence seq_preds history start timeout.

Definition await_telemetry_count (count channels history : Obj)
           (start : Cursor) (timeout : Z) : M (list DataObject) :=
  search <- match channels with
            | ONone => ret None
            | OList l =>
                t_preds <- get_telemetry_predicates l ;;
                ret (Some (satisfies_any t_preds))
            | _ =>
                p <- get_telemetry_predicate channels ONone ONone ;;
                ret (Some (predicate_of p))
            end ;;
  let history := if is_None history then get_telemetry_test_history
                 else history in
  call_find_history_count count history search start timeout.

Definition await_event_sequence (events : list Obj) (history : Obj)
           (start : Cursor) (timeout : Z) : M (list DataObject) :=
  seq_preds <- get_event_predicates events ;;
  let history := if is_None history then get_event_test_history
                 else history in
  call_find_history_sequence seq_preds history start timeout.

Definition await_event_count (count events history : Obj)
           (start : Cursor) (timeout : Z) : M (list DataObject) :=
  search <- match events with
            | ONone => ret None
            | OList l =>
                e_preds <- get_event_predicates l ;;
                ret (Some (satisfies_any e_preds))
            | _ =>
                p <- get_event_predicate events ONone ONone ;;
                ret (Some (predicate_of p))
            end ;;
  let history := if is_None history then get_event_test_history
                 else history in
  call_find_history_count count history search start timeout.

(** [assert condition]. *)
Definition assert (condition : bool) : M unit :=
  if condition then ret tt else raise AssertionError.

Definition assert_telemetry (channel value time_pred history : Obj)
           (start : Cursor) (timeout : Z) : M (option DataObject) :=
  result <- await_telemetry channel value time_pred history start timeout ;;
  assert (match result with Some _ => true | None => false end) ;;;
  ret result.

Definition assert_telemetry_sequence (channels : list Obj) (history : Obj)
           (start : Cursor) (timeout : Z) : M (list DataObject) :=
  results <- await_telemetry_sequence channels history start timeout ;;
  assert (Nat.eqb (length channels) (length results)) ;;;
  ret results.

(** [count_pred] as the assert wrappers rebuild it; the count was
    accepted by the search before. *)
Definition count_pred_of (count : Obj) : predicate :=
  match count with
  | OPredicate _ p => p
  | _ => equal_to count
  end.

Definition assert_telemetry_count (count channels history : Obj)
           (start : Cursor) (timeout : Z) : M (list DataObject) :=
  results <- await_telemetry_count count channels history start timeout ;;
  assert (holds_len (count_pred_of count) results) ;;;
  ret results.

Definition assert_event (event args time_pred history : Obj)
           (start : Cursor) (timeout : Z) : M (option DataObject) :=
  pred <- get_event_predicate event args time_pred ;;
  result <- await_event event args time_pred history start timeout ;;
  assert (predicate_of pred (match result with
                             | Some d => VData d
                             | None => VNone
                             end)) ;;;
  ret result.

Definition assert_event_sequence (events : list Obj) (history : Obj)
           (start : Cursor) (timeout : Z) : M (list DataObject) :=
  results <- await_event_sequence events history start timeout ;;
  assert (Nat.eqb (length events) (length results)) ;;;
  ret results.

Definition assert_event_count (count events history : Obj)
           (start : Cursor) (timeout : Z) : M (list DataObject) :=
  results <- await_event_count count events history start timeout ;;
  assert (holds_len (count_pred_of count) results) ;;;
  ret results.

(** ** Commands *)

Definition translate_command_name (command : Obj) : M Obj :=
  match command with
  | OScalar (SStr name) =>
      pl <- get_pipeline ;;
      match command_name_dictionary pl name with
      | Some id => ret (OScalar (SInt id))
      | None => raise KeyError
      end
  | OScalar (SInt id) =>
      pl <- get_pipeline ;;
      if command_id_dictionary pl id then ret command else raise KeyError
  | _ => lookup_other command
  end.

(** [self.pipeline.send_command(command, args)]: the command leaves
    through the pipeline; whatever the flight software answers reaches
    the histories through the receiver. *)
Definition pipeline_send_command (command args : Obj) : M unit := ret tt.

Definition send_command (command args : Obj) : M unit :=
  command <- translate_command_name command ;;
  pipeline_send_command command args.

(** [try: ... except KeyError: assert False]. *)
Definition assert_send_command (command args : Obj) : M unit :=
  fun w => match send_command command args w with
           | (Raise KeyError, w') => (Raise AssertionError, w')
           | r => r
           end.

(** What a search hands back: one record or [None], or a list. *)
Inductive Found :=
| found_item (item : option DataObject)
| found_list (items : list DataObject).

Definition send_and_await_telemetry (command args channels : Obj) (timeout : Z)
  : M Found :=
  start <- history_size telemetry_history ;;
  send_command command args ;;;
  match channels with
  | OList l =>
      r <- await_telemetry_sequence l ONone (index start) timeout ;;
      ret (found_list r)
  | _ =>
      r <- await_telemetry channels ONone ONone ONone (index start) timeout ;;
      ret (found_item r)
  end.

Definition send_and_await_event (command args events : Obj) (timeout : Z)
  : M Found :=
  start <- history_size event_history ;;
  send_command command args ;;;
  match events with
  | OList l =>
      r <- await_event_sequence l ONone (index start) timeout ;;
      ret (found_list r)
  | _ =>
      r <- await_event events ONone ONone ONone (index start) timeout ;;
      ret (found_item r)
  end.

Definition send_and_assert_telemetry (command args channels : Obj) (timeout : Z)
  : M Found :=
  start <- history_size telemetry_history ;;
  send_command command args ;;;
  match channels with
  | OList l =>
      r <- assert_telemetry_sequence l ONone (index start) timeout ;;
      ret (found_list r)
  | _ =>
      r <- assert_telemetry channels ONone ONone ONone (index start) timeout ;;
      ret (found_item r)
  end.

Definition send_and_assert_event (command args events : Obj) (timeout : Z)
  : M Found :=
  start <- history_size event_history ;;
  send_command command args ;;;
  match events with
  | OList l =>
      r <- assert_event_sequence l ONone (index start) timeout ;;
      ret (found_list r)
  | _ =>
      r <- assert_event events ONone ONone ONone (index start) timeout ;;
      ret (found_item r)
  end.

(* ================================================================== *)
(** ** Time query and test-case bookkeeping *)

(** [x[-1].get_time().useconds] when [len(x) > 0], else
    [TimeType().useconds]. *)
Definition last_useconds (items : list DataObject) : Z :=
  match rev items with
  | [] => useconds TimeType_default
  | d :: _ => useconds (get_time d)
  end.

Definition get_latest_fsw_time : M Z :=
  events <- history_retrieve aggregate_event_history None ;;
  let e_time := last_useconds events in
  channels <- history_retrieve aggregate_telemetry_history None ;;
  let t_time := last_useconds channels in
  fun w =>
    let latest := Z.max (Z.max e_time t_time) (latest_time w) in
    (Return latest, set_latest_time latest w).

Definition clear_histories (time_stamp : option TimeType) : M unit :=
  match time_stamp with
  | Some ts =>
      let time_pred := OPredicate plain_predicate
                                  (greater_than_or_equal_to (VTime ts)) in
      history_clear event_history (Some (event_predicate ONone ONone time_pred)) ;;;
      history_clear telemetry_history
                    (Some (telemetry_predicate ONone ONone time_pred))
  | None =>
      history_clear event_history None ;;;
      history_clear telemetry_history None
  end ;;;
  history_clear command_history None.

(** [log_test_message] prints or writes to the test log, neither of which
    is part of the world. *)
Definition log_test_message (msg : string) : M unit := ret tt.

Definition start_test_case (name : string) : M unit :=
  get_latest_fsw_time ;;;
  log_test_message name ;;;
  clear_histories None.

Definition teardown : M unit := clear_histories None.

(** The operations on one instance, and what its surroundings do between
    them: the receiver appends records, the environment fixes what will
    arrive during the coming sleeps, the user clears a history.  The
    three accessors of the test histories only read a field and are left
    out. *)
Inductive Op :=
| op_teardown
| op_log_test_message (msg : string)
| op_start_test_case (name : string)
| op_get_latest_fsw_time
| op_clear_histories (time_stamp : option TimeType)
| op_translate_command_name (command : Obj)
| op_send_command (command args : Obj)
| op_send_and_await_telemetry (command args channels : Obj) (timeout : Z)
| op_send_and_await_event (command args events : Obj) (timeout : Z)
| op_assert_send_command (command args : Obj)
| op_send_and_assert_telemetry (command args channels : Obj) (timeout : Z)
| op_send_and_assert_event (command args events : Obj) (timeout : Z)
| op_translate_telemetry_name (channel : Obj)
| op_get_telemetry_predicate (channel value time_pred : Obj)
| op_await_telemetry (channel value time_pred history : Obj) (start : Cursor)
                     (timeout : Z)
| op_await_telemetry_sequence (channels : list Obj) (history : Obj)
                              (start : Cursor) (timeout : Z)
| op_await_telemetry_count (count channels history : Obj) (start : Cursor)
                           (timeout : Z)
| op_assert_telemetry (channel value time_pred history : Obj) (start : Cursor)
                      (timeout : Z)
| op_assert_telemetry_sequence (channels : list Obj) (history : Obj)
                               (start : Cursor) (timeout : Z)
| op_assert_telemetry_count (count channels history : Obj) (start : Cursor)
                            (timeout : Z)
| op_translate_event_name (event : Obj)
| op_get_event_predicate (event args time_pred : Obj)
| op_await_event (event args time_pred history : Obj) (start : Cursor)
                 (timeout : Z)
| op_await_event_sequence (events : list Obj) (history : Obj)
                          (start : Cursor) (timeout : Z)
| op_await_event_count (count events history : Obj) (start : Cursor)
                       (timeout : Z)
| op_assert_event (event args time_pred history : Obj) (start : Cursor)
                  (timeout : Z)
| op_assert_event_sequence (events : list Obj) (history : Obj)
                           (start : Cursor) (timeout : Z)
| op_assert_event_count (count events history : Obj) (start : Cursor)
                        (timeout : Z)
| op_find_history_item (search_pred history : Obj) (start : Cursor) (timeout : Z)
| op_find_history_sequence (seq_preds : list predicate) (history : HistRef)
                           (start : Cursor) (timeout : Z)
| op_find_history_count (count : Obj) (history : HistRef)
                        (search_pred : option predicate) (start : Cursor)
                        (timeout : Z)
| op_receive (t : Tick)
| op_schedule (f : list Tick)
| op_user_clear (history : HistRef).

(** The method an operation stands for, its result dropped. *)
Definition method_of (op : Op) : M unit :=
  match op with
  | op_teardown => teardown
  | op_log_test_message msg => log_test_message msg
  | op_start_test_case name => start_test_case name
  | op_get_latest_fsw_time => get_latest_fsw_time ;;; ret tt
  | op_clear_histories ts => clear_histories ts
  | op_translate_command_name c => translate_command_name c ;;; ret tt
  | op_send_command c a => send_command c a
  | op_send_and_await_telemetry c a ch t =>
      send_and_await_telemetry c a ch t ;;; ret tt
  | op_send_and_await_event c a ev t => send_and_await_event c a ev t ;;; ret tt
  | op_assert_send_command c a => assert_send_command c a
  | op_send_and_assert_telemetry c a ch t =>
      send_and_assert_telemetry c a ch t ;;; ret tt
  | op_send_and_assert_event c a ev t =>
      send_and_assert_event c a ev t ;;; ret tt
  | op_translate_telemetry_name c => translate_telemetry_name c ;;; ret tt
  | op_get_telemetry_predicate c v tp => get_telemetry_predicate c v tp ;;; ret tt
  | op_await_telemetry c v tp h s t => await_telemetry c v tp h s t ;;; ret tt
  | op_await_telemetry_sequence cs h s t =>
      await_telemetry_sequence cs h s t ;;; ret tt
  | op_await_telemetry_count n cs h s t =>
      await_telemetry_count n cs h s t ;;; ret tt
  | op_assert_telemetry c v tp h s t => assert_telemetry c v tp h s t ;;; ret tt
  | op_assert_telemetry_sequence cs h s t =>
      assert_telemetry_sequence cs h s t ;;; ret tt
  | op_assert_telemetry_count n cs h s t =>
      assert_telemetry_count n cs h s t ;;; ret tt
  | op_translate_event_name e => translate_event_name e ;;; ret tt
  | op_get_event_predicate e a tp => get_event_predicate e a tp ;;; ret tt
  | op_await_event e a tp h s t => await_event e a tp h s t ;;; ret tt
  | op_await_event_sequence es h s t => await_event_sequence es h s t ;;; ret tt
  | op_await_event_count n es h s t => await_event_count n es h s t ;;; ret tt
  | op_assert_event e a tp h s t => assert_event e a tp h s t ;;; ret tt
  | op_assert_event_sequence es h s t =>
      assert_event_sequence es h s t ;;; ret tt
  | op_assert_event_count n es h s t => assert_event_count n es h s t ;;; ret tt
  | op_find_history_item p h s t => find_history_item p h s t ;;; ret tt
  | op_find_history_sequence ps h s t => find_history_sequence ps h s t ;;; ret tt
  | op_find_history_count c h p s t => find_history_count c h p s t ;;; ret tt
  | op_receive t => fun w => (Return tt, arrive t w)
  | op_schedule f => fun w => (Return tt, set_feed f w)
  | op_user_clear h => history_clear h None
  end.

(** One operation: the time it returns, for [get_latest_fsw_time], and
    the world it leaves. *)
Definition run_op (op : Op) (w : World) : option Z * World :=
  match op with
  | op_get_latest_fsw_time =>
      match get_latest_fsw_time w with
      | (Return t, w') => (Some t, w')
      | (Raise _, w') => (None, w')
      end
  | _ => (None, snd (method_of op w))
  end.

(** A run of operations: the times returned by the time queries, in
    order, and the final world. *)
Fixpoint run (ops : list Op) (w : World) : list Z * World :=
  match ops with
  | [] => ([], w)
  | op :: rest =>
      let (t, w') := run_op op w in
      let (ts, w'') := run rest w' in
      (match t with Some z => z :: ts | None => ts end, w'')
  end.

(** [IntegrationTestAPI(pipeline)]: empty test histories, the aggregate
    histories as the pipeline holds them, and the initial latest time. *)
Definition init (pl : Pipeline) (aggregate : HistRef -> History) : World :=
  mkWorld (fun r => match r with
                    | aggregate_command_history
                    | aggregate_telemetry_history
                    | aggregate_event_history => aggregate r
                    | _ => empty_history
                    end)
          (useconds TimeType_default) pl false 0 [] [] [].

(* ================================================================== *)
(** ** Functions used to state what the searches do *)

(** The argument [history.retrieve] receives once the cursor is
    resolved. *)
Definition resolved (r : HistRef) (start : Cursor) (w : World) : option Z :=
  match start with
  | NOW => Some (size (histories w r))
  | start_None => None
  | index i => Some i
  end.

(** The records of the initial scan. *)
Definition current (r : HistRef) (start : Cursor) (w : World) : list DataObject :=
  retrieve (resolved r start w) (histories w r).

(** The history calls up to and including the initial [retrieve]. *)
Definition initial_calls (r : HistRef) (start : Cursor) (w : World) : list Call :=
  match start with
  | NOW => [call_size r]
  | _ => []
  end ++ [call_retrieve r (resolved r start w)].

(** What one tick appends to the history [r]. *)
Fixpoint receive (r : HistRef) (t : Tick) (h : History) : History :=
  match t with
  | [] => h
  | (r', d) :: rest =>
      receive r rest (if HistRef_eqb r r' then append_object d h else h)
  end.

(** The batches successive calls of [retrieve_new] on [r] return when
    one tick of [fd] is delivered between two calls. *)
Fixpoint polled (r : HistRef) (h : History) (fd : list Tick)
  : list (list DataObject) :=
  fst (retrieve_new h) ::
  match fd with
  | [] => []
  | t :: fd' => polled r (receive r t (snd (retrieve_new h))) fd'
  end.


(** [signal.alarm(0)], or nothing. *)
Definition cancel_alarm (cancel : bool) (w : World) : World :=
  if cancel then set_alarm 0 w else w.

(** The loops as pure functions of the records: the outcome and the
    records tested on the way. *)
Fixpoint item_scan (p : predicate) (items : list DataObject)
  : (unit + DataObject) * list (nat * DataObject) :=
  match items with
  | [] => (inl tt, [])
  | item :: rest =>
      if holds p item then (inr item, [(0%nat, item)])
      else let (o, t) := item_scan p rest in (o, (0%nat, item) :: t)
  end.

Fixpoint sequence_scan (seq_preds : list predicate) (sequence : list DataObject)
         (items : list DataObject)
  : ((list predicate * list DataObject) + list DataObject)
    * list (nat * DataObject) :=
  match items with
  | [] => (inl (seq_preds, sequence), [])
  | item :: rest =>
      match seq_preds with
      | [] => (inl (seq_preds, sequence), [])
      | p :: seq_preds' =>
          if holds p item then
            match seq_preds' with
            | [] => (inr (sequence ++ [item]), [(length sequence, item)])
            | _ => let (o, t) := sequence_scan seq_preds' (sequence ++ [item]) rest in
                   (o, (length sequence, item) :: t)
            end
          else let (o, t) := sequence_scan seq_preds sequence rest in
               (o, (length sequence, item) :: t)
      end
  end.

Fixpoint count_scan (count_pred search_pred : predicate)
         (objects : list DataObject) (items : list DataObject)
  : (list DataObject + list DataObject) * list (nat * DataObject) :=
  match items with
  | [] => (inl objects, [])
  | item :: rest =>
      if holds search_pred item then
        if holds_len count_pred (objects ++ [item]) then
          (inr (objects ++ [item]), [(0%nat, item)])
        else let (o, t) := count_scan count_pred search_pred (objects ++ [item]) rest in
             (o, (0%nat, item) :: t)
      else let (o, t) := count_scan count_pred search_pred objects rest in
           (o, (0%nat, item) :: t)
  end.

(** The sequence search in the words of its description: a pointer into
    the predicates, initially [0], and an accumulator.  A candidate that
    satisfies the predicate pointed to is appended and the pointer
    advances; any other candidate is passed over; when the pointer has
    passed the last predicate the accumulator is the result. *)
Fixpoint greedy_match (preds : list predicate) (pointer : nat)
         (acc : list DataObject) (candidates : list DataObject)
  : list DataObject :=
  match candidates with
  | [] => acc
  | x :: rest =>
      match nth_error preds pointer with
      | None => acc
      | Some p =>
          if holds p x then greedy_match preds (S pointer) (acc ++ [x]) rest
          else greedy_match preds pointer acc rest
      end
  end.

(** A log of tests that is a strict single pass over [preds] starting at
    the pointer [k], and the records it matches: every record is tested
    once, against the predicate pointed to; a failed test leaves the
    pointer, a successful one takes the record and advances the pointer;
    nothing is tested once the pointer has passed the last predicate. *)
Inductive single_pass (preds : list predicate)
  : nat -> list (nat * DataObject) -> list DataObject -> Prop :=
| sp_end : forall k, single_pass preds k [] []
| sp_skip : forall k p x tr acc,
    nth_error preds k = Some p -> holds p x = false ->
    single_pass preds k tr acc ->
    single_pass preds k ((k, x) :: tr) acc
| sp_match : forall k p x tr acc,
    nth_error preds k = Some p -> holds p x = true ->
    single_pass preds (S k) tr acc ->
    single_pass preds k ((k, x) :: tr) (x :: acc).

(** The count search in the words of its description: the matching
    records are accumulated one by one, and the accumulation stops at the
    first record with which the count predicate holds of the length. *)
Fixpoint count_until (count_pred search_pred : predicate)
         (acc : list DataObject) (candidates : list DataObject)
  : list DataObject :=
  match candidates with
  | [] => acc
  | x :: rest =>
      if holds search_pred x then
        if holds_len count_pred (acc ++ [x]) then acc ++ [x]
        else count_until count_pred search_pred (acc ++ [x]) rest
      else count_until count_pred search_pred acc rest
  end.

(** The count predicate and the item predicate a call works with. *)
Definition count_predicate_of (count : Obj) : option predicate :=
  match count with
  | OPredicate _ p => Some p
  | OScalar (SInt _) => Some (equal_to count)
  | _ => None
  end.

Definition item_predicate_of (search_pred : option predicate) : predicate :=
  match search_pred with
  | Some p => p
  | None => always_true
  end.


(** The world once the cursor is resolved and the initial [retrieve] is
    done. *)
Definition initial_world (r : HistRef) (start : Cursor) (w : World) : World :=
  log_call (call_retrieve r (resolved r start w))
           (match start with
            | NOW => log_call (call_size r) w
            | _ => w
            end).

(** The accumulator a sequence or count loop ends with, returned or
    not. *)
Definition sequence_of (o : (list predicate * list DataObject) + list DataObject)
  : list DataObject :=
  match o with
  | inl (_, sequence) => sequence
  | inr sequence => sequence
  end.

Definition objects_of (o : list DataObject + list DataObject) : list DataObject :=
  match o with
  | inl objects => objects
  | inr objects => objects
  end.

(** The body of a polling loop: fetch the new records, run the loop over
    them. *)
Definition poll_body {St Res : Type} (r : HistRef)
           (loop : St -> list DataObject -> M (St + Res)) : St -> M (St + Res) :=
  fun s => new_items <- history_retrieve_new r ;; loop s new_items.

(** The world after one pass of that body, up to the cancelling of the
    alarm, when the loop over the batch behaves as the pure [scan]. *)
Definition world_polled_once {St Res : Type} (r : HistRef)
           (scan : St -> list DataObject -> (St + Res) * list (nat * DataObject))
           (s : St) (w : World) : World :=
  log_tested (snd (scan s (fst (retrieve_new (histories w r)))))
             (log_call (call_retrieve_new r)
                       (set_history r (snd (retrieve_new (histories w r))) w)).

Arguments retrieve_new : simpl never.

(** What an immediate search leaves of the world [w]: nothing but the
    history calls of the cursor resolution and of the initial
    [retrieve]. *)
Definition immediate_frame (r : HistRef) (start : Cursor) (w w' : World) : Prop :=
  histories w' = histories w
  /\ sigalrm_handler w' = sigalrm_handler w
  /\ alarm w' = alarm w
  /\ feed w' = feed w
  /\ calls w' = calls w ++ initial_calls r start w.

(** A computation that leaves [latest_time] as it finds it, whatever its
    outcome. *)
Definition keeps_latest_time {A : Type} (m : M A) : Prop :=
  forall w, latest_time (snd (m w)) = latest_time w.

(* ================================================================== *)
(** ** A small deployment for the examples *)

Definition example_pipeline : Pipeline :=
  mkPipeline (fun name => if String.eqb name "CMD_NO_OP" then Some 1 else None)
             (fun id => (1 <=? id) && (id <=? 3))
             (fun name => if String.eqb name "BD_Cycles" then Some 2 else None)
             (fun id => (1 <=? id) && (id <=? 3))
             (fun name => if String.eqb name "OpCodeDispatched" then Some 2 else None)
             (fun id => (1 <=? id) && (id <=? 3)).

Definition rec_a : DataObject := mkData 1 (SInt 0) [] (mkTime 0 10).
Definition rec_b : DataObject := mkData 2 (SInt 7) [] (mkTime 0 20).
Definition rec_c : DataObject := mkData 3 (SInt 7) [] (mkTime 0 30).

(** [P1]: the identifier is 2.  [P2]: the value is 7.  So [rec_a]
    satisfies neither, [rec_b] both, [rec_c] only [P2]. *)
Definition P1 : predicate :=
  telemetry_predicate (OPredicate plain_predicate (equal_to (OScalar (SInt 2))))
                      ONone ONone.

(** A fresh instance; one whose telemetry history holds the three
    records; one whose telemetry history is empty and receives them
    during the coming sleeps. *)
Definition fresh_world : World := init example_pipeline (fun _ => empty_history).

Definition world_abc : World :=
  arrive [(telemetry_history, rec_a); (telemetry_history, rec_b);
          (telemetry_history, rec_c)] fresh_world.

Definition world_awaiting : World :=
  set_feed [[(telemetry_history, rec_a)];
            [(telemetry_history, rec_b); (telemetry_history, rec_c)];
            []] fresh_world.

Definition example_ops : list Op :=
  [op_get_latest_fsw_time;
   op_receive [(aggregate_event_history, rec_c)];
   op_get_latest_fsw_time;
   op_start_test_case "case";
   op_user_clear aggregate_event_history;
   op_get_latest_fsw_time].

(* ================================================================== *)
(** ** Relations between the world before and after a method *)

(** A computation whose final world stands in the relation [R] to the
    world it starts in, whatever its outcome. *)
Definition respects (R : World -> World -> Prop) {A : Type} (m : M A) : Prop :=
  forall w, R w (snd (m w)).

(** No record of any history is removed or moved: every history holds
    the records it held, in order, followed by the new ones. *)
Definition histories_grow (w w' : World) : Prop :=
  forall r, exists more,
      objects (histories w' r) = objects (histories w r) ++ more.

(** No alarm is pending afterwards when none was pending before. *)
Definition no_alarm_left (w w' : World) : Prop :=
  alarm w = 0 -> alarm w' = 0.

(** The handler for SIGALRM, once installed, stays installed. *)
Definition handler_stays (w w' : World) : Prop :=
  sigalrm_handler w = true -> sigalrm_handler w' = true.

(** The operations that clear a history. *)
Definition clears (op : Op) : bool :=
  match op with
  | op_teardown | op_start_test_case _ | op_clear_histories _
  | op_user_clear _ => true
  | _ => false
  end.

(** A direct call of the item search. *)
Definition is_find_history_item (op : Op) : bool :=
  match op with
  | op_find_history_item _ _ _ _ => true
  | _ => false
  end.


(** The records are in the order of their time stamps. *)
Definition in_time_order (l : list DataObject) : Prop :=
  StronglySorted (fun a b => time_geb (get_time b) (get_time a) = true) l.

(** Every identifier the name dictionary yields is a key of the
    identifier dictionary. *)
Definition dictionaries_agree (names : string -> option Z) (ids : Z -> bool)
  : Prop :=
  forall name id, names name = Some id -> ids id = true.

(** The constraint a value specifier puts on the value of a channel
    update: none for [None], the predicate itself, or equality with a
    literal. *)
Definition value_constraint (value : Obj) (v : Value) : bool :=
  match value with
  | ONone => true
  | OPredicate _ q => q v
  | _ => equal_to value v
  end.

(** The constraint an argument specifier puts on the arguments of an
    event: none for [None], the predicate itself, or the positional match
    with a list of expectations. *)
Definition args_constraint (args : Obj) (v : Value) : bool :=
  match args with
  | ONone => true
  | OPredicate _ q => q v
  | _ => args_predicate args v
  end.

(** At least one of the predicates holds of the record. *)
Definition any_of_holds (ps : list predicate) (d : DataObject) : bool :=
  existsb (fun p => holds p d) ps.

(** The records a count await on telemetry counts, as a filter: all of
    them without a specifier, those some specifier of a list selects,
    those the one specifier selects; there is none when a specifier does
    not translate. *)
Definition telemetry_filter (channels : Obj) (w : World)
  : option (DataObject -> bool) :=
  match channels with
  | ONone => Some (fun _ => true)
  | OList l => match fst (get_telemetry_predicates l w) with
               | Return ps => Some (any_of_holds ps)
               | Raise _ => None
               end
  | _ => match fst (get_telemetry_predicate channels ONone ONone w) with
         | Return p => Some (holds (predicate_of p))
         | Raise _ => None
         end
  end.

(** The same for a count await on events. *)
Definition event_filter (events : Obj) (w : World)
  : option (DataObject -> bool) :=
  match events with
  | ONone => Some (fun _ => true)
  | OList l => match fst (get_event_predicates l w) with
               | Return ps => Some (any_of_holds ps)
               | Raise _ => None
               end
  | _ => match fst (get_event_predicate events ONone ONone w) with
         | Return p => Some (holds (predicate_of p))
         | Raise _ => None
         end
  end.


(* ================================================================== *)
(** * Proofs *)

(** ** The world: setters, ghost logs, arrivals *)

Lemma HistRef_eqb_refl (r : HistRef) : HistRef_eqb r r = true.
Proof. destruct r; simpl; auto using Nat.eqb_refl. Qed.

Lemma HistRef_eqb_eq (a b : HistRef) : HistRef_eqb a b = true -> a = b.
Proof.
  destruct a, b; simpl; intros H; try discriminate; try reflexivity.
  apply Nat.eqb_eq in H. now subst.
Qed.

Lemma log_tested_nil (w : World) : log_tested [] w = w.
Proof. destruct w; unfold log_tested; simpl. now rewrite app_nil_r. Qed.

Lemma log_tested_app (a b : list (nat * DataObject)) (w : World) :
  log_tested b (log_tested a w) = log_tested (a ++ b) w.
Proof. unfold log_tested; simpl. now rewrite app_assoc. Qed.

Lemma set_history_same (r : HistRef) (h : History) (w : World) :
  histories (set_history r h w) r = h.
Proof. simpl. now rewrite HistRef_eqb_refl. Qed.

Lemma arrive_histories (r : HistRef) (t : Tick) :
  forall w, histories (arrive t w) r = receive r t (histories w r).
Proof.
  induction t as [|[r' d] t IH]; intros w; simpl; [reflexivity|].
  rewrite IH. simpl.
  destruct (HistRef_eqb r r') eqn:E; [|reflexivity].
  apply HistRef_eqb_eq in E. now subst.
Qed.

Lemma arrive_frame (t : Tick) :
  forall w, latest_time (arrive t w) = latest_time w
            /\ pipeline (arrive t w) = pipeline w
            /\ sigalrm_handler (arrive t w) = sigalrm_handler w
            /\ alarm (arrive t w) = alarm w
            /\ feed (arrive t w) = feed w
            /\ calls (arrive t w) = calls w
            /\ tested (arrive t w) = tested w.
Proof.
  induction t as [|[r' d] t IH]; intros w; simpl; [tauto|].
  destruct (IH (set_history r' (append_object d (histories w r')) w))
    as (A & B & C & D & E & F & G).
  now rewrite A, B, C, D, E, F, G.
Qed.

Lemma cancel_alarm_frame (c : bool) (w : World) :
  histories (cancel_alarm c w) = histories w
  /\ latest_time (cancel_alarm c w) = latest_time w
  /\ pipeline (cancel_alarm c w) = pipeline w
  /\ sigalrm_handler (cancel_alarm c w) = sigalrm_handler w
  /\ feed (cancel_alarm c w) = feed w
  /\ calls (cancel_alarm c w) = calls w
  /\ tested (cancel_alarm c w) = tested w.
Proof. destruct c; simpl; tauto. Qed.

(** ** The loops over a batch of records, in closed form *)

Lemma for_item_scan (c : pred_class) (p : predicate) (items : list DataObject) :
  forall w, for_item (OPredicate c p) items w
            = (Return (fst (item_scan p items)),
               log_tested (snd (item_scan p items)) w).
Proof.
  induction items as [|x items IH]; intros w; simpl.
  - unfold ret. now rewrite log_tested_nil.
  - unfold bind, test. destruct (holds p x); simpl; [reflexivity|].
    rewrite IH. destruct (item_scan p items) as [o t]; simpl.
    now rewrite log_tested_app.
Qed.

Lemma for_sequence_scan (cancel : bool) (items : list DataObject) :
  forall seq_preds sequence w,
    seq_preds <> [] ->
    for_sequence (if cancel then signal_alarm 0 else ret tt)
                 seq_preds sequence items w
    = (Return (fst (sequence_scan seq_preds sequence items)),
       match fst (sequence_scan seq_preds sequence items) with
       | inr _ => cancel_alarm cancel
       | inl _ => fun w' => w'
       end (log_tested (snd (sequence_scan seq_preds sequence items)) w)).
Proof.
  induction items as [|x items IH]; intros ps sq w Hps; simpl.
  - unfold ret. now rewrite log_tested_nil.
  - destruct ps as [|p ps]; [congruence|].
    unfold bind at 1. unfold test. destruct (holds p x).
    + destruct ps as [|q ps].
      * simpl. destruct cancel; reflexivity.
      * rewrite IH by discriminate.
        destruct (sequence_scan (q :: ps) (sq ++ [x]) items) as [o t]; simpl.
        rewrite log_tested_app. reflexivity.
    + rewrite IH by discriminate.
      destruct (sequence_scan (p :: ps) sq items) as [o t]; simpl.
      rewrite log_tested_app. reflexivity.
Qed.

Lemma for_count_scan (cp sp : predicate) (items : list DataObject) :
  forall objs w,
    for_count cp sp objs items w
    = (Return (fst (count_scan cp sp objs items)),
       match fst (count_scan cp sp objs items) with
       | inr _ => cancel_alarm true
       | inl _ => fun w' => w'
       end (log_tested (snd (count_scan cp sp objs items)) w)).
Proof.
  induction items as [|x items IH]; intros objs w; simpl.
  - unfold ret. now rewrite log_tested_nil.
  - unfold bind at 1. unfold test. destruct (holds sp x).
    + destruct (holds_len cp (objs ++ [x])).
      * reflexivity.
      * rewrite IH.
        destruct (count_scan cp sp (objs ++ [x]) items) as [o t]; simpl.
        rewrite log_tested_app. reflexivity.
    + rewrite IH.
      destruct (count_scan cp sp objs items) as [o t]; simpl.
      rewrite log_tested_app. reflexivity.
Qed.

Lemma for_count_initial_filter (sp : predicate) (items : list DataObject) :
  forall objs w,
    for_count_initial sp objs items w
    = (Return (objs ++ filter (holds sp) items),
       log_tested (map (pair 0%nat) items) w).
Proof.
  induction items as [|x items IH]; intros objs w; simpl.
  - unfold ret. now rewrite log_tested_nil, app_nil_r.
  - unfold bind at 1. unfold test. destruct (holds sp x); rewrite IH.
    + rewrite log_tested_app, <- app_assoc. reflexivity.
    + rewrite log_tested_app. reflexivity.
Qed.

(** ** Polling: the loop over the batches *)

Section Polling.
Variables St Res : Type.
Variable r : HistRef.
Variable loop : St -> list DataObject -> M (St + Res).
Variable scan : St -> list DataObject -> (St + Res) * list (nat * DataObject).
Variable cancel : bool.
Variable inv : St -> Prop.

Hypothesis loop_scan : forall s items w,
    inv s ->
    loop s items w
    = (Return (fst (scan s items)),
       match fst (scan s items) with
       | inr _ => cancel_alarm cancel
       | inl _ => fun w' => w'
       end (log_tested (snd (scan s items)) w)).

Hypothesis scan_inv : forall s items s',
    inv s -> fst (scan s items) = inl s' -> inv s'.

Hypothesis scan_app : forall s a b,
    inv s ->
    scan s (a ++ b)
    = match fst (scan s a) with
      | inr _ => scan s a
      | inl s' => (fst (scan s' b), snd (scan s a) ++ snd (scan s' b))
      end.

Local Abbreviation body := (poll_body r loop).
Local Abbreviation polled_once := (world_polled_once r scan).

Lemma body_scan (s : St) (w : World) :
  inv s ->
  body s w
  = (Return (fst (scan s (fst (retrieve_new (histories w r))))),
     match fst (scan s (fst (retrieve_new (histories w r)))) with
     | inr _ => cancel_alarm cancel
     | inl _ => fun w' => w'
     end (polled_once s w)).
Proof.
  intros Hs. unfold poll_body, world_polled_once, bind, history_retrieve_new.
  now rewrite loop_scan.
Qed.

Lemma while_true_nil (s : St) (w : World) :
  inv s ->
  while_true body s [] w
  = match fst (scan s (fst (retrieve_new (histories w r)))) with
    | inr a => (Return (inr a), cancel_alarm cancel (polled_once s w))
    | inl s' => (Return (inl s'), sleep_expired (polled_once s w))
    end.
Proof.
  intros Hs. cbn [while_true]. rewrite body_scan by assumption.
  destruct (fst (scan s (fst (retrieve_new (histories w r))))); reflexivity.
Qed.

Lemma while_true_cons (s : St) (t : Tick) (fd : list Tick) (w : World) :
  inv s ->
  while_true body s (t :: fd) w
  = match fst (scan s (fst (retrieve_new (histories w r)))) with
    | inr a => (Return (inr a), cancel_alarm cancel (polled_once s w))
    | inl s' => while_true body s' fd (sleep_arrivals t fd (polled_once s w))
    end.
Proof.
  intros Hs. cbn [while_true]. rewrite body_scan by assumption.
  destruct (fst (scan s (fst (retrieve_new (histories w r))))); reflexivity.
Qed.

Lemma polled_once_history (s : St) (w : World) :
  histories (polled_once s w) r = snd (retrieve_new (histories w r)).
Proof. unfold world_polled_once. simpl. now rewrite HistRef_eqb_refl. Qed.

Lemma sleep_arrivals_history (t : Tick) (fd : list Tick) (s : St) (w : World) :
  histories (sleep_arrivals t fd (polled_once s w)) r
  = receive r t (snd (retrieve_new (histories w r))).
Proof.
  unfold sleep_arrivals. rewrite arrive_histories.
  change (histories (set_feed fd (polled_once s w)) r)
    with (histories (polled_once s w) r).
  now rewrite polled_once_history.
Qed.

(** The value the loop yields and the records it tests are those of one
    scan over the concatenated batches. *)
Lemma polling_scan (fd : list Tick) :
  forall s w,
    inv s ->
    fst (while_true body s fd w)
    = Return (fst (scan s (concat (polled r (histories w r) fd))))
    /\ tested (snd (while_true body s fd w))
       = tested w ++ snd (scan s (concat (polled r (histories w r) fd))).
Proof.
  induction fd as [|t fd IH]; intros s w Hs.
  - rewrite while_true_nil by assumption. cbn [polled concat].
    rewrite app_nil_r. unfold world_polled_once.
    destruct (scan s (fst (retrieve_new (histories w r)))) as [[s'|a] t0];
      cbn [fst snd].
    + split; reflexivity.
    + split; [reflexivity|]. destruct cancel; reflexivity.
  - rewrite while_true_cons by assumption. cbn [polled concat].
    rewrite scan_app by assumption.
    destruct (fst (scan s (fst (retrieve_new (histories w r))))) as [s'|a] eqn:E.
    + destruct (IH s' (sleep_arrivals t fd (polled_once s w))
                   (scan_inv _ _ _ Hs E)) as [V T].
      rewrite sleep_arrivals_history in V, T.
      split; [exact V|].
      rewrite T. cbn [snd].
      unfold sleep_arrivals.
      destruct (arrive_frame t (set_feed fd (polled_once s w)))
        as (_ & _ & _ & _ & _ & _ & T').
      rewrite T'. unfold world_polled_once. cbn [tested set_feed log_tested log_call].
      now rewrite app_assoc.
    + split; [now rewrite E|].
      unfold world_polled_once. cbn [snd]. destruct cancel; reflexivity.
Qed.

(** What the loop leaves of the rest of the world: the alarm is
    cancelled on a return exactly when the loop cancels it, and has
    expired on a timeout; the history calls are polls. *)
Lemma polling_frame (fd : list Tick) :
  forall s w,
    inv s ->
    latest_time (snd (while_true body s fd w)) = latest_time w
    /\ pipeline (snd (while_true body s fd w)) = pipeline w
    /\ sigalrm_handler (snd (while_true body s fd w)) = sigalrm_handler w
    /\ alarm (snd (while_true body s fd w))
       = match fst (scan s (concat (polled r (histories w r) fd))) with
         | inr _ => if cancel then 0 else alarm w
         | inl _ => 0
         end
    /\ exists n, calls (snd (while_true body s fd w))
                 = calls w ++ repeat (call_retrieve_new r) (S n).
Proof.
  induction fd as [|t fd IH]; intros s w Hs.
  - rewrite while_true_nil by assumption. cbn [polled concat].
    rewrite app_nil_r. unfold world_polled_once.
    destruct (scan s (fst (retrieve_new (histories w r)))) as [[s'|a] t0];
      cbn [fst snd].
    + repeat split; try reflexivity. exists 0%nat. reflexivity.
    + destruct cancel; repeat split; try reflexivity;
        exists 0%nat; reflexivity.
  - rewrite while_true_cons by assumption. cbn [polled concat].
    rewrite scan_app by assumption.
    destruct (fst (scan s (fst (retrieve_new (histories w r))))) as [s'|a] eqn:E.
    + destruct (IH s' (sleep_arrivals t fd (polled_once s w))
                   (scan_inv _ _ _ Hs E)) as (L & P & H & Al & n & C).
      rewrite sleep_arrivals_history in Al.
      unfold sleep_arrivals in L, P, H, Al, C.
      destruct (arrive_frame t (set_feed fd (polled_once s w)))
        as (L' & P' & H' & A' & _ & C' & _).
      rewrite L' in L. rewrite P' in P. rewrite H' in H.
      rewrite A' in Al. rewrite C' in C.
      unfold sleep_arrivals.
      repeat split; try assumption.
      exists (S n). rewrite C. unfold world_polled_once.
      cbn [calls set_feed log_tested log_call].
      rewrite <- app_assoc. reflexivity.
    + rewrite E. unfold world_polled_once. cbn [fst snd].
      destruct cancel; repeat split; try reflexivity;
        exists 0%nat; reflexivity.
Qed.

(** The loop sleeps no longer than it must: it returns during the first
    poll at which the records polled so far make the scan return, and
    leaves the ticks after it in the feed. *)
Lemma polling_prompt (fd : list Tick) :
  forall s w,
    inv s ->
    feed w = fd ->
    match fst (scan s (concat (polled r (histories w r) fd))) with
    | inr _ =>
        exists k,
        (k <= length fd)%nat
        /\ feed (snd (while_true body s fd w)) = skipn k fd
        /\ (exists a, fst (scan s (concat (polled r (histories w r) (firstn k fd))))
                      = inr a)
        /\ (forall j, (j < k)%nat ->
                      exists s', fst (scan s (concat (polled r (histories w r)
                                                             (firstn j fd))))
                                 = inl s')
    | inl _ => feed (snd (while_true body s fd w)) = []
    end.
Proof.
  induction fd as [|t fd IH]; intros s w Hs Hfd.
  - rewrite while_true_nil by assumption. cbn [polled concat].
    rewrite app_nil_r. unfold world_polled_once.
    destruct (scan s (fst (retrieve_new (histories w r)))) as [[s'|a] t0] eqn:E;
      cbn [fst snd].
    + exact Hfd.
    + exists 0%nat. repeat split.
      * reflexivity.
      * destruct cancel; exact Hfd.
      * exists a. cbn [firstn polled concat]. rewrite app_nil_r, E. reflexivity.
      * intros j Hj. lia.
  - rewrite while_true_cons by assumption. cbn [polled concat].
    rewrite scan_app by assumption.
    destruct (fst (scan s (fst (retrieve_new (histories w r))))) as [s'|a] eqn:E.
    + cbn [fst].
      assert (Hfeed : feed (sleep_arrivals t fd (polled_once s w)) = fd).
      { unfold sleep_arrivals.
        destruct (arrive_frame t (set_feed fd (polled_once s w)))
          as (_ & _ & _ & _ & F & _ & _).
        rewrite F. reflexivity. }
      specialize (IH s' (sleep_arrivals t fd (polled_once s w))
                     (scan_inv _ _ _ Hs E) Hfeed).
      rewrite sleep_arrivals_history in IH.
      destruct (fst (scan s' (concat (polled r (receive r t
                   (snd (retrieve_new (histories w r)))) fd)))) as [s''|a].
      * exact IH.
      * destruct IH as (k & Hk & Hf & (a' & Ha) & Hl).
        exists (S k). repeat split.
        -- simpl. lia.
        -- exact Hf.
        -- exists a'. cbn [firstn polled concat].
           rewrite scan_app by assumption. rewrite E. exact Ha.
        -- intros [|j] Hj.
           ++ exists s'. cbn [firstn polled concat]. now rewrite app_nil_r.
           ++ destruct (Hl j ltac:(lia)) as [s'' Hs''].
              exists s''. cbn [firstn polled concat].
              rewrite scan_app by assumption. rewrite E. exact Hs''.
    + rewrite E. exists 0%nat. repeat split.
      * lia.
      * cbn [snd skipn]. unfold world_polled_once. destruct cancel; exact Hfd.
      * exists a. cbn [firstn polled concat]. now rewrite app_nil_r.
      * intros j Hj. lia.
Qed.
End Polling.

(** ** The item search *)

Lemma item_scan_app (p : predicate) (a b : list DataObject) :
  item_scan p (a ++ b)
  = match fst (item_scan p a) with
    | inr _ => item_scan p a
    | inl _ => (fst (item_scan p b), snd (item_scan p a) ++ snd (item_scan p b))
    end.
Proof.
  induction a as [|x a IH]; simpl.
  - destruct (item_scan p b); reflexivity.
  - destruct (holds p x); [reflexivity|].
    rewrite IH. destruct (item_scan p a) as [[u|y] t]; simpl; [|reflexivity].
    destruct (item_scan p b); reflexivity.
Qed.

Lemma item_scan_find (p : predicate) (items : list DataObject) :
  fst (item_scan p items)
  = match find (holds p) items with
    | Some item => inr item
    | None => inl tt
    end.
Proof.
  induction items as [|x items IH]; simpl; [reflexivity|].
  destruct (holds p x); [reflexivity|].
  destruct (item_scan p items); simpl in *. exact IH.
Qed.

(** The records the item scan tests are the records up to and including
    the first match. *)
Lemma item_scan_tested (p : predicate) (items : list DataObject) :
  exists rest,
    items = map snd (snd (item_scan p items)) ++ rest
    /\ (rest = [] \/ exists item, fst (item_scan p items) = inr item).
Proof.
  induction items as [|x items IH]; simpl.
  - exists []. auto.
  - destruct (holds p x).
    + exists items. simpl. eauto.
    + destruct IH as (rest & E & H).
      destruct (item_scan p items) as [o t]; simpl in *.
      exists rest. split; [now f_equal|assumption].
Qed.

Lemma find_history_item_run (c : pred_class) (p : predicate) (r : HistRef)
      (start : Cursor) (timeout : Z) (w : World) :
  find_history_item (OPredicate c p) (OHistory r) start timeout w
  = let w1 := log_tested (snd (item_scan p (current r start w)))
                         (initial_world r start w) in
    match fst (item_scan p (current r start w)) with
    | inr item => (Return (Some item), w1)
    | inl _ =>
        if timeout =? 0 then (Return None, w1)
        else
          let res := while_true
                       (poll_body r (fun (_ : unit) items =>
                                       for_item (OPredicate c p) items))
                       tt (feed w)
                       (set_alarm timeout (set_sigalrm_handler true w1)) in
          (match fst res with
           | Return (inr item) => Return (Some item)
           | Return (inl _) => Return None
           | Raise e => Raise e
           end, snd res)
    end.
Proof.
  unfold find_history_item, current, initial_world, polling, poll_body.
  destruct start; cbn [resolved method_size method_retrieve method_retrieve_new];
    unfold bind, ret, history_size, history_retrieve, signal_signal_SIGALRM,
      signal_alarm;
    rewrite for_item_scan; cbn [log_call histories].
  all: match goal with
       | |- context [item_scan ?q ?l] => destruct (item_scan q l) as [[u|item] t]
       end; cbn [fst snd]; try reflexivity.
  all: destruct (timeout =? 0); cbn [negb]; try reflexivity.
  all: cbn [feed set_alarm set_sigalrm_handler log_tested log_call].
  all: match goal with
       | |- context [while_true ?b ?s ?f ?w'] =>
           destruct (while_true b s f w') as [[[u'|item]|e] w'']
       end; reflexivity.
Qed.

(** ** The sequence search *)

Lemma skipn_cons_nth_error {X : Type} (k : nat) :
  forall (l : list X) (x : X) (rest : list X),
    skipn k l = x :: rest ->
    nth_error l k = Some x /\ skipn (S k) l = rest.
Proof.
  induction k as [|k IH]; intros [|y l] x rest H; simpl in *; try discriminate.
  - inversion H. auto.
  - apply IH in H. exact H.
Qed.

Lemma sequence_scan_app (a : list DataObject) :
  forall ps sq b,
    ps <> [] ->
    sequence_scan ps sq (a ++ b)
    = match fst (sequence_scan ps sq a) with
      | inr _ => sequence_scan ps sq a
      | inl st => (fst (sequence_scan (fst st) (snd st) b),
                   snd (sequence_scan ps sq a)
                   ++ snd (sequence_scan (fst st) (snd st) b))
      end.
Proof.
  induction a as [|x a IH]; intros ps sq b Hps; simpl.
  - destruct (sequence_scan ps sq b); reflexivity.
  - destruct ps as [|p ps]; [congruence|].
    destruct (holds p x).
    + destruct ps as [|q ps]; [reflexivity|].
      rewrite IH by discriminate.
      destruct (sequence_scan (q :: ps) (sq ++ [x]) a) as [[st|y] t]; simpl;
        [|reflexivity].
      destruct (sequence_scan (fst st) (snd st) b); reflexivity.
    + rewrite IH by discriminate.
      destruct (sequence_scan (p :: ps) sq a) as [[st|y] t]; simpl;
        [|reflexivity].
      destruct (sequence_scan (fst st) (snd st) b); reflexivity.
Qed.

Lemma sequence_scan_inv (items : list DataObject) :
  forall ps sq st,
    ps <> [] ->
    fst (sequence_scan ps sq items) = inl st ->
    fst st <> [].
Proof.
  induction items as [|x items IH]; intros ps sq st Hps; simpl.
  - intros H. inversion H. exact Hps.
  - destruct ps as [|p ps]; [congruence|].
    destruct (holds p x).
    + destruct ps as [|q ps]; [discriminate|].
      specialize (IH (q :: ps) (sq ++ [x]) st).
      destruct (sequence_scan (q :: ps) (sq ++ [x]) items); simpl in *.
      apply IH. discriminate.
    + specialize (IH (p :: ps) sq st).
      destruct (sequence_scan (p :: ps) sq items); simpl in *.
      apply IH. discriminate.
Qed.

(** The scan with the remaining predicates [skipn k preds] is a strict
    single pass over [preds] from the pointer [k], and computes the
    greedy match. *)
Lemma sequence_scan_single_pass (preds : list predicate) (items : list DataObject) :
  forall k sq,
    length sq = k ->
    skipn k preds <> [] ->
    exists m rest,
      sequence_of (fst (sequence_scan (skipn k preds) sq items)) = sq ++ m
      /\ single_pass preds k (snd (sequence_scan (skipn k preds) sq items)) m
      /\ sq ++ m = greedy_match preds k sq items
      /\ items = map snd (snd (sequence_scan (skipn k preds) sq items)) ++ rest
      /\ match fst (sequence_scan (skipn k preds) sq items) with
         | inr _ => length (sq ++ m) = length preds
         | inl _ => rest = [] /\ (length (sq ++ m) < length preds)%nat
         end.
Proof.
  induction items as [|x items IH]; intros k sq Hk Hps.
  - exists [], []. simpl. rewrite app_nil_r.
    repeat split; try constructor.
    assert (L := length_skipn k preds).
    destruct (skipn k preds); [congruence|]. simpl in L. lia.
  - simpl. destruct (skipn k preds) as [|p ps] eqn:E; [congruence|].
    destruct (skipn_cons_nth_error _ _ _ _ E) as [Hn Hs].
    rewrite Hn.
    destruct (holds p x) eqn:Hp.
    + destruct ps as [|q ps].
      * exists [x], items. simpl.
        assert (L := length_skipn k preds). rewrite E in L. simpl in L.
        repeat split.
        -- rewrite Hk. eapply sp_match; eauto. constructor.
        -- assert (N : nth_error preds (S k) = None).
           { apply nth_error_None. lia. }
           destruct items; cbn [greedy_match]; [reflexivity|]. now rewrite N.
        -- rewrite length_app. simpl. lia.
      * assert (Hs' : skipn (S k) preds <> []) by (rewrite Hs; discriminate).
        destruct (IH (S k) (sq ++ [x])
                     ltac:(rewrite length_app; simpl; lia) Hs')
          as (m & rest & A & B & C & D & F).
        rewrite Hs in A, B, D, F.
        destruct (sequence_scan (q :: ps) (sq ++ [x]) items) as [o t].
        simpl in *. exists (x :: m), rest.
        rewrite <- app_assoc in A, C, F. simpl in A, C, F.
        repeat split; try assumption.
        -- rewrite Hk. eapply sp_match; eauto.
        -- now f_equal.
    + destruct (IH k sq Hk ltac:(rewrite E; discriminate))
        as (m & rest & A & B & C & D & F).
      rewrite E in A, B, D, F.
      destruct (sequence_scan (p :: ps) sq items) as [o t].
      simpl in *. exists m, rest.
      repeat split; try assumption.
      -- rewrite Hk. eapply sp_skip; eauto.
      -- now f_equal.
Qed.

Lemma find_history_sequence_run (ps : list predicate) (r : HistRef)
      (start : Cursor) (timeout : Z) (w : World) :
  ps <> [] ->
  find_history_sequence ps r start timeout w
  = let sc := sequence_scan ps [] (current r start w) in
    let w1 := log_tested (snd sc) (initial_world r start w) in
    match fst sc with
    | inr sequence => (Return sequence, w1)
    | inl st =>
        if timeout =? 0 then (Return (snd st), w1)
        else
          let res := while_true
                       (poll_body r (fun st items =>
                                       for_sequence (signal_alarm 0)
                                                    (fst st) (snd st) items))
                       st (feed w)
                       (set_alarm timeout (set_sigalrm_handler true w1)) in
          (match fst res with
           | Return o => Return (sequence_of o)
           | Raise e => Raise e
           end, snd res)
    end.
Proof.
  intros Hps.
  unfold find_history_sequence, current, initial_world, polling, poll_body.
  destruct ps as [|p0 ps0]; [congruence|].
  destruct start; cbn [resolved resolve_start];
    unfold bind, ret, history_size, history_retrieve, signal_signal_SIGALRM,
      signal_alarm;
    rewrite (for_sequence_scan false) by discriminate; cbn [log_call histories].
  all: match goal with
       | |- context [sequence_scan ?a ?b ?l] =>
           destruct (sequence_scan a b l) as [[[ps' sq']|sq'] t]
       end; cbn [fst snd cancel_alarm]; try reflexivity.
  all: destruct (timeout =? 0); cbn [negb]; try reflexivity.
  all: cbn [feed set_alarm set_sigalrm_handler log_tested log_call].
  all: match goal with
       | |- context [while_true ?b ?s ?f ?w'] =>
           destruct (while_true b s f w') as [[[[ps'' sq'']|sq'']|e] w'']
       end; reflexivity.
Qed.

Lemma initial_world_frame (r : HistRef) (start : Cursor) (w : World) :
  histories (initial_world r start w) = histories w
  /\ latest_time (initial_world r start w) = latest_time w
  /\ pipeline (initial_world r start w) = pipeline w
  /\ sigalrm_handler (initial_world r start w) = sigalrm_handler w
  /\ alarm (initial_world r start w) = alarm w
  /\ feed (initial_world r start w) = feed w
  /\ tested (initial_world r start w) = tested w
  /\ calls (initial_world r start w) = calls w ++ initial_calls r start w.
Proof.
  unfold initial_world, initial_calls.
  destruct start; cbn; repeat split; try reflexivity.
  now rewrite <- app_assoc.
Qed.


(** ** The count search *)

Lemma count_scan_app (cp sp : predicate) (a : list DataObject) :
  forall objs b,
    count_scan cp sp objs (a ++ b)
    = match fst (count_scan cp sp objs a) with
      | inr _ => count_scan cp sp objs a
      | inl objs' => (fst (count_scan cp sp objs' b),
                      snd (count_scan cp sp objs a)
                      ++ snd (count_scan cp sp objs' b))
      end.
Proof.
  induction a as [|x a IH]; intros objs b; simpl.
  - destruct (count_scan cp sp objs b); reflexivity.
  - destruct (holds sp x).
    + destruct (holds_len cp (objs ++ [x])); [reflexivity|].
      rewrite IH.
      destruct (count_scan cp sp (objs ++ [x]) a) as [[o|o] t]; simpl;
        [|reflexivity].
      destruct (count_scan cp sp o b); reflexivity.
    + rewrite IH.
      destruct (count_scan cp sp objs a) as [[o|o] t]; simpl; [|reflexivity].
      destruct (count_scan cp sp o b); reflexivity.
Qed.

(** The scan accumulates as [count_until] does; it returns exactly when
    the count predicate comes to hold, and otherwise has tested every
    record. *)
Lemma count_scan_until (cp sp : predicate) (items : list DataObject) :
  forall objs,
    objects_of (fst (count_scan cp sp objs items)) = count_until cp sp objs items
    /\ match fst (count_scan cp sp objs items) with
       | inr o => holds_len cp o = true
       | inl o => (holds_len cp objs = false -> holds_len cp o = false)
                  /\ map snd (snd (count_scan cp sp objs items)) = items
       end.
Proof.
  induction items as [|x items IH]; intros objs; simpl.
  - auto.
  - destruct (holds sp x).
    + destruct (holds_len cp (objs ++ [x])) eqn:E; [simpl; auto|].
      destruct (IH (objs ++ [x])) as [A B].
      destruct (count_scan cp sp (objs ++ [x]) items) as [[o|o] t]; simpl in *.
      * split; [exact A|]. destruct B as [B1 B2]. split; [auto|now f_equal].
      * auto.
    + destruct (IH objs) as [A B].
      destruct (count_scan cp sp objs items) as [[o|o] t]; simpl in *.
      * split; [exact A|]. destruct B as [B1 B2]. split; [auto|now f_equal].
      * auto.
Qed.


Lemma filter_always_true (items : list DataObject) :
  filter (holds always_true) items = items.
Proof. induction items; simpl; [reflexivity|now f_equal]. Qed.

Lemma find_history_count_run (count : Obj) (cp : predicate) (r : HistRef)
      (search_pred : option predicate) (start : Cursor) (timeout : Z)
      (w : World) :
  count_predicate_of count = Some cp ->
  find_history_count count r search_pred start timeout w
  = let sp := item_predicate_of search_pred in
    let objs := filter (holds sp) (current r start w) in
    let w1 := log_tested (match search_pred with
                          | Some _ => map (pair 0%nat) (current r start w)
                          | None => []
                          end) (initial_world r start w) in
    if holds_len cp objs then (Return objs, w1)
    else if timeout =? 0 then (Return objs, w1)
         else
           let res := while_true
                        (poll_body r (fun objs items =>
                                        for_count cp sp objs items))
                        objs (feed w)
                        (set_alarm timeout (set_sigalrm_handler true w1)) in
           (match fst res with
            | Return o => Return (objects_of o)
            | Raise e => Raise e
            end, snd res).
Proof.
  intros Hc.
  assert (Hcp : match count with
                | OPredicate _ p => ret p
                | OScalar (SInt _) => ret (equal_to count)
                | _ => raise TypeError
                end = (ret cp : M predicate)).
  { destruct count as [|[z|s]|l|c p|h]; simpl in Hc; try discriminate;
      now inversion Hc. }
  unfold find_history_count. rewrite Hcp.
  unfold current, initial_world, polling, poll_body.
  destruct search_pred as [sp|]; cbn [item_predicate_of];
    destruct start; cbn [resolved resolve_start];
    unfold bind, ret, history_size, history_retrieve, signal_signal_SIGALRM,
      signal_alarm;
    try rewrite for_count_initial_filter;
    try rewrite filter_always_true;
    cbn [log_call histories fst snd app].
  all: match goal with
       | |- context [holds_len ?a ?l] => destruct (holds_len a l)
       end; try rewrite log_tested_nil; try reflexivity.
  all: destruct (timeout =? 0); cbn [negb]; try rewrite log_tested_nil;
    try reflexivity.
  all: cbn [feed set_alarm set_sigalrm_handler log_tested log_call].
  all: try rewrite app_nil_r.
  all: match goal with
       | |- context [while_true ?b ?s ?f ?w'] =>
           destruct (while_true b s f w') as [[[o|o]|e] w'']
       end; reflexivity.
Qed.

(** ** The three polling loops *)

Lemma item_polling (c : pred_class) (p : predicate) (r : HistRef) (w : World) :
  let res := while_true (poll_body r (fun (_ : unit) items =>
                                        for_item (OPredicate c p) items))
                        tt (feed w) w in
  let new := polled r (histories w r) in
  (fst res = Return (fst (item_scan p (concat (new (feed w)))))
   /\ tested (snd res) = tested w ++ snd (item_scan p (concat (new (feed w)))))
  /\ (latest_time (snd res) = latest_time w
      /\ pipeline (snd res) = pipeline w
      /\ sigalrm_handler (snd res) = sigalrm_handler w
      /\ alarm (snd res)
         = match fst (item_scan p (concat (new (feed w)))) with
           | inr _ => alarm w
           | inl _ => 0
           end
      /\ exists n, calls (snd res)
                   = calls w ++ repeat (call_retrieve_new r) (S n))
  /\ match fst (item_scan p (concat (new (feed w)))) with
     | inr _ =>
         exists k,
         (k <= length (feed w))%nat
         /\ feed (snd res) = skipn k (feed w)
         /\ (exists a, fst (item_scan p (concat (new (firstn k (feed w))))) = inr a)
         /\ (forall j, (j < k)%nat ->
                       exists s', fst (item_scan p (concat (new (firstn j (feed w)))))
                                  = inl s')
     | inl _ => feed (snd res) = []
     end.
Proof.
  assert (L : forall (s : unit) items w',
             True ->
             for_item (OPredicate c p) items w'
             = (Return (fst (item_scan p items)),
                match fst (item_scan p items) with
                | inr _ => cancel_alarm false
                | inl _ => fun w'' => w''
                end (log_tested (snd (item_scan p items)) w'))).
  { intros _ items w' _. rewrite for_item_scan.
    destruct (fst (item_scan p items)); reflexivity. }
  assert (A : forall (s : unit) a b,
             True ->
             item_scan p (a ++ b)
             = match fst (item_scan p a) with
               | inr _ => item_scan p a
               | inl _ => (fst (item_scan p b),
                           snd (item_scan p a) ++ snd (item_scan p b))
               end).
  { intros _ a b _. apply item_scan_app. }
  cbv zeta. split; [|split].
  - exact (polling_scan unit DataObject r _ (fun _ items => item_scan p items)
                        false (fun _ => True) L (fun _ _ _ _ _ => I) A
                        (feed w) tt w I).
  - exact (polling_frame unit DataObject r _ (fun _ items => item_scan p items)
                         false (fun _ => True) L (fun _ _ _ _ _ => I) A
                         (feed w) tt w I).
  - exact (polling_prompt unit DataObject r _ (fun _ items => item_scan p items)
                          false (fun _ => True) L (fun _ _ _ _ _ => I) A
                          (feed w) tt w I eq_refl).
Qed.

Lemma sequence_polling (r : HistRef) (st : list predicate * list DataObject)
      (w : World) :
  fst st <> [] ->
  let res := while_true (poll_body r (fun st items =>
                                        for_sequence (signal_alarm 0)
                                                     (fst st) (snd st) items))
                        st (feed w) w in
  let new := polled r (histories w r) in
  let scan := fun st items => sequence_scan (fst st) (snd st) items in
  (fst res = Return (fst (scan st (concat (new (feed w)))))
   /\ tested (snd res) = tested w ++ snd (scan st (concat (new (feed w)))))
  /\ (latest_time (snd res) = latest_time w
      /\ pipeline (snd res) = pipeline w
      /\ sigalrm_handler (snd res) = sigalrm_handler w
      /\ alarm (snd res) = 0
      /\ exists n, calls (snd res)
                   = calls w ++ repeat (call_retrieve_new r) (S n))
  /\ match fst (scan st (concat (new (feed w)))) with
     | inr _ =>
         exists k,
         (k <= length (feed w))%nat
         /\ feed (snd res) = skipn k (feed w)
         /\ (exists a, fst (scan st (concat (new (firstn k (feed w))))) = inr a)
         /\ (forall j, (j < k)%nat ->
                       exists s', fst (scan st (concat (new (firstn j (feed w)))))
                                  = inl s')
     | inl _ => feed (snd res) = []
     end.
Proof.
  intros Hst.
  pose (loop := fun (st : list predicate * list DataObject) items =>
                  for_sequence (signal_alarm 0) (fst st) (snd st) items).
  pose (scan := fun (st : list predicate * list DataObject) items =>
                  sequence_scan (fst st) (snd st) items).
  pose (inv := fun st : list predicate * list DataObject => fst st <> []).
  assert (L : forall s items w',
             inv s ->
             loop s items w'
             = (Return (fst (scan s items)),
                match fst (scan s items) with
                | inr _ => cancel_alarm true
                | inl _ => fun w'' => w''
                end (log_tested (snd (scan s items)) w'))).
  { intros s items w' Hs. exact (for_sequence_scan true items _ _ w' Hs). }
  assert (V : forall s items s', inv s -> fst (scan s items) = inl s' -> inv s').
  { intros s items s' Hs. apply sequence_scan_inv. exact Hs. }
  assert (A : forall s a b,
             inv s ->
             scan s (a ++ b)
             = match fst (scan s a) with
               | inr _ => scan s a
               | inl s' => (fst (scan s' b), snd (scan s a) ++ snd (scan s' b))
               end).
  { intros s a b Hs. apply sequence_scan_app. exact Hs. }
  cbv zeta. split; [|split].
  - exact (polling_scan _ _ r loop scan true inv L V A (feed w) st w Hst).
  - destruct (polling_frame _ _ r loop scan true inv L V A (feed w) st w Hst)
      as (F1 & F2 & F3 & F4 & F5).
    repeat split; try assumption.
    etransitivity; [exact F4|]. destruct (fst (scan st _)); reflexivity.
  - exact (polling_prompt _ _ r loop scan true inv L V A (feed w) st w Hst eq_refl).
Qed.

Lemma count_polling (cp sp : predicate) (r : HistRef) (objs : list DataObject)
      (w : World) :
  let res := while_true (poll_body r (fun objs items =>
                                        for_count cp sp objs items))
                        objs (feed w) w in
  let new := polled r (histories w r) in
  (fst res = Return (fst (count_scan cp sp objs (concat (new (feed w)))))
   /\ tested (snd res)
      = tested w ++ snd (count_scan cp sp objs (concat (new (feed w)))))
  /\ (latest_time (snd res) = latest_time w
      /\ pipeline (snd res) = pipeline w
      /\ sigalrm_handler (snd res) = sigalrm_handler w
      /\ alarm (snd res) = 0
      /\ exists n, calls (snd res)
                   = calls w ++ repeat (call_retrieve_new r) (S n))
  /\ match fst (count_scan cp sp objs (concat (new (feed w)))) with
     | inr _ =>
         exists k,
         (k <= length (feed w))%nat
         /\ feed (snd res) = skipn k (feed w)
         /\ (exists a, fst (count_scan cp sp objs
                                       (concat (new (firstn k (feed w))))) = inr a)
         /\ (forall j, (j < k)%nat ->
                       exists s', fst (count_scan cp sp objs
                                                  (concat (new (firstn j (feed w)))))
                                  = inl s')
     | inl _ => feed (snd res) = []
     end.
Proof.
  assert (L : forall s items w',
             True ->
             for_count cp sp s items w'
             = (Return (fst (count_scan cp sp s items)),
                match fst (count_scan cp sp s items) with
                | inr _ => cancel_alarm true
                | inl _ => fun w'' => w''
                end (log_tested (snd (count_scan cp sp s items)) w'))).
  { intros s items w' _. apply for_count_scan. }
  assert (A : forall s a b,
             True ->
             count_scan cp sp s (a ++ b)
             = match fst (count_scan cp sp s a) with
               | inr _ => count_scan cp sp s a
               | inl s' => (fst (count_scan cp sp s' b),
                            snd (count_scan cp sp s a)
                            ++ snd (count_scan cp sp s' b))
               end).
  { intros s a b _. apply count_scan_app. }
  cbv zeta. split; [|split].
  - exact (polling_scan _ _ r _ (count_scan cp sp) true (fun _ => True)
                        L (fun _ _ _ _ _ => I) A (feed w) objs w I).
  - destruct (polling_frame _ _ r _ (count_scan cp sp) true (fun _ => True)
                            L (fun _ _ _ _ _ => I) A (feed w) objs w I)
      as (F1 & F2 & F3 & F4 & F5).
    repeat split; try assumption.
    etransitivity; [exact F4|].
    destruct (fst (count_scan cp sp objs _)); reflexivity.
  - exact (polling_prompt _ _ r _ (count_scan cp sp) true (fun _ => True)
                          L (fun _ _ _ _ _ => I) A (feed w) objs w I eq_refl).
Qed.

(** ** Immediate item search *)

Lemma find_skipn_unique (p : predicate) (l : list DataObject) (n k : nat)
      (item : DataObject) :
  (n <= k)%nat ->
  nth_error l k = Some item ->
  holds p item = true ->
  (forall j other, (n <= j)%nat -> j <> k -> nth_error l j = Some other ->
                   holds p other = false) ->
  find (holds p) (skipn n l) = Some item.
Proof.
  intros Hnk Hk Hp Hu.
  destruct (find (holds p) (skipn n l)) as [x|] eqn:F.
  - apply find_some in F. destruct F as [Hin Hx].
    apply In_nth_error in Hin. destruct Hin as [j Hj].
    rewrite nth_error_skipn in Hj.
    destruct (Nat.eq_dec (n + j) k) as [E|E].
    + rewrite E in Hj. congruence.
    + rewrite (Hu (n + j)%nat x) in Hx by (assumption || lia). discriminate.
  - assert (Hin : In item (skipn n l)).
    { apply nth_error_In with (n := (k - n)%nat).
      rewrite nth_error_skipn. now replace (n + (k - n))%nat with k by lia. }
    rewrite (find_none _ _ F item Hin) in Hp. discriminate.
Qed.

Lemma find_skipn_none (p : predicate) (l : list DataObject) (n : nat) :
  (forall j other, (n <= j)%nat -> nth_error l j = Some other ->
                   holds p other = false) ->
  find (holds p) (skipn n l) = None.
Proof.
  intros Hu.
  destruct (find (holds p) (skipn n l)) as [x|] eqn:F; [|reflexivity].
  apply find_some in F. destruct F as [Hin Hx].
  apply In_nth_error in Hin. destruct Hin as [j Hj].
  rewrite nth_error_skipn in Hj.
  rewrite (Hu (n + j)%nat x) in Hx by (assumption || lia). discriminate.
Qed.

Lemma item_search_immediate_run (c : pred_class) (p : predicate)
      (r : HistRef) (start : Cursor) (w : World) :
  find_history_item (OPredicate c p) (OHistory r) start 0 w
  = (Return (find (holds p) (current r start w)),
     log_tested (snd (item_scan p (current r start w))) (initial_world r start w)).
Proof.
  rewrite find_history_item_run. cbv zeta.
  pose proof (item_scan_find p (current r start w)) as F.
  destruct (fst (item_scan p (current r start w)));
    destruct (find (holds p) (current r start w)); try discriminate;
    cbn [Z.eqb]; congruence.
Qed.

(** C3.  Immediate item search from a literal start index [i]: the result
    is the first record of [history.retrieve(i)], scanned in order, that
    satisfies the predicate.  Hence, when exactly one record at an index
    [k >= i] satisfies the predicate, that record is returned, and when
    no record at an index [>= i] satisfies it, [None] is returned. *)
Theorem find_history_item_immediate
        (c : pred_class) (p : predicate) (r : HistRef) (i : Z) (w : World) :
  fst (find_history_item (OPredicate c p) (OHistory r) (index i) 0 w)
  = Return (find (holds p) (retrieve (Some i) (histories w r)))
  /\ (forall k item,
         i <= Z.of_nat k ->
         nth_error (objects (histories w r)) k = Some item ->
         holds p item = true ->
         (forall j other,
             i <= Z.of_nat j -> j <> k ->
             nth_error (objects (histories w r)) j = Some other ->
             holds p other = false) ->
         fst (find_history_item (OPredicate c p) (OHistory r) (index i) 0 w)
         = Return (Some item))
  /\ ((forall j other,
          i <= Z.of_nat j ->
          nth_error (objects (histories w r)) j = Some other ->
          holds p other = false) ->
      fst (find_history_item (OPredicate c p) (OHistory r) (index i) 0 w)
      = Return None).
Proof.
  rewrite item_search_immediate_run. cbn [fst].
  unfold current, resolved, retrieve.
  split; [reflexivity|split].
  - intros k item Hik Hk Hp Hu. f_equal.
    apply find_skipn_unique with (k := k); try assumption; try lia.
    intros j other Hj Hne. apply Hu; [lia|assumption].
  - intros Hu. f_equal. apply find_skipn_none.
    intros j other Hj. apply Hu. lia.
Qed.

(** In [world_abc] only [rec_b], at index 1, satisfies [P1], and the
    identifier 9 occurs nowhere. *)
Lemma find_history_item_immediate_witness :
  fst (find_history_item (OPredicate plain_predicate P1)
                         (OHistory telemetry_history) (index 0) 0 world_abc)
  = Return (Some rec_b)
  /\ fst (find_history_item
            (OPredicate plain_predicate
                        (telemetry_predicate
                           (OPredicate plain_predicate (equal_to (OScalar (SInt 9))))
                           ONone ONone))
            (OHistory telemetry_history) (index 1) 0 world_abc)
     = Return None.
Proof.
  split.
  - apply (proj1 (proj2 (find_history_item_immediate
                           plain_predicate P1 telemetry_history 0 world_abc))
             1%nat rec_b).
    + simpl. lia.
    + reflexivity.
    + reflexivity.
    + intros [|[|[|j]]] other Hj Hne Hn; simpl in Hn; try congruence;
        try (inversion Hn; reflexivity).
      destruct j; discriminate.
  - apply (proj2 (proj2 (find_history_item_immediate
                           plain_predicate _ telemetry_history 1 world_abc))).
    intros [|[|[|j]]] other Hj Hn; simpl in Hn;
      try (inversion Hn; reflexivity).
    destruct j; discriminate.
Defined.

(** ** What the searches leave of the world *)

Lemma immediate_frame_initial (r : HistRef) (start : Cursor) (w : World)
      (t : list (nat * DataObject)) :
  immediate_frame r start w (log_tested t (initial_world r start w)).
Proof.
  destruct (initial_world_frame r start w) as (A & _ & _ & B & C & D & _ & E).
  unfold immediate_frame. cbn [histories sigalrm_handler alarm feed calls log_tested].
  auto.
Qed.

Lemma initial_calls_no_poll (r r' : HistRef) (start : Cursor) (w : World) :
  ~ In (call_retrieve_new r') (initial_calls r start w).
Proof.
  unfold initial_calls. destruct start; simpl; intros H;
    repeat (destruct H as [H|H]; try discriminate); exact H.
Qed.

(** The alarm after an item search: untouched when the initial scan
    decides or no timeout is given, expired when the polling times out,
    and still pending with the full timeout when the polling finds the
    record. *)
Lemma find_history_item_world (c : pred_class) (p : predicate) (r : HistRef)
      (start : Cursor) (timeout : Z) (w : World) :
  let res := find_history_item (OPredicate c p) (OHistory r) start timeout w in
  let new := concat (polled r (histories w r) (feed w)) in
  (exists more, calls (snd res) = calls w ++ initial_calls r start w ++ more)
  /\ latest_time (snd res) = latest_time w
  /\ alarm (snd res)
     = match find (holds p) (current r start w) with
       | Some _ => alarm w
       | None =>
           if timeout =? 0 then alarm w
           else match find (holds p) new with
                | Some _ => timeout
                | None => 0
                end
       end
  /\ fst res
     = Return match find (holds p) (current r start w) with
              | Some item => Some item
              | None => if timeout =? 0 then None else find (holds p) new
              end.
Proof.
  cbv zeta. rewrite find_history_item_run. cbv zeta.
  destruct (initial_world_frame r start w) as (Hh & Hl & _ & _ & Ha & Hf & _ & Hc).
  pose proof (item_scan_find p (current r start w)) as F.
  destruct (find (holds p) (current r start w)) as [x|];
    destruct (fst (item_scan p (current r start w))) as [u|y]; try discriminate.
  - inversion F; subst.
    cbn [fst snd calls latest_time alarm log_tested].
    rewrite Hc, Hl, Ha. repeat split. exists []. now rewrite app_nil_r.
  - destruct (timeout =? 0).
    + cbn [fst snd calls latest_time alarm log_tested].
      rewrite Hc, Hl, Ha. repeat split. exists []. now rewrite app_nil_r.
    + match goal with
      | |- context [while_true _ tt (feed w) ?w2] =>
          pose proof (item_polling c p r w2) as P; set (w2' := w2) in *
      end.
      cbv zeta in P.
      change (feed w2') with (feed (initial_world r start w)) in P.
      change (histories w2' r) with (histories (initial_world r start w) r) in P.
      change (calls w2') with (calls (initial_world r start w)) in P.
      change (latest_time w2') with (latest_time (initial_world r start w)) in P.
      change (alarm w2') with timeout in P.
      rewrite Hf, Hh, Hc, Hl in P.
      destruct P as ((V & _) & (L & _ & _ & A & n & C) & _).
      cbn [fst snd]. rewrite V, L, A, C.
      pose proof (item_scan_find p (concat (polled r (histories w r) (feed w)))) as F'.
      destruct (find (holds p) (concat (polled r (histories w r) (feed w))));
        rewrite F'; repeat split;
        exists (repeat (call_retrieve_new r) (S n)); now rewrite app_assoc.
Qed.

Lemma find_history_sequence_nil (r : HistRef) (start : Cursor) (timeout : Z)
      (w : World) :
  find_history_sequence [] r start timeout w = (Return [], initial_world r start w).
Proof.
  unfold find_history_sequence, initial_world. destruct start; reflexivity.
Qed.

(** The alarm after a sequence search: untouched when the search does not
    poll, and not pending when it does, whether it returns or times
    out. *)
Lemma find_history_sequence_world (ps : list predicate) (r : HistRef)
      (start : Cursor) (timeout : Z) (w : World) :
  let res := find_history_sequence ps r start timeout w in
  (exists more, calls (snd res) = calls w ++ initial_calls r start w ++ more)
  /\ latest_time (snd res) = latest_time w
  /\ alarm (snd res)
     = match ps, fst (sequence_scan ps [] (current r start w)) with
       | [], _ => alarm w
       | _, inr _ => alarm w
       | _, inl _ => if timeout =? 0 then alarm w else 0
       end.
Proof.
  cbv zeta.
  destruct (initial_world_frame r start w) as (Hh & Hl & _ & _ & Ha & Hf & _ & Hc).
  destruct ps as [|p0 ps0].
  - rewrite find_history_sequence_nil. cbn [snd]. rewrite Hc, Hl, Ha.
    repeat split. exists []. now rewrite app_nil_r.
  - assert (Hps : p0 :: ps0 <> []) by discriminate.
    rewrite find_history_sequence_run by assumption. cbv zeta.
    destruct (fst (sequence_scan (p0 :: ps0) [] (current r start w)))
      as [st|sq] eqn:E.
    + destruct (timeout =? 0).
      * cbn [fst snd calls latest_time alarm log_tested].
        rewrite Hc, Hl, Ha. repeat split. exists []. now rewrite app_nil_r.
      * match goal with
        | |- context [while_true _ st (feed w) ?w2] =>
            pose proof (sequence_polling r st w2
                          (sequence_scan_inv _ _ _ _ Hps E)) as P;
              set (w2' := w2) in *
        end.
        cbv zeta in P.
        change (feed w2') with (feed (initial_world r start w)) in P.
        change (calls w2') with (calls (initial_world r start w)) in P.
        change (latest_time w2') with (latest_time (initial_world r start w)) in P.
        rewrite Hf, Hc, Hl in P.
        destruct P as (_ & (L & _ & _ & A & n & C) & _).
        cbn [fst snd]. rewrite L, A, C. repeat split.
        exists (repeat (call_retrieve_new r) (S n)). now rewrite app_assoc.
    + cbn [fst snd calls latest_time alarm log_tested].
      rewrite Hc, Hl, Ha. repeat split. exists []. now rewrite app_nil_r.
Qed.

(** The count search as one accumulation over the records it meets, and
    the world it leaves. *)
Lemma find_history_count_world (count : Obj) (cp : predicate) (r : HistRef)
      (search_pred : option predicate) (start : Cursor) (timeout : Z)
      (w : World) :
  count_predicate_of count = Some cp ->
  let res := find_history_count count r search_pred start timeout w in
  let sp := item_predicate_of search_pred in
  let init := filter (holds sp) (current r start w) in
  let new := polled r (histories w r) in
  (exists more, calls (snd res) = calls w ++ initial_calls r start w ++ more)
  /\ latest_time (snd res) = latest_time w
  /\ (if holds_len cp init || (timeout =? 0)
      then fst res = Return init /\ immediate_frame r start w (snd res)
      else fst res = Return (count_until cp sp init (concat (new (feed w))))
           /\ alarm (snd res) = 0
           /\ match fst (count_scan cp sp init (concat (new (feed w)))) with
              | inr _ =>
                  exists k,
                  (k <= length (feed w))%nat
                  /\ feed (snd res) = skipn k (feed w)
                  /\ (exists a, fst (count_scan cp sp init
                                       (concat (new (firstn k (feed w))))) = inr a)
                  /\ (forall j, (j < k)%nat ->
                                exists s', fst (count_scan cp sp init
                                                  (concat (new (firstn j (feed w)))))
                                           = inl s')
              | inl _ => feed (snd res) = []
              end).
Proof.
  intros Hcount. cbv zeta.
  rewrite (find_history_count_run count cp) by assumption. cbv zeta.
  destruct (initial_world_frame r start w) as (Hh & Hl & _ & _ & Ha & Hf & _ & Hc).
  destruct (holds_len cp (filter (holds (item_predicate_of search_pred))
                                 (current r start w))) eqn:E.
  - cbn [orb fst snd calls latest_time log_tested]. rewrite Hc, Hl.
    repeat split; try apply immediate_frame_initial.
    exists []. now rewrite app_nil_r.
  - cbn [orb]. destruct (timeout =? 0).
    + cbn [fst snd calls latest_time log_tested]. rewrite Hc, Hl.
      repeat split; try apply immediate_frame_initial.
      exists []. now rewrite app_nil_r.
    + match goal with
      | |- context [while_true _ ?o (feed w) ?w2] =>
          pose proof (count_polling cp (item_predicate_of search_pred) r o w2) as P;
            set (w2' := w2) in *
      end.
      cbv zeta in P.
      change (feed w2') with (feed (initial_world r start w)) in P.
      change (histories w2' r) with (histories (initial_world r start w) r) in P.
      change (calls w2') with (calls (initial_world r start w)) in P.
      change (latest_time w2') with (latest_time (initial_world r start w)) in P.
      rewrite Hf, Hh, Hc, Hl in P.
      destruct P as ((V & _) & (L & _ & _ & A & n & C) & Pr).
      cbn [fst snd]. rewrite V, L, A, C.
      destruct (count_scan_until cp (item_predicate_of search_pred)
                  (concat (polled r (histories w r) (feed w)))
                  (filter (holds (item_predicate_of search_pred))
                          (current r start w))) as [U _].
      rewrite U. repeat split; try exact Pr.
      exists (repeat (call_retrieve_new r) (S n)). now rewrite app_assoc.
Qed.

(** ** Immediate mode *)

Lemma greedy_match_nil (acc items : list DataObject) (k : nat) :
  greedy_match [] k acc items = acc.
Proof. destruct items; simpl; [reflexivity|]. now destruct k. Qed.

Lemma find_history_sequence_immediate_run (ps : list predicate) (r : HistRef)
      (start : Cursor) (w : World) :
  exists t,
    find_history_sequence ps r start 0 w
    = (Return (greedy_match ps 0 [] (current r start w)),
       log_tested t (initial_world r start w)).
Proof.
  destruct ps as [|p0 ps0].
  - exists []. rewrite find_history_sequence_nil, greedy_match_nil, log_tested_nil.
    reflexivity.
  - assert (Hps : p0 :: ps0 <> []) by discriminate.
    exists (snd (sequence_scan (p0 :: ps0) [] (current r start w))).
    rewrite find_history_sequence_run by assumption. cbv zeta.
    destruct (sequence_scan_single_pass (p0 :: ps0) (current r start w) 0 []
                                        eq_refl Hps)
      as (m & rest & A & _ & C & _).
    cbn [skipn app] in A, C. rewrite <- C, <- A.
    destruct (fst (sequence_scan (p0 :: ps0) [] (current r start w))) as [[ps' sq]|sq];
      reflexivity.
Qed.

(** C5.  With [timeout == 0] none of the three searches polls or touches
    the timer: each returns the result of its initial scan (the first
    match or [None]; the greedy match over the initial records, possibly
    partial; the records counted in the initial scan, whether the count
    is right or not), the only history calls it makes are those of the
    cursor resolution and the initial [retrieve], and the signal handler,
    the alarm, the feed of coming arrivals and the histories are as
    before.  A count that is neither a predicate nor an integer raises
    the usage error and leaves the world as it is. *)
Theorem immediate_mode_never_polls
        (c : pred_class) (p : predicate) (ps : list predicate) (count : Obj)
        (search_pred : option predicate) (r : HistRef) (start : Cursor)
        (w : World) :
  (fst (find_history_item (OPredicate c p) (OHistory r) start 0 w)
   = Return (find (holds p) (current r start w))
   /\ immediate_frame r start w
        (snd (find_history_item (OPredicate c p) (OHistory r) start 0 w)))
  /\ (fst (find_history_sequence ps r start 0 w)
      = Return (greedy_match ps 0 [] (current r start w))
      /\ immediate_frame r start w (snd (find_history_sequence ps r start 0 w)))
  /\ match count_predicate_of count with
     | Some _ =>
         fst (find_history_count count r search_pred start 0 w)
         = Return (filter (holds (item_predicate_of search_pred))
                          (current r start w))
         /\ immediate_frame r start w
              (snd (find_history_count count r search_pred start 0 w))
     | None =>
         find_history_count count r search_pred start 0 w = (Raise TypeError, w)
     end
  /\ forall r', ~ In (call_retrieve_new r') (initial_calls r start w).
Proof.
  split; [|split; [|split]].
  - rewrite item_search_immediate_run. cbn [fst snd].
    split; [reflexivity|apply immediate_frame_initial].
  - destruct (find_history_sequence_immediate_run ps r start w) as [t E].
    rewrite E. cbn [fst snd]. split; [reflexivity|apply immediate_frame_initial].
  - destruct (count_predicate_of count) as [cp|] eqn:E.
    + destruct (find_history_count_world count cp r search_pred start 0 w E)
        as (_ & _ & H).
      cbn [Z.eqb] in H. rewrite orb_true_r in H. exact H.
    + unfold find_history_count.
      destruct count as [|[z|s]|l|c' p'|h]; simpl in E; try discriminate;
        reflexivity.
  - intros r'. apply initial_calls_no_poll.
Qed.

(** C6.  With an empty list of predicates the sequence search returns the
    empty list whatever the history holds, the start cursor and the
    timeout: no record is handed to a predicate, the search does not
    poll, and nothing of the world changes except that the cursor
    resolution and the initial [retrieve] are logged as calls (the
    snapshot is fetched and never looked at). *)
Theorem find_history_sequence_empty
        (r : HistRef) (start : Cursor) (timeout : Z) (w : World) :
  fst (find_history_sequence [] r start timeout w) = Return []
  /\ tested (snd (find_history_sequence [] r start timeout w)) = tested w
  /\ immediate_frame r start w (snd (find_history_sequence [] r start timeout w))
  /\ forall r', ~ In (call_retrieve_new r') (initial_calls r start w).
Proof.
  rewrite find_history_sequence_nil. cbn [fst snd].
  destruct (initial_world_frame r start w) as (_ & _ & _ & _ & _ & _ & T & _).
  split; [reflexivity|split; [exact T|split]].
  - rewrite <- (log_tested_nil (initial_world r start w)).
    apply immediate_frame_initial.
  - intros r'. apply initial_calls_no_poll.
Qed.

(** ** The count argument *)

Lemma count_predicate_of_None (count : Obj) :
  count_predicate_of count = None
  <-> is_predicate count = false /\ is_int count = false.
Proof.
  destruct count as [|[z|s]|l|c p|h]; simpl; split; intros H;
    try discriminate; try tauto; destruct H; discriminate.
Qed.

(** C7.  A count that is neither a predicate nor an integer makes
    [find_history_count] raise [TypeError] at once: the world is exactly
    as before, so no [size], [retrieve] or [retrieve_new] call was made,
    no record was tested and the timer was not touched.  A count that is
    a predicate or an integer raises nothing: the search returns a
    list. *)
Theorem find_history_count_type_check
        (count : Obj) (r : HistRef) (search_pred : option predicate)
        (start : Cursor) (timeout : Z) (w : World) :
  (is_predicate count = false -> is_int count = false ->
   find_history_count count r search_pred start timeout w = (Raise TypeError, w))
  /\ (is_predicate count = true \/ is_int count = true ->
      exists objects,
        fst (find_history_count count r search_pred start timeout w)
        = Return objects).
Proof.
  split.
  - intros Hp Hi. unfold find_history_count.
    destruct count as [|[z|s]|l|c p|h]; simpl in Hp, Hi; try discriminate;
      reflexivity.
  - intros H.
    destruct (count_predicate_of count) as [cp|] eqn:E.
    + destruct (find_history_count_world count cp r search_pred start timeout w E)
        as (_ & _ & V).
      destruct (holds_len cp _ || (timeout =? 0)).
      * destruct V as [V _]. eauto.
      * destruct V as [V _]. eauto.
    + apply count_predicate_of_None in E. destruct E as [E1 E2].
      destruct H; congruence.
Qed.

(** A string for a count is refused; the integer 3 counts the three
    records of [world_abc]. *)
Lemma find_history_count_type_check_witness :
  find_history_count (OScalar (SStr "three")) telemetry_history None
                     start_None 5 world_abc
  = (Raise TypeError, world_abc)
  /\ exists objects,
      fst (find_history_count (OScalar (SInt 3)) telemetry_history None
                              start_None 5 world_abc)
      = Return objects.
Proof.
  split.
  - apply (proj1 (find_history_count_type_check
                    (OScalar (SStr "three")) telemetry_history None
                    start_None 5 world_abc)); reflexivity.
  - apply (proj2 (find_history_count_type_check
                    (OScalar (SInt 3)) telemetry_history None
                    start_None 5 world_abc)).
    right. reflexivity.
Defined.

(** ** Early exit of the count search *)




(** ** The start cursor *)

Lemma find_history_count_invalid (count : Obj) (r : HistRef)
      (search_pred : option predicate) (start : Cursor) (timeout : Z)
      (w : World) :
  count_predicate_of count = None ->
  find_history_count count r search_pred start timeout w = (Raise TypeError, w).
Proof.
  intros E. unfold find_history_count.
  destruct count as [|[z|s]|l|c p|h]; simpl in E; try discriminate; reflexivity.
Qed.





(** ** The facade *)

Lemma find_history_item_on_predicate (search_pred : Obj) (c : pred_class)
      (p : predicate) (start : Cursor) (timeout : Z) (w : World) :
  find_history_item search_pred (OPredicate c p) start timeout w
  = (Raise AttributeError, w).
Proof. unfold find_history_item. destruct start; reflexivity. Qed.

Lemma get_telemetry_predicate_returns (channel value time_pred : Obj) (w : World) :
  (exists c p, get_telemetry_predicate channel value time_pred w
               = (Return (OPredicate c p), w))
  \/ (exists e, get_telemetry_predicate channel value time_pred w = (Raise e, w)
                /\ (e = KeyError \/ e = TypeError)).
Proof.
  unfold get_telemetry_predicate, translate_telemetry_name, lookup_other,
    get_pipeline, bind, ret, raise.
  destruct channel as [|[z|s]|l|[| |] p|h]; cbn;
    try (left; eexists; eexists; reflexivity);
    try (right; eexists; split; [reflexivity|tauto]).
  - destruct (channel_id_dictionary (pipeline w) z);
      [left; eexists; eexists; reflexivity
      |right; eexists; split; [reflexivity|tauto]].
  - destruct (channel_name_dictionary (pipeline w) s);
      [left; eexists; eexists; reflexivity
      |right; eexists; split; [reflexivity|tauto]].
Qed.

Lemma get_event_predicate_returns (event args time_pred : Obj) (w : World) :
  (exists c p, get_event_predicate event args time_pred w
               = (Return (OPredicate c p), w))
  \/ (exists e, get_event_predicate event args time_pred w = (Raise e, w)
                /\ (e = KeyError \/ e = TypeError)).
Proof.
  unfold get_event_predicate, translate_event_name, lookup_other,
    get_pipeline, bind, ret, raise.
  destruct event as [|[z|s]|l|[| |] p|h]; cbn;
    try (left; eexists; eexists; reflexivity);
    try (right; eexists; split; [reflexivity|tauto]).
  - destruct (event_id_dictionary (pipeline w) z);
      [left; eexists; eexists; reflexivity
      |right; eexists; split; [reflexivity|tauto]].
  - destruct (event_name_dictionary (pipeline w) s);
      [left; eexists; eexists; reflexivity
      |right; eexists; split; [reflexivity|tauto]].
Qed.

(** Whatever it is given, [await_telemetry] raises and leaves the world
    as it is: when the specifier translates, the item search runs with
    the predicate in the place of the history. *)
Lemma await_telemetry_always_raises (channel value time_pred history : Obj)
      (start : Cursor) (timeout : Z) (w : World) :
  exists e, await_telemetry channel value time_pred history start timeout w
            = (Raise e, w).
Proof.
  unfold await_telemetry, bind.
  destruct (get_telemetry_predicate_returns channel value time_pred w)
    as [(c & p & E)|(e & E & _)]; rewrite E.
  - rewrite find_history_item_on_predicate. eauto.
  - eauto.
Qed.

Lemma await_event_always_raises (event args time_pred history : Obj)
      (start : Cursor) (timeout : Z) (w : World) :
  exists e, await_event event args time_pred history start timeout w
            = (Raise e, w).
Proof.
  unfold await_event, bind.
  destruct (get_event_predicate_returns event args time_pred w)
    as [(c & p & E)|(e & E & _)]; rewrite E.
  - rewrite find_history_item_on_predicate. eauto.
  - eauto.
Qed.

(** C1.  [await_telemetry] with the channel identifier 2, the test-owned
    telemetry history, the start of the history and no timeout, in
    [world_abc], where [rec_b] is the one record with that identifier:
    the facade builds the kind predicate, but calls the item search with
    the history as the search predicate and the predicate as the history,
    so the call raises [AttributeError]; the item search given that
    predicate and that history in the order of its parameters returns
    [rec_b].  The same holds with the defaults (["NOW"], five seconds)
    and of [await_event]. *)
Theorem await_telemetry_swaps_arguments :
  fst (get_telemetry_predicate (OScalar (SInt 2)) ONone ONone world_abc)
  = Return (OPredicate telemetry_predicate_class P1)
  /\ fst (find_history_item (OPredicate telemetry_predicate_class P1)
                            (OHistory telemetry_history) start_None 0 world_abc)
     = Return (Some rec_b)
  /\ fst (await_telemetry (OScalar (SInt 2)) ONone ONone ONone start_None 0
                          world_abc)
     = Raise AttributeError
  /\ fst (await_telemetry (OScalar (SInt 2)) ONone ONone ONone NOW 5 world_abc)
     = Raise AttributeError
  /\ fst (await_event (OScalar (SInt 2)) ONone ONone
                      (OHistory telemetry_history) start_None 0 world_abc)
     = Raise AttributeError.
Proof. repeat split; reflexivity. Qed.

(** ** The alarm left behind *)

(** C2.  The item search for [P1] from ["NOW"] with a timeout of five
    seconds in [world_awaiting]: [rec_b] arrives during the second sleep,
    the search returns it from inside the polling loop, and the alarm of
    five seconds is still pending on return.  The sequence search and the
    count search for the same record in the same world return it with no
    alarm pending. *)
Theorem find_history_item_leaves_alarm_pending :
  fst (find_history_item (OPredicate plain_predicate P1)
                         (OHistory telemetry_history) NOW 5 world_awaiting)
  = Return (Some rec_b)
  /\ alarm (snd (find_history_item (OPredicate plain_predicate P1)
                                   (OHistory telemetry_history) NOW 5
                                   world_awaiting))
     = 5
  /\ fst (find_history_sequence [P1] telemetry_history NOW 5 world_awaiting)
     = Return [rec_b]
  /\ alarm (snd (find_history_sequence [P1] telemetry_history NOW 5
                                       world_awaiting))
     = 0
  /\ fst (find_history_count (OScalar (SInt 1)) telemetry_history (Some P1)
                             NOW 5 world_awaiting)
     = Return [rec_b]
  /\ alarm (snd (find_history_count (OScalar (SInt 1)) telemetry_history
                                    (Some P1) NOW 5 world_awaiting))
     = 0.
Proof. repeat split; reflexivity. Qed.

(** In general: an item search that finds its record while polling
    returns with the alarm pending for the whole timeout, whereas the
    sequence and count searches never leave an alarm they armed. *)
Lemma find_history_item_pending (c : pred_class) (p : predicate) (r : HistRef)
      (start : Cursor) (timeout : Z) (w : World) (item : DataObject) :
  find (holds p) (current r start w) = None ->
  timeout <> 0 ->
  find (holds p) (concat (polled r (histories w r) (feed w))) = Some item ->
  fst (find_history_item (OPredicate c p) (OHistory r) start timeout w)
  = Return (Some item)
  /\ alarm (snd (find_history_item (OPredicate c p) (OHistory r) start timeout w))
     = timeout.
Proof.
  intros H0 Ht H1.
  destruct (find_history_item_world c p r start timeout w) as (_ & _ & A & V).
  apply Z.eqb_neq in Ht. rewrite H0, Ht, H1 in A, V. auto.
Qed.

Lemma find_history_sequence_cancels (ps : list predicate) (r : HistRef)
      (start : Cursor) (timeout : Z) (w : World) :
  alarm w = 0 ->
  alarm (snd (find_history_sequence ps r start timeout w)) = 0.
Proof.
  intros H0.
  destruct (find_history_sequence_world ps r start timeout w) as (_ & _ & A).
  rewrite A, H0. destruct ps; [reflexivity|].
  destruct (fst (sequence_scan _ _ _)); [|reflexivity].
  destruct (timeout =? 0); reflexivity.
Qed.

Lemma find_history_count_cancels (count : Obj) (r : HistRef)
      (search_pred : option predicate) (start : Cursor) (timeout : Z)
      (w : World) :
  alarm w = 0 ->
  alarm (snd (find_history_count count r search_pred start timeout w)) = 0.
Proof.
  intros H0.
  destruct (count_predicate_of count) as [cp|] eqn:E.
  - destruct (find_history_count_world count cp r search_pred start timeout w E)
      as (_ & _ & H).
    destruct (holds_len cp _ || (timeout =? 0)).
    + destruct H as (_ & _ & _ & A & _). congruence.
    + tauto.
  - rewrite find_history_count_invalid by assumption. exact H0.
Qed.

(** ** The latest time *)

Lemma keeps_ret {A : Type} (a : A) : keeps_latest_time (ret a).
Proof. intros w. reflexivity. Qed.

Lemma keeps_raise {A : Type} (e : exn) : keeps_latest_time (@raise A e).
Proof. intros w. reflexivity. Qed.

Lemma keeps_bind {A B : Type} (m : M A) (k : A -> M B) :
  keeps_latest_time m ->
  (forall a, keeps_latest_time (k a)) ->
  keeps_latest_time (bind m k).
Proof.
  intros Hm Hk w. unfold bind. specialize (Hm w).
  destruct (m w) as [[a|e] w']; simpl in *.
  - now rewrite Hk.
  - exact Hm.
Qed.

Lemma keeps_history_size (r : HistRef) : keeps_latest_time (history_size r).
Proof. intros w. reflexivity. Qed.

Lemma keeps_history_retrieve (r : HistRef) (start : option Z) :
  keeps_latest_time (history_retrieve r start).
Proof. intros w. reflexivity. Qed.

Lemma keeps_history_retrieve_new (r : HistRef) :
  keeps_latest_time (history_retrieve_new r).
Proof. intros w. reflexivity. Qed.

Lemma keeps_history_clear (r : HistRef) (start : option predicate) :
  keeps_latest_time (history_clear r start).
Proof. intros w. reflexivity. Qed.

Lemma keeps_method_size (o : Obj) : keeps_latest_time (method_size o).
Proof. destruct o; intros w; reflexivity. Qed.

Lemma keeps_method_retrieve (o : Obj) (start : option Z) :
  keeps_latest_time (method_retrieve o start).
Proof. destruct o; intros w; reflexivity. Qed.

Lemma keeps_method_retrieve_new (o : Obj) :
  keeps_latest_time (method_retrieve_new o).
Proof. destruct o; intros w; reflexivity. Qed.

Lemma keeps_test (pos : nat) (p : predicate) (item : DataObject) :
  keeps_latest_time (test pos p item).
Proof. intros w. reflexivity. Qed.

Lemma keeps_call (o : Obj) (item : DataObject) : keeps_latest_time (call o item).
Proof. destruct o; intros w; reflexivity. Qed.

Lemma keeps_signal_signal : keeps_latest_time signal_signal_SIGALRM.
Proof. intros w. reflexivity. Qed.

Lemma keeps_signal_alarm (t : Z) : keeps_latest_time (signal_alarm t).
Proof. intros w. reflexivity. Qed.

Lemma keeps_resolve_start (r : HistRef) (start : Cursor) :
  keeps_latest_time (resolve_start r start).
Proof. destruct start; intros w; reflexivity. Qed.

Create HintDb keeps.

#[local] Hint Resolve keeps_ret keeps_raise keeps_history_size
  keeps_history_retrieve keeps_history_retrieve_new keeps_history_clear
  keeps_method_size keeps_method_retrieve keeps_method_retrieve_new
  keeps_test keeps_call keeps_signal_signal keeps_signal_alarm
  keeps_resolve_start : keeps.

Ltac keeps :=
  repeat (first
            [ solve [auto with keeps]
            | apply keeps_bind; [|intros ?]
            | match goal with
              | |- keeps_latest_time (if ?b then _ else _) => destruct b
              | |- keeps_latest_time (match ?x with _ => _ end) => destruct x
              end ]).

Lemma keeps_while_true {St Res : Type} (body : St -> M (St + Res)) :
  (forall s, keeps_latest_time (body s)) ->
  forall fd s, keeps_latest_time (while_true body s fd).
Proof.
  intros Hb fd. induction fd as [|t fd IH]; intros s w; simpl;
    specialize (Hb s w); destruct (body s w) as [[[s'|a]|e] w']; simpl in *;
    try exact Hb.
  rewrite IH. unfold sleep_arrivals.
  destruct (arrive_frame t (set_feed fd w')) as [L _]. rewrite L. exact Hb.
Qed.

Lemma keeps_polling {St Res : Type} (body : St -> M (St + Res)) (s : St) :
  (forall s, keeps_latest_time (body s)) ->
  keeps_latest_time (polling body s).
Proof. intros Hb w. unfold polling. now apply keeps_while_true. Qed.

Lemma keeps_for_item (search_pred : Obj) (items : list DataObject) :
  keeps_latest_time (for_item search_pred items).
Proof. induction items as [|x items IH]; simpl; keeps. Qed.

Lemma keeps_for_sequence (before_return : M unit) (items : list DataObject) :
  keeps_latest_time before_return ->
  forall seq_preds sequence,
    keeps_latest_time (for_sequence before_return seq_preds sequence items).
Proof.
  intros Hb. induction items as [|x items IH]; intros ps sq; simpl; keeps.
Qed.

Lemma keeps_for_count_initial (sp : predicate) (items : list DataObject) :
  forall objs, keeps_latest_time (for_count_initial sp objs items).
Proof. induction items as [|x items IH]; intros objs; simpl; keeps. Qed.

Lemma keeps_for_count (cp sp : predicate) (items : list DataObject) :
  forall objs, keeps_latest_time (for_count cp sp objs items).
Proof. induction items as [|x items IH]; intros objs; simpl; keeps. Qed.

#[local] Hint Resolve keeps_for_item keeps_for_sequence keeps_for_count_initial
  keeps_for_count : keeps.

Lemma keeps_find_history_item (search_pred history : Obj) (start : Cursor)
      (timeout : Z) :
  keeps_latest_time (find_history_item search_pred history start timeout).
Proof. unfold find_history_item. keeps. apply keeps_polling. intros s. keeps. Qed.

Lemma keeps_find_history_sequence (ps : list predicate) (r : HistRef)
      (start : Cursor) (timeout : Z) :
  keeps_latest_time (find_history_sequence ps r start timeout).
Proof.
  unfold find_history_sequence. keeps.
  apply keeps_polling. intros s. keeps.
Qed.

Lemma keeps_find_history_count (count : Obj) (r : HistRef)
      (search_pred : option predicate) (start : Cursor) (timeout : Z) :
  keeps_latest_time (find_history_count count r search_pred start timeout).
Proof.
  unfold find_history_count. keeps.
  all: apply keeps_polling; intros s; keeps.
Qed.

Lemma keeps_get_pipeline : keeps_latest_time get_pipeline.
Proof. intros w. reflexivity. Qed.

Lemma keeps_lookup_other (key : Obj) : keeps_latest_time (lookup_other key).
Proof. destruct key; intros w; reflexivity. Qed.

Lemma keeps_assert (condition : bool) : keeps_latest_time (assert condition).
Proof. destruct condition; intros w; reflexivity. Qed.

Lemma keeps_pipeline_send_command (command args : Obj) :
  keeps_latest_time (pipeline_send_command command args).
Proof. intros w. reflexivity. Qed.

#[local] Hint Resolve keeps_get_pipeline keeps_lookup_other keeps_assert
  keeps_pipeline_send_command keeps_find_history_item
  keeps_find_history_sequence keeps_find_history_count : keeps.

Lemma keeps_translate_command_name (command : Obj) :
  keeps_latest_time (translate_command_name command).
Proof. unfold translate_command_name. keeps. Qed.

Lemma keeps_translate_telemetry_name (channel : Obj) :
  keeps_latest_time (translate_telemetry_name channel).
Proof. unfold translate_telemetry_name. keeps. Qed.

Lemma keeps_translate_event_name (event : Obj) :
  keeps_latest_time (translate_event_name event).
Proof. unfold translate_event_name. keeps. Qed.

#[local] Hint Resolve keeps_translate_command_name
  keeps_translate_telemetry_name keeps_translate_event_name : keeps.

Lemma keeps_get_telemetry_predicate (channel value time_pred : Obj) :
  keeps_latest_time (get_telemetry_predicate channel value time_pred).
Proof. unfold get_telemetry_predicate. keeps. Qed.

Lemma keeps_get_event_predicate (event args time_pred : Obj) :
  keeps_latest_time (get_event_predicate event args time_pred).
Proof. unfold get_event_predicate. keeps. Qed.

#[local] Hint Resolve keeps_get_telemetry_predicate keeps_get_event_predicate
  : keeps.

Lemma keeps_get_telemetry_predicates (channels : list Obj) :
  keeps_latest_time (get_telemetry_predicates channels).
Proof. induction channels as [|c channels IH]; simpl; keeps. Qed.

Lemma keeps_get_event_predicates (events : list Obj) :
  keeps_latest_time (get_event_predicates events).
Proof. induction events as [|e events IH]; simpl; keeps. Qed.

Lemma keeps_call_find_history_sequence (seq_preds : list predicate)
      (history : Obj) (start : Cursor) (timeout : Z) :
  keeps_latest_time (call_find_history_sequence seq_preds history start timeout).
Proof. unfold call_find_history_sequence. keeps. Qed.

Lemma keeps_call_find_history_count (count history : Obj)
      (search_pred : option predicate) (start : Cursor) (timeout : Z) :
  keeps_latest_time (call_find_history_count count history search_pred
                                             start timeout).
Proof. unfold call_find_history_count. keeps. Qed.

#[local] Hint Resolve keeps_get_telemetry_predicates keeps_get_event_predicates
  keeps_call_find_history_sequence keeps_call_find_history_count : keeps.

Lemma keeps_await_telemetry (channel value time_pred history : Obj)
      (start : Cursor) (timeout : Z) :
  keeps_latest_time (await_telemetry channel value time_pred history start timeout).
Proof. unfold await_telemetry. keeps. Qed.

Lemma keeps_await_event (event args time_pred history : Obj)
      (start : Cursor) (timeout : Z) :
  keeps_latest_time (await_event event args time_pred history start timeout).
Proof. unfold await_event. keeps. Qed.

Lemma keeps_await_telemetry_sequence (channels : list Obj) (history : Obj)
      (start : Cursor) (timeout : Z) :
  keeps_latest_time (await_telemetry_sequence channels history start timeout).
Proof. unfold await_telemetry_sequence. keeps. Qed.

Lemma keeps_await_event_sequence (events : list Obj) (history : Obj)
      (start : Cursor) (timeout : Z) :
  keeps_latest_time (await_event_sequence events history start timeout).
Proof. unfold await_event_sequence. keeps. Qed.

Lemma keeps_await_telemetry_count (count channels history : Obj)
      (start : Cursor) (timeout : Z) :
  keeps_latest_time (await_telemetry_count count channels history start timeout).
Proof. unfold await_telemetry_count. keeps. Qed.

Lemma keeps_await_event_count (count events history : Obj)
      (start : Cursor) (timeout : Z) :
  keeps_latest_time (await_event_count count events history start timeout).
Proof. unfold await_event_count. keeps. Qed.

#[local] Hint Resolve keeps_await_telemetry keeps_await_event
  keeps_await_telemetry_sequence keeps_await_event_sequence
  keeps_await_telemetry_count keeps_await_event_count : keeps.

Lemma keeps_assert_telemetry (channel value time_pred history : Obj)
      (start : Cursor) (timeout : Z) :
  keeps_latest_time (assert_telemetry channel value time_pred history
                                      start timeout).
Proof. unfold assert_telemetry. keeps. Qed.

Lemma keeps_assert_event (event args time_pred history : Obj)
      (start : Cursor) (timeout : Z) :
  keeps_latest_time (assert_event event args time_pred history start timeout).
Proof. unfold assert_event. keeps. Qed.

Lemma keeps_assert_telemetry_sequence (channels : list Obj) (history : Obj)
      (start : Cursor) (timeout : Z) :
  keeps_latest_time (assert_telemetry_sequence channels history start timeout).
Proof. unfold assert_telemetry_sequence. keeps. Qed.

Lemma keeps_assert_event_sequence (events : list Obj) (history : Obj)
      (start : Cursor) (timeout : Z) :
  keeps_latest_time (assert_event_sequence events history start timeout).
Proof. unfold assert_event_sequence. keeps. Qed.

Lemma keeps_assert_telemetry_count (count channels history : Obj)
      (start : Cursor) (timeout : Z) :
  keeps_latest_time (assert_telemetry_count count channels history start timeout).
Proof. unfold assert_telemetry_count. keeps. Qed.

Lemma keeps_assert_event_count (count events history : Obj)
      (start : Cursor) (timeout : Z) :
  keeps_latest_time (assert_event_count count events history start timeout).
Proof. unfold assert_event_count. keeps. Qed.

Lemma keeps_send_command (command args : Obj) :
  keeps_latest_time (send_command command args).
Proof. unfold send_command. keeps. Qed.

Lemma keeps_assert_send_command (command args : Obj) :
  keeps_latest_time (assert_send_command command args).
Proof.
  intros w. unfold assert_send_command.
  pose proof (keeps_send_command command args w) as K.
  destruct (send_command command args w) as [[u|[]] w']; exact K.
Qed.

#[local] Hint Resolve keeps_assert_telemetry keeps_assert_event
  keeps_assert_telemetry_sequence keeps_assert_event_sequence
  keeps_assert_telemetry_count keeps_assert_event_count keeps_send_command
  keeps_assert_send_command : keeps.

Lemma keeps_send_and_await_telemetry (command args channels : Obj) (timeout : Z) :
  keeps_latest_time (send_and_await_telemetry command args channels timeout).
Proof. unfold send_and_await_telemetry. keeps. Qed.

Lemma keeps_send_and_await_event (command args events : Obj) (timeout : Z) :
  keeps_latest_time (send_and_await_event command args events timeout).
Proof. unfold send_and_await_event. keeps. Qed.

Lemma keeps_send_and_assert_telemetry (command args channels : Obj) (timeout : Z) :
  keeps_latest_time (send_and_assert_telemetry command args channels timeout).
Proof. unfold send_and_assert_telemetry. keeps. Qed.

Lemma keeps_send_and_assert_event (command args events : Obj) (timeout : Z) :
  keeps_latest_time (send_and_assert_event command args events timeout).
Proof. unfold send_and_assert_event. keeps. Qed.

Lemma keeps_clear_histories (time_stamp : option TimeType) :
  keeps_latest_time (clear_histories time_stamp).
Proof. unfold clear_histories. destruct time_stamp; keeps. Qed.

#[local] Hint Resolve keeps_send_and_await_telemetry keeps_send_and_await_event
  keeps_send_and_assert_telemetry keeps_send_and_assert_event
  keeps_clear_histories : keeps.

(** Every operation other than the time query and the start of a test
    case, which makes one, leaves the latest time alone. *)
Lemma keeps_method_of (op : Op) :
  op <> op_get_latest_fsw_time ->
  (forall name, op <> op_start_test_case name) ->
  keeps_latest_time (method_of op).
Proof.
  intros H1 H2. destruct op; cbn [method_of]; try congruence;
    try (exfalso; eapply H2; reflexivity);
    try (unfold teardown, log_test_message); keeps.
  intros w. cbn. destruct (arrive_frame t w) as [L _]. exact L.
Qed.

Lemma get_latest_fsw_time_run (w : World) :
  let latest :=
    Z.max (Z.max (last_useconds (objects (histories w aggregate_event_history)))
                 (last_useconds (objects (histories w aggregate_telemetry_history))))
          (latest_time w) in
  fst (get_latest_fsw_time w) = Return latest
  /\ latest_time (snd (get_latest_fsw_time w)) = latest.
Proof. split; reflexivity. Qed.

Lemma start_test_case_latest_time (name : string) (w : World) :
  latest_time (snd (start_test_case name w))
  = latest_time (snd (get_latest_fsw_time w)).
Proof.
  unfold start_test_case, bind at 1.
  destruct (get_latest_fsw_time w) as [[t|e] w'] eqn:E; [|reflexivity].
  cbn [snd].
  assert (K : keeps_latest_time (log_test_message name ;;; clear_histories None)).
  { apply keeps_bind; [apply keeps_ret|intros _; apply keeps_clear_histories]. }
  apply K.
Qed.

(** No operation lowers the latest time, and what a time query returns
    is the latest time it leaves. *)
Lemma run_op_latest_time (op : Op) (w : World) :
  latest_time w <= latest_time (snd (run_op op w))
  /\ forall t, fst (run_op op w) = Some t -> t = latest_time (snd (run_op op w)).
Proof.
  destruct (get_latest_fsw_time_run w) as [V L]. cbv zeta in V, L.
  destruct op;
    try (cbn [run_op fst snd];
         split; [|intros ? H; discriminate];
         rewrite keeps_method_of by (discriminate || (intros ?; discriminate));
         lia).
  - cbn [run_op fst snd method_of]. split; [|intros ? H; discriminate].
    rewrite start_test_case_latest_time, L. lia.
  - cbn [run_op].
    destruct (get_latest_fsw_time w) as [[t|e] w'] eqn:E; cbn [fst snd] in *;
      [|discriminate].
    split; [rewrite L; lia|]. intros t' H. inversion H. inversion V. congruence.
Qed.

Lemma run_latest_time (ops : list Op) :
  forall w,
    latest_time w <= latest_time (snd (run ops w))
    /\ forall t, In t (fst (run ops w)) ->
                 latest_time w <= t <= latest_time (snd (run ops w)).
Proof.
  induction ops as [|op ops IH]; intros w; cbn [run].
  - cbn. split; [lia|tauto].
  - destruct (run_op_latest_time op w) as [M R].
    destruct (run_op op w) as [o w'] eqn:E. cbn [fst snd] in M, R.
    destruct (IH w') as [M' R'].
    destruct (run ops w') as [ts w''] eqn:E'. cbn [fst snd] in *.
    split; [lia|].
    intros t Ht. destruct o as [z|].
    + destruct Ht as [Ht|Ht].
      * subst z. rewrite (R t eq_refl). lia.
      * specialize (R' t Ht). lia.
    + specialize (R' t Ht). lia.
Qed.

Lemma run_times_sorted (ops : list Op) :
  forall w, StronglySorted Z.le (fst (run ops w)).
Proof.
  induction ops as [|op ops IH]; intros w; cbn [run].
  - constructor.
  - destruct (run_op_latest_time op w) as [M R].
    destruct (run_op op w) as [o w'] eqn:E. cbn [fst snd] in M, R.
    specialize (IH w'). destruct (run_latest_time ops w') as [_ R'].
    destruct (run ops w') as [ts w''] eqn:E'. cbn [fst snd] in *.
    destruct o as [z|]; [|exact IH].
    constructor; [exact IH|].
    apply Forall_forall. intros t Ht. specialize (R' t Ht).
    rewrite (R z eq_refl). lia.
Qed.

(** C10.  [get_latest_fsw_time] returns the maximum of the microsecond
    field of the last aggregate event, that of the last aggregate channel
    update (each replaced by that of [TimeType()] when the history is
    empty) and the previous [latest_time], and stores it in
    [latest_time].  No operation on the instance, and nothing its
    surroundings do, lowers [latest_time]; so along any run of
    operations the values returned by the time queries are in
    non-decreasing order, each at least the [latest_time] the run started
    with and at most the one it ends with. *)
Theorem latest_time_monotone :
  (forall w,
      let latest :=
        Z.max (Z.max (last_useconds (objects (histories w aggregate_event_history)))
                     (last_useconds
                        (objects (histories w aggregate_telemetry_history))))
              (latest_time w) in
      fst (get_latest_fsw_time w) = Return latest
      /\ latest_time (snd (get_latest_fsw_time w)) = latest)
  /\ (forall op w, latest_time w <= latest_time (snd (run_op op w)))
  /\ (forall ops w, latest_time w <= latest_time (snd (run ops w)))
  /\ (forall ops w, StronglySorted Z.le (fst (run ops w)))
  /\ (forall ops w t, In t (fst (run ops w)) ->
                      latest_time w <= t <= latest_time (snd (run ops w)))
  /\ (forall pl aggregate,
         latest_time (init pl aggregate) = useconds TimeType_default).
Proof.
  split; [exact get_latest_fsw_time_run|].
  split; [intros op w; exact (proj1 (run_op_latest_time op w))|].
  split; [intros ops w; exact (proj1 (run_latest_time ops w))|].
  split; [exact run_times_sorted|].
  split; [intros ops w; exact (proj2 (run_latest_time ops w))|].
  intros pl aggregate. reflexivity.
Qed.

(** A run in which an event stamped 30 microseconds arrives between two
    time queries, a test case starts, and the user clears the aggregate
    event history before a third query: the queries return 0, 30, 30. *)
Lemma latest_time_monotone_witness :
  fst (run example_ops fresh_world) = [0; 30; 30]
  /\ latest_time fresh_world <= 30 <= latest_time (snd (run example_ops fresh_world))
  /\ StronglySorted Z.le (fst (run example_ops fresh_world)).
Proof.
  split; [reflexivity|split].
  - apply (proj1 (proj2 (proj2 (proj2 (proj2 latest_time_monotone))))
             example_ops fresh_world 30).
    simpl. auto.
  - apply (proj1 (proj2 (proj2 (proj2 latest_time_monotone)))).
Defined.

(* ================================================================== *)
(** * Further properties of the facade *)

(** ** Translation of names *)

Lemma translate_command_name_world (command : Obj) (w : World) :
  snd (translate_command_name command w) = w.
Proof.
  unfold translate_command_name, lookup_other, get_pipeline, bind, ret, raise.
  destruct command as [|[z|s]|l|c p|h]; cbn; try reflexivity.
  - destruct (command_id_dictionary (pipeline w) z); reflexivity.
  - destruct (command_name_dictionary (pipeline w) s); reflexivity.
Qed.

Lemma translate_telemetry_name_world (channel : Obj) (w : World) :
  snd (translate_telemetry_name channel w) = w.
Proof.
  unfold translate_telemetry_name, lookup_other, get_pipeline, bind, ret, raise.
  destruct channel as [|[z|s]|l|c p|h]; cbn; try reflexivity.
  - destruct (channel_id_dictionary (pipeline w) z); reflexivity.
  - destruct (channel_name_dictionary (pipeline w) s); reflexivity.
Qed.

Lemma translate_event_name_world (event : Obj) (w : World) :
  snd (translate_event_name event w) = w.
Proof.
  unfold translate_event_name, lookup_other, get_pipeline, bind, ret, raise.
  destruct event as [|[z|s]|l|c p|h]; cbn; try reflexivity.
  - destruct (event_id_dictionary (pipeline w) z); reflexivity.
  - destruct (event_name_dictionary (pipeline w) s); reflexivity.
Qed.

(** X1.  A translation that succeeds yields an identifier that is a key
    of the identifier dictionary, provided the two dictionaries of the
    kind agree; translating that identifier again returns it unchanged.
    So a mnemonic and the identifier it translates to can be used one for
    the other.  This holds of the command, channel and event
    translations, none of which changes the world. *)
Theorem translate_name_idempotent (w : World) :
  (dictionaries_agree (command_name_dictionary (pipeline w))
                      (command_id_dictionary (pipeline w)) ->
   forall command o,
     fst (translate_command_name command w) = Return o ->
     (exists id, o = OScalar (SInt id)
                 /\ command_id_dictionary (pipeline w) id = true)
     /\ translate_command_name o w = (Return o, w))
  /\ (dictionaries_agree (channel_name_dictionary (pipeline w))
                         (channel_id_dictionary (pipeline w)) ->
      forall channel o,
        fst (translate_telemetry_name channel w) = Return o ->
        (exists id, o = OScalar (SInt id)
                    /\ channel_id_dictionary (pipeline w) id = true)
        /\ translate_telemetry_name o w = (Return o, w))
  /\ (dictionaries_agree (event_name_dictionary (pipeline w))
                         (event_id_dictionary (pipeline w)) ->
      forall event o,
        fst (translate_event_name event w) = Return o ->
        (exists id, o = OScalar (SInt id)
                    /\ event_id_dictionary (pipeline w) id = true)
        /\ translate_event_name o w = (Return o, w))
  /\ (forall o, snd (translate_command_name o w) = w
                /\ snd (translate_telemetry_name o w) = w
                /\ snd (translate_event_name o w) = w).
Proof.
  split; [|split; [|split]].
  - intros Hd command o.
    unfold translate_command_name, lookup_other, get_pipeline, bind, ret, raise.
    destruct command as [|[z|s]|l|c p|h]; cbn; try discriminate.
    + destruct (command_id_dictionary (pipeline w) z) eqn:E; cbn;
        [|discriminate].
      intros H. inversion H; subst. cbn. rewrite E. eauto.
    + destruct (command_name_dictionary (pipeline w) s) as [id|] eqn:E; cbn;
        [|discriminate].
      intros H. inversion H; subst. cbn. rewrite (Hd _ _ E). eauto.
  - intros Hd channel o.
    unfold translate_telemetry_name, lookup_other, get_pipeline, bind, ret, raise.
    destruct channel as [|[z|s]|l|c p|h]; cbn; try discriminate.
    + destruct (channel_id_dictionary (pipeline w) z) eqn:E; cbn;
        [|discriminate].
      intros H. inversion H; subst. cbn. rewrite E. eauto.
    + destruct (channel_name_dictionary (pipeline w) s) as [id|] eqn:E; cbn;
        [|discriminate].
      intros H. inversion H; subst. cbn. rewrite (Hd _ _ E). eauto.
  - intros Hd event o.
    unfold translate_event_name, lookup_other, get_pipeline, bind, ret, raise.
    destruct event as [|[z|s]|l|c p|h]; cbn; try discriminate.
    + destruct (event_id_dictionary (pipeline w) z) eqn:E; cbn;
        [|discriminate].
      intros H. inversion H; subst. cbn. rewrite E. eauto.
    + destruct (event_name_dictionary (pipeline w) s) as [id|] eqn:E; cbn;
        [|discriminate].
      intros H. inversion H; subst. cbn. rewrite (Hd _ _ E). eauto.
  - intros o. split; [|split].
    + apply translate_command_name_world.
    + apply translate_telemetry_name_world.
    + apply translate_event_name_world.
Qed.

(** In the example deployment the channel mnemonic translates to 2, and 2
    translates to itself. *)
Lemma translate_name_idempotent_witness :
  translate_telemetry_name (OScalar (SInt 2)) fresh_world
  = (Return (OScalar (SInt 2)), fresh_world).
Proof.
  apply (proj1 (proj2 (translate_name_idempotent fresh_world))
           ltac:(intros name id; simpl;
                 destruct (String.eqb name "BD_Cycles"); intros H;
                 [inversion H; reflexivity|discriminate])
           (OScalar (SStr "BD_Cycles")) (OScalar (SInt 2)) eq_refl).
Defined.

(** ** The predicate builders *)

(** X2.  Whatever [get_telemetry_predicate] returns is a telemetry
    predicate object, and given such an object as the channel it returns
    that object as it is, ignoring the value and the time predicate
    passed with it; it cannot raise when the channel is [None] or a
    predicate, since nothing is translated then; it never changes the
    world; and without any constraint the predicate it builds holds of
    every record.  The same holds of [get_event_predicate]. *)
Theorem get_predicate_idempotent
        (spec second third : Obj) (w : World) :
  (forall o,
      fst (get_telemetry_predicate spec second third w) = Return o ->
      (exists p, o = OPredicate telemetry_predicate_class p)
      /\ forall value' time_pred' w',
          get_telemetry_predicate o value' time_pred' w' = (Return o, w'))
  /\ (forall o,
         fst (get_event_predicate spec second third w) = Return o ->
         (exists p, o = OPredicate event_predicate_class p)
         /\ forall args' time_pred' w',
             get_event_predicate o args' time_pred' w' = (Return o, w'))
  /\ (is_predicate spec || is_None spec = true ->
      (exists p, get_telemetry_predicate spec second third w
                 = (Return (OPredicate telemetry_predicate_class p), w))
      /\ (exists p, get_event_predicate spec second third w
                    = (Return (OPredicate event_predicate_class p), w)))
  /\ snd (get_telemetry_predicate spec second third w) = w
  /\ snd (get_event_predicate spec second third w) = w
  /\ (exists p, get_telemetry_predicate ONone ONone ONone w
                = (Return (OPredicate telemetry_predicate_class p), w)
                /\ forall d, holds p d = true)
  /\ (exists p, get_event_predicate ONone ONone ONone w
                = (Return (OPredicate event_predicate_class p), w)
                /\ forall d, holds p d = true).
Proof.
  split; [|split; [|split; [|split; [|split; [|split]]]]].
  - intros o H.
    destruct (get_telemetry_predicate_returns spec second third w)
      as [(c & p & E)|(e & E & _)]; rewrite E in H; [|discriminate].
    inversion H; subst.
    assert (C : c = telemetry_predicate_class).
    { revert E. unfold get_telemetry_predicate, translate_telemetry_name,
                lookup_other, get_pipeline, bind, ret, raise.
      destruct spec as [|[z|s]|l|[| |] q|h]; cbn;
        try (intros E; inversion E; reflexivity); try discriminate.
      - destruct (channel_id_dictionary (pipeline w) z); cbn;
          intros E; inversion E; reflexivity.
      - destruct (channel_name_dictionary (pipeline w) s); cbn;
          intros E; inversion E; reflexivity. }
    subst c. split; [eauto|]. intros; reflexivity.
  - intros o H.
    destruct (get_event_predicate_returns spec second third w)
      as [(c & p & E)|(e & E & _)]; rewrite E in H; [|discriminate].
    inversion H; subst.
    assert (C : c = event_predicate_class).
    { revert E. unfold get_event_predicate, translate_event_name,
                lookup_other, get_pipeline, bind, ret, raise.
      destruct spec as [|[z|s]|l|[| |] q|h]; cbn;
        try (intros E; inversion E; reflexivity); try discriminate.
      - destruct (event_id_dictionary (pipeline w) z); cbn;
          intros E; inversion E; reflexivity.
      - destruct (event_name_dictionary (pipeline w) s); cbn;
          intros E; inversion E; reflexivity. }
    subst c. split; [eauto|]. intros; reflexivity.
  - intros H. unfold get_telemetry_predicate, get_event_predicate, bind, ret.
    destruct spec as [|[z|s]|l|[| |] q|h]; cbn in H; try discriminate;
      cbn; split; eexists; reflexivity.
  - destruct (get_telemetry_predicate_returns spec second third w)
      as [(c & p & E)|(e & E & _)]; now rewrite E.
  - destruct (get_event_predicate_returns spec second third w)
      as [(c & p & E)|(e & E & _)]; now rewrite E.
  - eexists. split; [reflexivity|]. intros d. reflexivity.
  - eexists. split; [reflexivity|]. intros d. reflexivity.
Qed.

(** The predicate built for the channel mnemonic is returned as it is
    when it is given as the channel, with other constraints. *)
Lemma get_predicate_idempotent_witness :
  get_telemetry_predicate (OPredicate telemetry_predicate_class P1)
                          (OScalar (SInt 9)) ONone world_abc
  = (Return (OPredicate telemetry_predicate_class P1), world_abc).
Proof.
  apply (proj2 (proj1 (get_predicate_idempotent
                         (OScalar (SInt 2)) ONone ONone world_abc)
                      (OPredicate telemetry_predicate_class P1) eq_refl)).
Defined.

(** X3.  A channel given by a mnemonic and the same channel given by the
    identifier the dictionary has for the mnemonic select the same
    records: the predicate built holds of a record exactly when the
    identifier of the record is that identifier, the value constraint
    holds of its value and the time predicate, if any, of its time
    stamp. *)
Theorem telemetry_specifier_meaning
        (name : string) (id : Z) (value time_pred : Obj) (w : World) :
  channel_name_dictionary (pipeline w) name = Some id ->
  channel_id_dictionary (pipeline w) id = true ->
  exists p q,
    get_telemetry_predicate (OScalar (SStr name)) value time_pred w
    = (Return (OPredicate telemetry_predicate_class p), w)
    /\ get_telemetry_predicate (OScalar (SInt id)) value time_pred w
       = (Return (OPredicate telemetry_predicate_class q), w)
    /\ forall d,
        holds p d = holds q d
        /\ holds p d
           = (get_id d =? id)
             && value_constraint value (VScalar (get_val d))
             && sub_predicate time_pred (VTime (get_time d)).
Proof.
  intros Hn Hi.
  unfold get_telemetry_predicate, translate_telemetry_name, get_pipeline,
    bind, ret. cbn. rewrite Hn, Hi. cbn.
  eexists. eexists. split; [reflexivity|split; [reflexivity|]].
  intros d. split; [reflexivity|].
  unfold holds, telemetry_predicate. cbn.
  destruct value as [|s|l|c q|h]; reflexivity.
Qed.

Lemma telemetry_specifier_meaning_witness :
  exists p,
    get_telemetry_predicate (OScalar (SStr "BD_Cycles")) (OScalar (SInt 7))
                            ONone world_abc
    = (Return (OPredicate telemetry_predicate_class p), world_abc)
    /\ holds p rec_b = true /\ holds p rec_c = false.
Proof.
  destruct (telemetry_specifier_meaning
              "BD_Cycles" 2 (OScalar (SInt 7)) ONone world_abc
              eq_refl eq_refl) as (p & q & Hp & Hq & H).
  exists p. split; [exact Hp|].
  split.
  - rewrite (proj2 (H rec_b)). reflexivity.
  - rewrite (proj2 (H rec_c)). reflexivity.
Defined.

(** X4.  Likewise for events: a mnemonic and its identifier select the
    same events, those with that identifier whose arguments meet the
    argument constraint (a list of expectations is matched position by
    position) and whose time stamp meets the time predicate, if any. *)
Theorem event_specifier_meaning
        (name : string) (id : Z) (args time_pred : Obj) (w : World) :
  event_name_dictionary (pipeline w) name = Some id ->
  event_id_dictionary (pipeline w) id = true ->
  exists p q,
    get_event_predicate (OScalar (SStr name)) args time_pred w
    = (Return (OPredicate event_predicate_class p), w)
    /\ get_event_predicate (OScalar (SInt id)) args time_pred w
       = (Return (OPredicate event_predicate_class q), w)
    /\ forall d,
        holds p d = holds q d
        /\ holds p d
           = (get_id d =? id)
             && args_constraint args (VArgs (get_args d))
             && sub_predicate time_pred (VTime (get_time d)).
Proof.
  intros Hn Hi.
  unfold get_event_predicate, translate_event_name, get_pipeline,
    bind, ret. cbn. rewrite Hn, Hi. cbn.
  eexists. eexists. split; [reflexivity|split; [reflexivity|]].
  intros d. split; [reflexivity|].
  unfold holds, event_predicate. cbn.
  destruct args as [|s|l|c q|h]; reflexivity.
Qed.

Lemma event_specifier_meaning_witness :
  exists p,
    get_event_predicate (OScalar (SStr "OpCodeDispatched"))
                        (OList [OScalar (SInt 5); ONone]) ONone world_abc
    = (Return (OPredicate event_predicate_class p), world_abc)
    /\ holds p (mkData 2 (SInt 0) [SInt 5; SStr "x"] (mkTime 0 0)) = true
    /\ holds p (mkData 2 (SInt 0) [SInt 5] (mkTime 0 0)) = false.
Proof.
  destruct (event_specifier_meaning
              "OpCodeDispatched" 2 (OList [OScalar (SInt 5); ONone]) ONone
              world_abc eq_refl eq_refl) as (p & q & Hp & Hq & H).
  exists p. split; [exact Hp|].
  split.
  - rewrite (proj2 (H _)). reflexivity.
  - rewrite (proj2 (H _)). reflexivity.
Defined.

(** ** Relations the methods respect *)

Section Respects.
Variable R : World -> World -> Prop.
Hypothesis R_refl : forall w, R w w.
Hypothesis R_trans : forall a b c, R a b -> R b c -> R a c.

Lemma respects_unchanged {A : Type} (m : M A) :
  (forall w, snd (m w) = w) -> respects R m.
Proof. intros H w. rewrite H. apply R_refl. Qed.

Lemma respects_ret {A : Type} (a : A) : respects R (ret a).
Proof. apply respects_unchanged. reflexivity. Qed.

Lemma respects_raise {A : Type} (e : exn) : respects R (@raise A e).
Proof. apply respects_unchanged. reflexivity. Qed.

Lemma respects_bind {A B : Type} (m : M A) (k : A -> M B) :
  respects R m -> (forall a, respects R (k a)) -> respects R (bind m k).
Proof.
  intros Hm Hk w. unfold bind. specialize (Hm w).
  destruct (m w) as [[a|e] w']; cbn [snd] in *.
  - eapply R_trans; [exact Hm|apply Hk].
  - exact Hm.
Qed.

Lemma respects_assert (condition : bool) : respects R (assert condition).
Proof. destruct condition; [apply respects_ret|apply respects_raise]. Qed.

Lemma respects_translate_command_name (command : Obj) :
  respects R (translate_command_name command).
Proof. apply respects_unchanged. apply translate_command_name_world. Qed.

Lemma respects_get_telemetry_predicate (channel value time_pred : Obj) :
  respects R (get_telemetry_predicate channel value time_pred).
Proof.
  apply respects_unchanged. intros w.
  destruct (get_telemetry_predicate_returns channel value time_pred w)
    as [(c & p & E)|(e & E & _)]; now rewrite E.
Qed.

Lemma respects_get_event_predicate (event args time_pred : Obj) :
  respects R (get_event_predicate event args time_pred).
Proof.
  apply respects_unchanged. intros w.
  destruct (get_event_predicate_returns event args time_pred w)
    as [(c & p & E)|(e & E & _)]; now rewrite E.
Qed.

Lemma respects_await_telemetry (channel value time_pred history : Obj)
      (start : Cursor) (timeout : Z) :
  respects R (await_telemetry channel value time_pred history start timeout).
Proof.
  apply respects_unchanged. intros w.
  destruct (await_telemetry_always_raises channel value time_pred history
                                          start timeout w) as [e E].
  now rewrite E.
Qed.

Lemma respects_await_event (event args time_pred history : Obj)
      (start : Cursor) (timeout : Z) :
  respects R (await_event event args time_pred history start timeout).
Proof.
  apply respects_unchanged. intros w.
  destruct (await_event_always_raises event args time_pred history
                                      start timeout w) as [e E].
  now rewrite E.
Qed.

Create HintDb respects.

#[local] Hint Resolve respects_ret respects_raise respects_assert
  respects_translate_command_name respects_get_telemetry_predicate
  respects_get_event_predicate respects_await_telemetry respects_await_event
  : respects.

Ltac respects_steps :=
  repeat (first
            [ solve [auto with respects]
            | apply respects_bind; [|intros ?]
            | match goal with
              | |- respects _ (if ?b then _ else _) => destruct b
              | |- respects _ (match ?x with _ => _ end) => destruct x
              end ]).

Lemma respects_get_telemetry_predicates (channels : list Obj) :
  respects R (get_telemetry_predicates channels).
Proof. induction channels as [|c channels IH]; simpl; respects_steps. Qed.

Lemma respects_get_event_predicates (events : list Obj) :
  respects R (get_event_predicates events).
Proof. induction events as [|e events IH]; simpl; respects_steps. Qed.

Lemma respects_send_command (command args : Obj) :
  respects R (send_command command args).
Proof. unfold send_command, pipeline_send_command. respects_steps. Qed.

Lemma respects_assert_send_command (command args : Obj) :
  respects R (assert_send_command command args).
Proof.
  intros w. unfold assert_send_command.
  pose proof (respects_send_command command args w) as K.
  destruct (send_command command args w) as [[u|[]] w']; exact K.
Qed.

#[local] Hint Resolve respects_get_telemetry_predicates
  respects_get_event_predicates respects_send_command
  respects_assert_send_command : respects.

(** The searches respect [R] as soon as their elementary steps do. *)
Hypothesis P_log_call : forall c w, R w (log_call c w).
Hypothesis P_log_tested : forall t w, R w (log_tested t w).
Hypothesis P_set_alarm : forall t w, R w (set_alarm t w).
Hypothesis P_set_handler : forall w, R w (set_sigalrm_handler true w).
Hypothesis P_retrieve_new : forall r w,
    R w (set_history r (snd (retrieve_new (histories w r))) w).
Hypothesis P_sleep : forall t fd w, R w (sleep_arrivals t fd w).

Lemma respects_history_size (r : HistRef) : respects R (history_size r).
Proof. intros w. apply P_log_call. Qed.

Lemma respects_history_retrieve (r : HistRef) (start : option Z) :
  respects R (history_retrieve r start).
Proof. intros w. apply P_log_call. Qed.

Lemma respects_history_retrieve_new (r : HistRef) :
  respects R (history_retrieve_new r).
Proof.
  intros w. cbn [history_retrieve_new snd].
  eapply R_trans; [apply P_retrieve_new|apply P_log_call].
Qed.

Lemma respects_method_size (o : Obj) : respects R (method_size o).
Proof.
  destruct o; try apply respects_raise. apply respects_history_size.
Qed.

Lemma respects_method_retrieve (o : Obj) (start : option Z) :
  respects R (method_retrieve o start).
Proof.
  destruct o; try apply respects_raise. apply respects_history_retrieve.
Qed.

Lemma respects_method_retrieve_new (o : Obj) :
  respects R (method_retrieve_new o).
Proof.
  destruct o; try apply respects_raise. apply respects_history_retrieve_new.
Qed.

Lemma respects_test (pos : nat) (p : predicate) (item : DataObject) :
  respects R (test pos p item).
Proof. intros w. apply P_log_tested. Qed.

Lemma respects_call (o : Obj) (item : DataObject) : respects R (call o item).
Proof. destruct o; try apply respects_raise. apply respects_test. Qed.

Lemma respects_signal_signal : respects R signal_signal_SIGALRM.
Proof. intros w. apply P_set_handler. Qed.

Lemma respects_signal_alarm (t : Z) : respects R (signal_alarm t).
Proof. intros w. apply P_set_alarm. Qed.

Lemma respects_resolve_start (r : HistRef) (start : Cursor) :
  respects R (resolve_start r start).
Proof.
  destruct start; cbn [resolve_start]; try apply respects_ret.
  apply respects_bind; [apply respects_history_size|intros; apply respects_ret].
Qed.

Create HintDb respects_search.

#[local] Hint Resolve respects_ret respects_raise respects_history_size
  respects_history_retrieve respects_history_retrieve_new
  respects_method_size respects_method_retrieve respects_method_retrieve_new
  respects_test respects_call respects_signal_signal respects_signal_alarm
  respects_resolve_start : respects_search.

Ltac respects_search_steps :=
  repeat (first
            [ solve [auto with respects_search]
            | apply respects_bind; [|intros ?]
            | match goal with
              | |- respects _ (if ?b then _ else _) => destruct b
              | |- respects _ (match ?x with _ => _ end) => destruct x
              end ]).

Lemma respects_while_true {St Res : Type} (body : St -> M (St + Res)) :
  (forall s, respects R (body s)) ->
  forall fd s, respects R (while_true body s fd).
Proof.
  intros Hb fd. induction fd as [|t fd IH]; intros s w; cbn [while_true];
    specialize (Hb s w); destruct (body s w) as [[[s'|a]|e] w'];
    cbn [snd] in *; try exact Hb.
  - eapply R_trans; [exact Hb|apply P_set_alarm].
  - eapply R_trans; [exact Hb|].
    eapply R_trans; [apply P_sleep|apply IH].
Qed.

Lemma respects_polling {St Res : Type} (body : St -> M (St + Res)) (s : St) :
  (forall s, respects R (body s)) -> respects R (polling body s).
Proof. intros Hb w. unfold polling. now apply respects_while_true. Qed.

Lemma respects_for_item (search_pred : Obj) (items : list DataObject) :
  respects R (for_item search_pred items).
Proof. induction items as [|x items IH]; simpl; respects_search_steps. Qed.

Lemma respects_for_sequence (before_return : M unit) (items : list DataObject) :
  respects R before_return ->
  forall seq_preds sequence,
    respects R (for_sequence before_return seq_preds sequence items).
Proof.
  intros Hb. induction items as [|x items IH]; intros ps sq; simpl;
    respects_search_steps.
Qed.

Lemma respects_for_count_initial (sp : predicate) (items : list DataObject) :
  forall objs, respects R (for_count_initial sp objs items).
Proof.
  induction items as [|x items IH]; intros objs; simpl; respects_search_steps.
Qed.

Lemma respects_for_count (cp sp : predicate) (items : list DataObject) :
  forall objs, respects R (for_count cp sp objs items).
Proof.
  induction items as [|x items IH]; intros objs; simpl; respects_search_steps.
Qed.

#[local] Hint Resolve respects_for_item respects_for_sequence
  respects_for_count_initial respects_for_count : respects_search.

Lemma respects_find_history_item (search_pred history : Obj) (start : Cursor)
      (timeout : Z) :
  respects R (find_history_item search_pred history start timeout).
Proof.
  unfold find_history_item. respects_search_steps.
  apply respects_polling. intros s. respects_search_steps.
Qed.

Lemma respects_find_history_sequence (ps : list predicate) (r : HistRef)
      (start : Cursor) (timeout : Z) :
  respects R (find_history_sequence ps r start timeout).
Proof.
  unfold find_history_sequence. respects_search_steps.
  apply respects_polling. intros s. respects_search_steps.
Qed.

Lemma respects_find_history_count (count : Obj) (r : HistRef)
      (sp : option predicate) (start : Cursor) (timeout : Z) :
  respects R (find_history_count count r sp start timeout).
Proof.
  unfold find_history_count. respects_search_steps.
  all: apply respects_polling; intros s; respects_search_steps.
Qed.

Hypothesis R_size : forall r, respects R (history_size r).
Hypothesis R_sequence : forall ps r start timeout,
    respects R (find_history_sequence ps r start timeout).
Hypothesis R_count : forall count r sp start timeout,
    respects R (find_history_count count r sp start timeout).

#[local] Hint Resolve R_size R_sequence R_count : respects.

Lemma respects_call_find_history_sequence (ps : list predicate) (history : Obj)
      (start : Cursor) (timeout : Z) :
  respects R (call_find_history_sequence ps history start timeout).
Proof. unfold call_find_history_sequence. respects_steps. Qed.

Lemma respects_call_find_history_count (count history : Obj)
      (sp : option predicate) (start : Cursor) (timeout : Z) :
  respects R (call_find_history_count count history sp start timeout).
Proof. unfold call_find_history_count. respects_steps. Qed.

#[local] Hint Resolve respects_call_find_history_sequence
  respects_call_find_history_count : respects.

Lemma respects_await_telemetry_sequence (channels : list Obj) (history : Obj)
      (start : Cursor) (timeout : Z) :
  respects R (await_telemetry_sequence channels history start timeout).
Proof. unfold await_telemetry_sequence. respects_steps. Qed.

Lemma respects_await_event_sequence (events : list Obj) (history : Obj)
      (start : Cursor) (timeout : Z) :
  respects R (await_event_sequence events history start timeout).
Proof. unfold await_event_sequence. respects_steps. Qed.

Lemma respects_await_telemetry_count (count channels history : Obj)
      (start : Cursor) (timeout : Z) :
  respects R (await_telemetry_count count channels history start timeout).
Proof. unfold await_telemetry_count. respects_steps. Qed.

Lemma respects_await_event_count (count events history : Obj)
      (start : Cursor) (timeout : Z) :
  respects R (await_event_count count events history start timeout).
Proof. unfold await_event_count. respects_steps. Qed.

#[local] Hint Resolve respects_await_telemetry_sequence
  respects_await_event_sequence respects_await_telemetry_count
  respects_await_event_count : respects.

Hypothesis R_latest : respects R get_latest_fsw_time.
Hypothesis R_receive : forall t w, R w (arrive t w).
Hypothesis R_schedule : forall f w, R w (set_feed f w).

(** Every operation that neither clears a history nor is a direct call
    of the item search respects [R], once the sequence and count
    searches, the size query, the time query and the surroundings do. *)
Lemma respects_method_of (op : Op) :
  clears op = false ->
  is_find_history_item op = false ->
  respects R (method_of op).
Proof.
  intros Hc Hi.
  destruct op; cbn in Hc, Hi; try discriminate; cbn [method_of];
    try (unfold log_test_message, translate_telemetry_name,
         translate_event_name, lookup_other, get_pipeline,
         assert_telemetry, assert_event, assert_telemetry_sequence,
         assert_event_sequence, assert_telemetry_count, assert_event_count,
         send_and_await_telemetry, send_and_await_event,
         send_and_assert_telemetry, send_and_assert_event);
    respects_steps.
  all: try (apply respects_unchanged; intros w; reflexivity).
  all: try (intros w; cbn; auto).
Qed.
End Respects.

(** ** What the methods never do to the histories and the timer *)

Lemma histories_grow_refl (w : World) : histories_grow w w.
Proof. intros r. exists []. now rewrite app_nil_r. Qed.

Lemma histories_grow_trans (a b c : World) :
  histories_grow a b -> histories_grow b c -> histories_grow a c.
Proof.
  intros H1 H2 r. destruct (H1 r) as [m1 E1]. destruct (H2 r) as [m2 E2].
  exists (m1 ++ m2). now rewrite E2, E1, app_assoc.
Qed.

Lemma histories_grow_same (w w' : World) :
  (forall r, objects (histories w' r) = objects (histories w r)) ->
  histories_grow w w'.
Proof. intros H r. exists []. now rewrite app_nil_r. Qed.

Lemma receive_objects (r : HistRef) (t : Tick) :
  forall h, exists more, objects (receive r t h) = objects h ++ more.
Proof.
  induction t as [|[r' d] t IH]; intros h; simpl.
  - exists []. now rewrite app_nil_r.
  - destruct (HistRef_eqb r r').
    + destruct (IH (append_object d h)) as [more E].
      exists (d :: more). rewrite E. simpl. now rewrite <- app_assoc.
    + apply IH.
Qed.

Lemma histories_grow_arrive (t : Tick) (w : World) :
  histories_grow w (arrive t w).
Proof. intros r. rewrite arrive_histories. apply receive_objects. Qed.

Lemma histories_grow_retrieve_new (r : HistRef) (w : World) :
  histories_grow w (set_history r (snd (retrieve_new (histories w r))) w).
Proof.
  apply histories_grow_same. intros r'. cbn.
  destruct (HistRef_eqb r' r) eqn:E; [|reflexivity].
  apply HistRef_eqb_eq in E. now subst.
Qed.

Lemma histories_grow_get_latest_fsw_time :
  respects histories_grow get_latest_fsw_time.
Proof. intros w. apply histories_grow_same. intros r. reflexivity. Qed.

Lemma histories_grow_sleep (t : Tick) (fd : list Tick) (w : World) :
  histories_grow w (sleep_arrivals t fd w).
Proof.
  unfold sleep_arrivals.
  apply histories_grow_trans with (b := set_feed fd w).
  - apply histories_grow_same. reflexivity.
  - apply histories_grow_arrive.
Qed.

(** X5.  Records are removed from a history only by [teardown],
    [start_test_case] and [clear_histories] (and by the user clearing a
    history): after any other operation, the searches, awaits, asserts
    and command functions included, and whatever its outcome, every
    history holds the records it held before, in the same order,
    followed by those that arrived meanwhile. *)
Theorem only_clearing_removes_records (op : Op) (w : World) :
  clears op = false ->
  histories_grow w (snd (method_of op w)).
Proof.
  intros Hc.
  assert (Hlog : forall c w0, histories_grow w0 (log_call c w0))
    by (intros; apply histories_grow_same; reflexivity).
  assert (Htest : forall t w0, histories_grow w0 (log_tested t w0))
    by (intros; apply histories_grow_same; reflexivity).
  assert (Halarm : forall t w0, histories_grow w0 (set_alarm t w0))
    by (intros; apply histories_grow_same; reflexivity).
  assert (Hhandler : forall w0, histories_grow w0 (set_sigalrm_handler true w0))
    by (intros; apply histories_grow_same; reflexivity).
  revert w. change (respects histories_grow (method_of op)).
  destruct (is_find_history_item op) eqn:Hi.
  - destruct op; try discriminate. cbn [method_of].
    refine (respects_bind histories_grow histories_grow_trans _ _ _ _).
    + apply (respects_find_history_item
               histories_grow histories_grow_refl histories_grow_trans
               Hlog Htest Halarm Hhandler histories_grow_retrieve_new
               histories_grow_sleep).
    + intros a w0. apply histories_grow_refl.
  - refine (respects_method_of
              histories_grow histories_grow_refl histories_grow_trans
              _ _ _ histories_grow_get_latest_fsw_time histories_grow_arrive
              _ op Hc Hi).
    + intros r w0. apply Hlog.
    + apply (respects_find_history_sequence
               histories_grow histories_grow_refl histories_grow_trans
               Hlog Htest Halarm Hhandler histories_grow_retrieve_new
               histories_grow_sleep).
    + apply (respects_find_history_count
               histories_grow histories_grow_refl histories_grow_trans
               Hlog Htest Halarm Hhandler histories_grow_retrieve_new
               histories_grow_sleep).
    + intros f w0. apply histories_grow_same. reflexivity.
Qed.

(** A count search that polls in [world_awaiting] leaves the three
    records that arrived in the telemetry history. *)
Lemma only_clearing_removes_records_witness :
  exists more,
    objects (histories
               (snd (method_of (op_find_history_count
                                  (OScalar (SInt 2)) telemetry_history None
                                  NOW 5) world_awaiting))
               telemetry_history)
    = objects (histories world_awaiting telemetry_history) ++ more.
Proof.
  apply (only_clearing_removes_records
           (op_find_history_count (OScalar (SInt 2)) telemetry_history None
                                  NOW 5) world_awaiting eq_refl
           telemetry_history).
Defined.

Lemma no_alarm_left_refl (w : World) : no_alarm_left w w.
Proof. intros H. exact H. Qed.

Lemma no_alarm_left_trans (a b c : World) :
  no_alarm_left a b -> no_alarm_left b c -> no_alarm_left a c.
Proof. unfold no_alarm_left. auto. Qed.

(** X6.  Of all the operations only a direct call of
    [find_history_item] can return with an alarm pending: after any other
    operation, the sequence and count searches and every await, assert
    and command function included, and whatever its outcome, no alarm is
    pending if none was pending before. *)
Theorem only_item_search_leaves_alarm (op : Op) (w : World) :
  is_find_history_item op = false ->
  alarm w = 0 ->
  alarm (snd (method_of op w)) = 0.
Proof.
  intros Hi H0.
  destruct (clears op) eqn:Hc.
  - destruct op; try discriminate; cbn [method_of].
    + exact H0.
    + exact H0.
    + destruct time_stamp; exact H0.
    + exact H0.
  - refine (respects_method_of
              no_alarm_left no_alarm_left_refl no_alarm_left_trans
              _ _ _ _ _ _ op Hc Hi w H0).
    + intros r w0 H. exact H.
    + intros ps r start timeout w0 H.
      now apply find_history_sequence_cancels.
    + intros count r sp start timeout w0 H.
      now apply find_history_count_cancels.
    + intros w0 H. exact H.
    + intros t w0 H. destruct (arrive_frame t w0) as (_ & _ & _ & A & _).
      now rewrite A.
    + intros f w0 H. exact H.
Qed.

(** Awaiting a sequence of two channels for five seconds in
    [world_awaiting] ends with no alarm pending. *)
Lemma only_item_search_leaves_alarm_witness :
  alarm (snd (method_of (op_await_telemetry_sequence
                           [OScalar (SInt 2); OScalar (SInt 3)] ONone NOW 5)
                        world_awaiting))
  = 0.
Proof.
  apply (only_item_search_leaves_alarm
           (op_await_telemetry_sequence
              [OScalar (SInt 2); OScalar (SInt 3)] ONone NOW 5)
           world_awaiting eq_refl eq_refl).
Defined.

Lemma handler_stays_refl (w : World) : handler_stays w w.
Proof. intros H. exact H. Qed.

Lemma handler_stays_trans (a b c : World) :
  handler_stays a b -> handler_stays b c -> handler_stays a c.
Proof. unfold handler_stays. auto. Qed.

(** X7.  No operation restores the previous disposition of SIGALRM:
    once a search has installed the timeout handler it stays installed
    through every later operation, and a search that polls returns with
    the handler installed. *)
Theorem handler_is_never_removed :
  (forall op w,
      sigalrm_handler w = true ->
      sigalrm_handler (snd (method_of op w)) = true)
  /\ (forall ps r start timeout w,
         ps <> [] ->
         timeout <> 0 ->
         (length (greedy_match ps 0 [] (current r start w)) < length ps)%nat ->
         sigalrm_handler (snd (find_history_sequence ps r start timeout w))
         = true).
Proof.
  assert (Hlog : forall c w0, handler_stays w0 (log_call c w0))
    by (intros c w0 H; exact H).
  assert (Htest : forall t w0, handler_stays w0 (log_tested t w0))
    by (intros t w0 H; exact H).
  assert (Halarm : forall t w0, handler_stays w0 (set_alarm t w0))
    by (intros t w0 H; exact H).
  assert (Hhandler : forall w0, handler_stays w0 (set_sigalrm_handler true w0))
    by (intros w0 H; reflexivity).
  assert (Hnew : forall r w0,
             handler_stays w0 (set_history r (snd (retrieve_new (histories w0 r))) w0))
    by (intros r w0 H; exact H).
  assert (Hsleep : forall t fd w0, handler_stays w0 (sleep_arrivals t fd w0)).
  { intros t fd w0 H. unfold sleep_arrivals.
    destruct (arrive_frame t (set_feed fd w0)) as (_ & _ & A & _).
    now rewrite A. }
  split.
  - intros op w H0.
    destruct (clears op) eqn:Hc.
    { destruct op; try discriminate; cbn [method_of].
      - exact H0.
      - exact H0.
      - destruct time_stamp; exact H0.
      - exact H0. }
    destruct (is_find_history_item op) eqn:Hi.
    { destruct op; try discriminate. cbn [method_of].
      refine (respects_bind handler_stays handler_stays_trans _ _ _ _ w H0).
      - apply (respects_find_history_item
                 handler_stays handler_stays_refl handler_stays_trans
                 Hlog Htest Halarm Hhandler Hnew Hsleep).
      - intros a w0 H. exact H. }
    refine (respects_method_of
              handler_stays handler_stays_refl handler_stays_trans
              _ _ _ _ _ _ op Hc Hi w H0).
    + intros r w0. apply Hlog.
    + apply (respects_find_history_sequence
               handler_stays handler_stays_refl handler_stays_trans
               Hlog Htest Halarm Hhandler Hnew Hsleep).
    + apply (respects_find_history_count
               handler_stays handler_stays_refl handler_stays_trans
               Hlog Htest Halarm Hhandler Hnew Hsleep).
    + intros w0 H. exact H.
    + intros t w0 H. destruct (arrive_frame t w0) as (_ & _ & A & _).
      now rewrite A.
    + intros f w0 H. exact H.
  - intros ps r start timeout w Hps Ht Hl.
    rewrite find_history_sequence_run by assumption. cbv zeta.
    destruct (sequence_scan_single_pass ps (current r start w) 0 []
                                        eq_refl Hps)
      as (m & rest & A & _ & C & _ & F).
    cbn [skipn app] in A, C, F. rewrite <- C in Hl.
    destruct (fst (sequence_scan ps [] (current r start w))) as [st|sq] eqn:E.
    + apply Z.eqb_neq in Ht. rewrite Ht.
      destruct (initial_world_frame r start w)
        as (_ & _ & _ & _ & _ & Hf & _ & _).
      match goal with
      | |- context [while_true _ st (feed w) ?w2] =>
          pose proof (sequence_polling r st w2
                        (sequence_scan_inv _ _ _ _ Hps E)) as P;
            set (w2' := w2) in *
      end.
      cbv zeta in P.
      change (feed w2') with (feed (initial_world r start w)) in P.
      change (sigalrm_handler w2') with true in P.
      rewrite Hf in P. destruct P as (_ & (_ & _ & H & _) & _).
      cbn [snd]. exact H.
    + lia.
Qed.

Lemma handler_is_never_removed_witness :
  sigalrm_handler (snd (find_history_sequence [P1] telemetry_history NOW 5
                                              world_awaiting))
  = true.
Proof.
  apply (proj2 handler_is_never_removed [P1] telemetry_history NOW 5
               world_awaiting); [discriminate|discriminate|simpl; lia].
Defined.

(** ** Awaiting and asserting a sequence *)





Lemma get_telemetry_predicates_run (channels : list Obj) (w : World) :
  snd (get_telemetry_predicates channels w) = w
  /\ forall ps, fst (get_telemetry_predicates channels w) = Return ps ->
                length ps = length channels.
Proof.
  induction channels as [|c channels [IH1 IH2]]; cbn [get_telemetry_predicates].
  - split; [reflexivity|]. intros ps H. now inversion H.
  - unfold bind.
    destruct (get_telemetry_predicate_returns c ONone ONone w)
      as [(cl & p & E)|(e & E & _)]; rewrite E.
    + destruct (get_telemetry_predicates channels w) as [[ps'|e] w'];
        cbn [fst snd ret] in *; subst w'.
      * split; [reflexivity|]. intros ps H. inversion H. simpl.
        now rewrite (IH2 ps' eq_refl).
      * split; [reflexivity|]. discriminate.
    + split; [reflexivity|]. discriminate.
Qed.

Lemma get_event_predicates_run (events : list Obj) (w : World) :
  snd (get_event_predicates events w) = w
  /\ forall ps, fst (get_event_predicates events w) = Return ps ->
                length ps = length events.
Proof.
  induction events as [|c events [IH1 IH2]]; cbn [get_event_predicates].
  - split; [reflexivity|]. intros ps H. now inversion H.
  - unfold bind.
    destruct (get_event_predicate_returns c ONone ONone w)
      as [(cl & p & E)|(e & E & _)]; rewrite E.
    + destruct (get_event_predicates events w) as [[ps'|e] w'];
        cbn [fst snd ret] in *; subst w'.
      * split; [reflexivity|]. intros ps H. inversion H. simpl.
        now rewrite (IH2 ps' eq_refl).
      * split; [reflexivity|]. discriminate.
    + split; [reflexivity|]. discriminate.
Qed.





Lemma get_telemetry_predicates_unknown (channels : list Obj) (name : string)
      (w : World) :
  In (OScalar (SStr name)) channels ->
  channel_name_dictionary (pipeline w) name = None ->
  exists e, get_telemetry_predicates channels w = (Raise e, w).
Proof.
  intros Hin Hn. induction channels as [|c channels IH]; [destruct Hin|].
  cbn [get_telemetry_predicates]. unfold bind at 1.
  destruct Hin as [Hc|Hin].
  - subst c. unfold get_telemetry_predicate, translate_telemetry_name,
               get_pipeline, bind, ret, raise. cbn. rewrite Hn. cbn. eauto.
  - destruct (get_telemetry_predicate_returns c ONone ONone w)
      as [(cl & p & E)|(e & E & _)]; rewrite E; [|eauto].
    unfold bind. destruct (IH Hin) as [e E']. rewrite E'. eauto.
Qed.

Lemma get_event_predicates_unknown (events : list Obj) (name : string)
      (w : World) :
  In (OScalar (SStr name)) events ->
  event_name_dictionary (pipeline w) name = None ->
  exists e, get_event_predicates events w = (Raise e, w).
Proof.
  intros Hin Hn. induction events as [|c events IH]; [destruct Hin|].
  cbn [get_event_predicates]. unfold bind at 1.
  destruct Hin as [Hc|Hin].
  - subst c. unfold get_event_predicate, translate_event_name,
               get_pipeline, bind, ret, raise. cbn. rewrite Hn. cbn. eauto.
  - destruct (get_event_predicate_returns c ONone ONone w)
      as [(cl & p & E)|(e & E & _)]; rewrite E; [|eauto].
    unfold bind. destruct (IH Hin) as [e E']. rewrite E'. eauto.
Qed.

(** X9.  The specifiers of a list are all translated before any search
    starts: when a mnemonic anywhere in the list is not in the
    dictionary, the sequence and count awaits and asserts raise and leave
    the world exactly as it was, so the history has not been read, even
    when the earlier specifiers would have matched. *)
Theorem unknown_mnemonic_stops_before_search
        (specs : list Obj) (name : string) (count history : Obj)
        (start : Cursor) (timeout : Z) (w : World) :
  In (OScalar (SStr name)) specs ->
  (channel_name_dictionary (pipeline w) name = None ->
   (exists e, await_telemetry_sequence specs history start timeout w
              = (Raise e, w))
   /\ (exists e, assert_telemetry_sequence specs history start timeout w
                 = (Raise e, w))
   /\ (exists e, await_telemetry_count count (OList specs) history start timeout w
                 = (Raise e, w))
   /\ (exists e, assert_telemetry_count count (OList specs) history start
                                        timeout w
                 = (Raise e, w)))
  /\ (event_name_dictionary (pipeline w) name = None ->
      (exists e, await_event_sequence specs history start timeout w
                 = (Raise e, w))
      /\ (exists e, assert_event_sequence specs history start timeout w
                    = (Raise e, w))
      /\ (exists e, await_event_count count (OList specs) history start timeout w
                    = (Raise e, w))
      /\ (exists e, assert_event_count count (OList specs) history start
                                       timeout w
                    = (Raise e, w))).
Proof.
  intros Hin. split; intros Hn.
  - destruct (get_telemetry_predicates_unknown specs name w Hin Hn) as [e E].
    unfold assert_telemetry_sequence, assert_telemetry_count,
      await_telemetry_sequence, await_telemetry_count, bind.
    rewrite E. repeat split; exists e; reflexivity.
  - destruct (get_event_predicates_unknown specs name w Hin Hn) as [e E].
    unfold assert_event_sequence, assert_event_count,
      await_event_sequence, await_event_count, bind.
    rewrite E. repeat split; exists e; reflexivity.
Qed.

Lemma unknown_mnemonic_stops_before_search_witness :
  exists e,
    await_telemetry_sequence [OScalar (SInt 2); OScalar (SStr "Nowhere")]
                             ONone start_None 0 world_abc
    = (Raise e, world_abc).
Proof.
  apply (proj1 (proj1 (unknown_mnemonic_stops_before_search
                         [OScalar (SInt 2); OScalar (SStr "Nowhere")]
                         "Nowhere" ONone ONone start_None 0 world_abc
                         ltac:(simpl; auto))
                      eq_refl)).
Defined.



(** ** Awaiting and asserting a count *)














(** ** The order of the errors *)

(** X13.  A count that is neither an int nor a predicate makes the count
    awaits and asserts raise [TypeError] once the specifiers are
    translated, whatever stands in the place of the history; the world
    is left as it was, so no history has been read, and the asserts do
    not turn the error into an [AssertionError]. *)
Theorem invalid_count_raises_type_error
        (count specs history : Obj) (keep : DataObject -> bool)
        (start : Cursor) (timeout : Z) (w : World) :
  count_predicate_of count = None ->
  (telemetry_filter specs w = Some keep ->
   await_telemetry_count count specs history start timeout w
   = (Raise TypeError, w)
   /\ assert_telemetry_count count specs history start timeout w
      = (Raise TypeError, w))
  /\ (event_filter specs w = Some keep ->
      await_event_count count specs history start timeout w
      = (Raise TypeError, w)
      /\ assert_event_count count specs history start timeout w
         = (Raise TypeError, w)).
Proof.
  intros Hc.
  assert (C : forall h search,
             call_find_history_count count h search start timeout w
             = (Raise TypeError, w)).
  { intros h search. destruct h; cbn [call_find_history_count];
      try (now apply find_history_count_invalid);
      apply count_predicate_of_None in Hc; destruct Hc as [-> ->];
      reflexivity. }
  split; intros Hk.
  - assert (A : await_telemetry_count count specs history start timeout w
                = (Raise TypeError, w)).
    { unfold telemetry_filter in Hk. unfold await_telemetry_count.
      destruct specs; unfold bind.
      1: apply C.
      1,3,4: match type of Hk with
             | context [get_telemetry_predicate ?o _ _ _] =>
                 destruct (get_telemetry_predicate_returns o ONone ONone w)
                   as [(cl & q & E)|(e & E & _)]
             end; rewrite E in *; cbn [fst] in Hk;
        [|discriminate]; cbv beta iota delta [ret]; apply C.
      destruct (get_telemetry_predicates_run l w) as [W _].
      destruct (get_telemetry_predicates l w) as [[ps|e] w'];
        cbn [fst snd] in *; [|discriminate].
      subst w'. cbv beta iota delta [ret]. apply C. }
    split; [exact A|]. unfold assert_telemetry_count, bind. now rewrite A.
  - assert (A : await_event_count count specs history start timeout w
                = (Raise TypeError, w)).
    { unfold event_filter in Hk. unfold await_event_count.
      destruct specs; unfold bind.
      1: apply C.
      1,3,4: match type of Hk with
             | context [get_event_predicate ?o _ _ _] =>
                 destruct (get_event_predicate_returns o ONone ONone w)
                   as [(cl & q & E)|(e & E & _)]
             end; rewrite E in *; cbn [fst] in Hk;
        [|discriminate]; cbv beta iota delta [ret]; apply C.
      destruct (get_event_predicates_run l w) as [W _].
      destruct (get_event_predicates l w) as [[ps|e] w'];
        cbn [fst snd] in *; [|discriminate].
      subst w'. cbv beta iota delta [ret]. apply C. }
    split; [exact A|]. unfold assert_event_count, bind. now rewrite A.
Qed.

Lemma invalid_count_raises_type_error_witness :
  assert_telemetry_count (OScalar (SStr "two")) (OScalar (SInt 2)) ONone
                         start_None 5 world_abc
  = (Raise TypeError, world_abc).
Proof.
  apply (proj2 (proj1 (invalid_count_raises_type_error
                         (OScalar (SStr "two")) (OScalar (SInt 2)) ONone _
                         start_None 5 world_abc eq_refl)
                      eq_refl)).
Defined.

(** ** The item search *)






(** ** Asserting a single record *)

Lemma await_telemetry_raises (channel value time_pred history : Obj)
      (start : Cursor) (timeout : Z) (w : World) :
  exists e, await_telemetry channel value time_pred history start timeout w
            = (Raise e, w)
            /\ (e = KeyError \/ e = TypeError \/ e = AttributeError).
Proof.
  unfold await_telemetry, bind.
  destruct (get_telemetry_predicate_returns channel value time_pred w)
    as [(cl & p & E)|(e & E & [K|K])]; rewrite E.
  - rewrite find_history_item_on_predicate. eauto.
  - eauto.
  - eauto.
Qed.

Lemma await_event_raises (event args time_pred history : Obj)
      (start : Cursor) (timeout : Z) (w : World) :
  exists e, await_event event args time_pred history start timeout w
            = (Raise e, w)
            /\ (e = KeyError \/ e = TypeError \/ e = AttributeError).
Proof.
  unfold await_event, bind.
  destruct (get_event_predicate_returns event args time_pred w)
    as [(cl & p & E)|(e & E & [K|K])]; rewrite E.
  - rewrite find_history_item_on_predicate. eauto.
  - eauto.
  - eauto.
Qed.

Lemma assert_telemetry_raises (channel value time_pred history : Obj)
      (start : Cursor) (timeout : Z) (w : World) :
  exists e, assert_telemetry channel value time_pred history start timeout w
            = (Raise e, w)
            /\ e <> AssertionError.
Proof.
  destruct (await_telemetry_raises channel value time_pred history start
                                   timeout w) as (e & E & K).
  exists e. unfold assert_telemetry, bind. rewrite E.
  split; [reflexivity|]. destruct K as [->|[->| ->]]; discriminate.
Qed.

Lemma assert_event_raises (event args time_pred history : Obj)
      (start : Cursor) (timeout : Z) (w : World) :
  exists e, assert_event event args time_pred history start timeout w
            = (Raise e, w)
            /\ e <> AssertionError.
Proof.
  destruct (await_event_raises event args time_pred history start
                               timeout w) as (e & E & K).
  exists e. unfold assert_event, bind at 1.
  destruct (get_event_predicate_returns event args time_pred w)
    as [(cl & p & G)|(e' & G & K')]; rewrite G.
  - unfold bind. rewrite E. split; [reflexivity|].
    destruct K as [->|[->| ->]]; discriminate.
  - unfold await_event, bind in E. rewrite G in E. inversion E; subst e'.
    split; [reflexivity|]. destruct K as [->|[->| ->]]; discriminate.
Qed.

(** X15.  [assert_telemetry] and [assert_event] neither pass nor fail:
    whatever their arguments and whatever the histories hold, they raise
    an error that is not an [AssertionError] (the [KeyError] or
    [TypeError] of the translation, or the [AttributeError] of the item
    search run on a predicate), and leave the world as it was. *)
Theorem single_record_asserts_always_raise
        (spec second time_pred history : Obj) (start : Cursor) (timeout : Z)
        (w : World) :
  (exists e, assert_telemetry spec second time_pred history start timeout w
             = (Raise e, w)
             /\ e <> AssertionError)
  /\ (exists e, assert_event spec second time_pred history start timeout w
                = (Raise e, w)
                /\ e <> AssertionError).
Proof.
  split.
  - apply assert_telemetry_raises.
  - apply assert_event_raises.
Qed.

(** [world_abc] holds an update of channel 2; asserting it raises. *)
Lemma single_record_asserts_always_raise_witness :
  exists e,
    assert_telemetry (OScalar (SInt 2)) ONone ONone ONone start_None 0
                     world_abc
    = (Raise e, world_abc)
    /\ e <> AssertionError.
Proof.
  exact (proj1 (single_record_asserts_always_raise
                  (OScalar (SInt 2)) ONone ONone ONone start_None 0
                  world_abc)).
Defined.


(** ** Sending a command *)

Lemma translate_command_name_reads (command : Obj) (w w' : World) :
  pipeline w' = pipeline w ->
  translate_command_name command w' = (fst (translate_command_name command w), w').
Proof.
  intros H.
  unfold translate_command_name, lookup_other, get_pipeline, bind, ret, raise.
  destruct command as [|[z|s]|l|c p|h]; cbn; rewrite ?H; try reflexivity.
  - destruct (command_id_dictionary (pipeline w) z); reflexivity.
  - destruct (command_name_dictionary (pipeline w) s); reflexivity.
Qed.

Lemma translate_command_name_raises (command : Obj) (e : exn) (w : World) :
  fst (translate_command_name command w) = Raise e ->
  e = KeyError \/ e = TypeError.
Proof.
  unfold translate_command_name, lookup_other, get_pipeline, bind, ret, raise.
  destruct command as [|[z|s]|l|c p|h]; cbn; intros H;
    try (inversion H; tauto).
  - destruct (command_id_dictionary (pipeline w) z); inversion H; tauto.
  - destruct (command_name_dictionary (pipeline w) s); inversion H; tauto.
Qed.

Lemma send_command_run (command args : Obj) (w : World) :
  send_command command args w
  = (match fst (translate_command_name command w) with
     | Return _ => Return tt
     | Raise e => Raise e
     end, w).
Proof.
  unfold send_command, bind, pipeline_send_command, ret.
  pose proof (translate_command_name_world command w) as W.
  destruct (translate_command_name command w) as [[id|e] w'];
    cbn [fst snd] in *; now subst.
Qed.

(** What the four [send_and_] methods do before they search: they read
    the size of the history, and send the command. *)
Lemma send_and_prefix {A : Type} (r : HistRef) (command args : Obj)
      (k : Z -> M A) (w : World) :
  (start <- history_size r ;; send_command command args ;;; k start) w
  = match fst (translate_command_name command w) with
    | Return _ => k (size (histories w r)) (log_call (call_size r) w)
    | Raise e => (Raise e, log_call (call_size r) w)
    end.
Proof.
  unfold bind at 1. unfold history_size at 1. unfold bind at 1.
  rewrite send_command_run.
  rewrite (translate_command_name_reads command w) by reflexivity.
  cbn [fst]. now destruct (fst (translate_command_name command w)).
Qed.

(** X16.  A command the dictionary does not know stops the four
    [send_and_] methods before any search: they raise the error of the
    translation, a [KeyError] or a [TypeError] and not an
    [AssertionError], and all they have done to the histories is to ask
    one for its size.  [send_command] raises the same error and leaves
    the world as it was. *)
Theorem unknown_command_stops_before_search
        (command args specs : Obj) (timeout : Z) (e : exn) (w : World) :
  fst (translate_command_name command w) = Raise e ->
  send_command command args w = (Raise e, w)
  /\ send_and_await_telemetry command args specs timeout w
     = (Raise e, log_call (call_size telemetry_history) w)
  /\ send_and_await_event command args specs timeout w
     = (Raise e, log_call (call_size event_history) w)
  /\ send_and_assert_telemetry command args specs timeout w
     = (Raise e, log_call (call_size telemetry_history) w)
  /\ send_and_assert_event command args specs timeout w
     = (Raise e, log_call (call_size event_history) w)
  /\ (e = KeyError \/ e = TypeError).
Proof.
  intros H.
  split; [rewrite send_command_run, H; reflexivity|].
  unfold send_and_await_telemetry, send_and_await_event,
    send_and_assert_telemetry, send_and_assert_event.
  rewrite !send_and_prefix, H.
  repeat split; try reflexivity.
  exact (translate_command_name_raises command e w H).
Qed.

Lemma unknown_command_stops_before_search_witness :
  send_and_assert_telemetry (OScalar (SStr "CMD_UNKNOWN")) (OList [])
                            (OList [OScalar (SInt 2)]) 5 world_abc
  = (Raise KeyError, log_call (call_size telemetry_history) world_abc).
Proof.
  apply (unknown_command_stops_before_search
           (OScalar (SStr "CMD_UNKNOWN")) (OList [])
           (OList [OScalar (SInt 2)]) 5 KeyError world_abc eq_refl).
Defined.

(** X17.  Given one specifier instead of a list, the four [send_and_]
    methods never return and never fail an assertion: whatever the
    command, they raise an error that is not an [AssertionError], having
    done no more to the histories than to ask one for its size. *)
Theorem send_and_single_always_raises
        (command args spec : Obj) (timeout : Z) (w : World) :
  (forall l, spec <> OList l) ->
  (exists e, send_and_await_telemetry command args spec timeout w
             = (Raise e, log_call (call_size telemetry_history) w)
             /\ e <> AssertionError)
  /\ (exists e, send_and_await_event command args spec timeout w
                = (Raise e, log_call (call_size event_history) w)
                /\ e <> AssertionError)
  /\ (exists e, send_and_assert_telemetry command args spec timeout w
                = (Raise e, log_call (call_size telemetry_history) w)
                /\ e <> AssertionError)
  /\ (exists e, send_and_assert_event command args spec timeout w
                = (Raise e, log_call (call_size event_history) w)
                /\ e <> AssertionError).
Proof.
  intros Hs.
  unfold send_and_await_telemetry, send_and_await_event,
    send_and_assert_telemetry, send_and_assert_event.
  rewrite !send_and_prefix.
  destruct (fst (translate_command_name command w)) as [id|e] eqn:T.
  - assert (N : forall e, e = KeyError \/ e = TypeError \/ e = AttributeError ->
                          e <> AssertionError)
      by (intros e [->|[->| ->]]; discriminate).
    destruct spec as [|s|l|c p|h]; try (now destruct (Hs l)).
    all: repeat split.
    all: unfold bind at 1.
    all: match goal with
         | |- context [await_telemetry ?a ?b ?c ?d ?s ?t ?w] =>
             destruct (await_telemetry_raises a b c d s t w) as (e & E & K);
             rewrite E
         | |- context [await_event ?a ?b ?c ?d ?s ?t ?w] =>
             destruct (await_event_raises a b c d s t w) as (e & E & K);
             rewrite E
         | |- context [assert_telemetry ?a ?b ?c ?d ?s ?t ?w] =>
             destruct (assert_telemetry_raises a b c d s t w) as (e & E & K);
             rewrite E
         | |- context [assert_event ?a ?b ?c ?d ?s ?t ?w] =>
             destruct (assert_event_raises a b c d s t w) as (e & E & K);
             rewrite E
         end.
    all: exists e; split; [reflexivity|auto].
  - pose proof (translate_command_name_raises command e w T) as K.
    repeat split; exists e; (split; [reflexivity|]);
      destruct K as [->| ->]; discriminate.
Qed.

Lemma send_and_single_always_raises_witness :
  exists e,
    send_and_await_telemetry (OScalar (SStr "CMD_NO_OP")) (OList [])
                             (OScalar (SInt 2)) 5 world_abc
    = (Raise e, log_call (call_size telemetry_history) world_abc)
    /\ e <> AssertionError.
Proof.
  apply (send_and_single_always_raises
           (OScalar (SStr "CMD_NO_OP")) (OList []) (OScalar (SInt 2)) 5
           world_abc).
  intros l. discriminate.
Defined.












(** ** Clearing the histories and starting a test case *)

Lemma time_geb_trans (a b c : TimeType) :
  time_geb a b = true -> time_geb b c = true -> time_geb a c = true.
Proof.
  unfold time_geb.
  rewrite !orb_true_iff, !andb_true_iff, !Z.ltb_lt, !Z.eqb_eq, !Z.leb_le.
  lia.
Qed.

Lemma drop_until_split (p : predicate) (l : list DataObject) :
  (exists removed,
      l = removed ++ drop_until p l
      /\ Forall (fun d => holds p d = false) removed)
  /\ match drop_until p l with
     | [] => True
     | d :: _ => holds p d = true
     end.
Proof.
  induction l as [|d l [(removed & E & F) IH]]; cbn [drop_until].
  - split; [|exact I]. exists []. split; [reflexivity|constructor].
  - destruct (holds p d) eqn:H.
    + split; [|exact H]. exists []. split; [reflexivity|constructor].
    + split; [|exact IH]. exists (d :: removed). split.
      * cbn. now rewrite <- E.
      * now constructor.
Qed.

Lemma filter_all (f : DataObject -> bool) (l : list DataObject) :
  Forall (fun d => f d = true) l -> filter f l = l.
Proof.
  induction 1 as [|d l H _ IH]; cbn; [reflexivity|]. now rewrite H, IH.
Qed.

(** On records in the order of their time stamps, dropping the records
    before the first one at or after [ts] leaves the records at or after
    [ts]. *)
Lemma drop_until_in_time_order (p : predicate) (ts : TimeType)
      (l : list DataObject) :
  (forall d, holds p d = time_geb (get_time d) ts) ->
  in_time_order l ->
  drop_until p l = filter (fun d => time_geb (get_time d) ts) l.
Proof.
  intros Hp. induction 1 as [|d l S IH F]; cbn [drop_until filter];
    [reflexivity|].
  rewrite Hp. destruct (time_geb (get_time d) ts) eqn:E.
  - f_equal. symmetry. apply filter_all.
    eapply Forall_impl; [|exact F].
    intros b Hb. cbv beta in Hb. now apply time_geb_trans with (get_time d).
  - exact IH.
Qed.

Lemma HistRef_eqb_neq (a b : HistRef) : a <> b -> HistRef_eqb a b = false.
Proof.
  intros H. destruct (HistRef_eqb a b) eqn:E; [|reflexivity].
  now apply HistRef_eqb_eq in E.
Qed.

(** X20.  [clear_histories] never raises.  It empties the command
    history whatever the time stamp, and touches neither the aggregate
    histories nor a history of the user, nor the latest time, the alarm
    or its handler.  Without a time stamp the telemetry and the event
    history are emptied; with one, each loses the records before its
    first record at or after the time stamp, all of them earlier than
    the time stamp, and keeps the rest, which are the records at or
    after the time stamp when the history is in the order of its time
    stamps. *)
Theorem clear_histories_effect (time_stamp : option TimeType) (w : World) :
  let w' := snd (clear_histories time_stamp w) in
  fst (clear_histories time_stamp w) = Return tt
  /\ objects (histories w' command_history) = []
  /\ (forall r, r <> command_history -> r <> telemetry_history ->
                r <> event_history -> histories w' r = histories w r)
  /\ (latest_time w' = latest_time w /\ alarm w' = alarm w
      /\ sigalrm_handler w' = sigalrm_handler w /\ feed w' = feed w)
  /\ (forall r, r = telemetry_history \/ r = event_history ->
        match time_stamp with
        | None => objects (histories w' r) = []
        | Some ts =>
            (exists removed,
                objects (histories w r) = removed ++ objects (histories w' r)
                /\ Forall (fun d => time_geb (get_time d) ts = false) removed)
            /\ match objects (histories w' r) with
               | [] => True
               | d :: _ => time_geb (get_time d) ts = true
               end
            /\ (in_time_order (objects (histories w r)) ->
                objects (histories w' r)
                = filter (fun d => time_geb (get_time d) ts)
                         (objects (histories w r)))
        end).
Proof.
  cbv zeta. split; [now destruct time_stamp|].
  split; [now destruct time_stamp|].
  split.
  { intros r H1 H2 H3.
    destruct time_stamp; cbn;
      rewrite (HistRef_eqb_neq _ _ H1), (HistRef_eqb_neq _ _ H2),
        (HistRef_eqb_neq _ _ H3); reflexivity. }
  split; [now destruct time_stamp|].
  intros r [-> | ->]; destruct time_stamp as [ts|]; try reflexivity.
  - set (p := telemetry_predicate
                ONone ONone
                (OPredicate plain_predicate
                            (greater_than_or_equal_to (VTime ts)))).
    change (objects (histories (snd (clear_histories (Some ts) w))
                               telemetry_history))
      with (drop_until p (objects (histories w telemetry_history))).
    assert (Hp : forall d, holds p d = time_geb (get_time d) ts)
      by reflexivity.
    destruct (drop_until_split p (objects (histories w telemetry_history)))
      as [(removed & E & F) H].
    split; [|split].
    + exists removed. split; [exact E|].
      eapply Forall_impl; [|exact F]. intros d Hd. now rewrite <- Hp.
    + destruct (drop_until p (objects (histories w telemetry_history)));
        [exact I|]. now rewrite <- Hp.
    + now apply drop_until_in_time_order.
  - set (p := event_predicate
                ONone ONone
                (OPredicate plain_predicate
                            (greater_than_or_equal_to (VTime ts)))).
    change (objects (histories (snd (clear_histories (Some ts) w))
                               event_history))
      with (drop_until p (objects (histories w event_history))).
    assert (Hp : forall d, holds p d = time_geb (get_time d) ts)
      by reflexivity.
    destruct (drop_until_split p (objects (histories w event_history)))
      as [(removed & E & F) H].
    split; [|split].
    + exists removed. split; [exact E|].
      eapply Forall_impl; [|exact F]. intros d Hd. now rewrite <- Hp.
    + destruct (drop_until p (objects (histories w event_history)));
        [exact I|]. now rewrite <- Hp.
    + now apply drop_until_in_time_order.
Qed.

(** Clearing [world_abc] from the time of [rec_b] on keeps [rec_b] and
    [rec_c]. *)
Lemma clear_histories_effect_witness :
  objects (histories (snd (clear_histories (Some (mkTime 0 20)) world_abc))
                     telemetry_history)
  = [rec_b; rec_c].
Proof.
  rewrite (proj2 (proj2 (proj2 (proj2 (proj2 (proj2
             (clear_histories_effect (Some (mkTime 0 20)) world_abc))))
             telemetry_history (or_introl eq_refl)))).
  - reflexivity.
  - repeat constructor.
Defined.

(** X21.  [start_test_case] never raises: it stores the latest time a
    time query would return, empties the three histories of the test and
    leaves the aggregate histories alone.  So when the user clears the
    aggregate histories afterwards, the next time query still returns
    that time, as long as the stored time was not below that of
    [TimeType()] to begin with. *)
Theorem start_test_case_keeps_time (name : string) (t : Z) (w : World) :
  useconds TimeType_default <= latest_time w ->
  fst (get_latest_fsw_time w) = Return t ->
  let w1 := snd (start_test_case name w) in
  let w2 := snd (method_of (op_user_clear aggregate_telemetry_history)
                   (snd (method_of (op_user_clear aggregate_event_history)
                                   w1))) in
  fst (start_test_case name w) = Return tt
  /\ latest_time w1 = t
  /\ (forall r, r = command_history \/ r = telemetry_history
                \/ r = event_history -> objects (histories w1 r) = [])
  /\ (forall r, r <> command_history -> r <> telemetry_history ->
                r <> event_history -> histories w1 r = histories w r)
  /\ fst (get_latest_fsw_time w2) = Return t.
Proof.
  intros H0 Ht. cbv zeta.
  destruct (get_latest_fsw_time_run w) as [V L]. cbv zeta in V, L.
  rewrite V in Ht. injection Ht as <-.
  assert (S : start_test_case name w
              = clear_histories None (snd (get_latest_fsw_time w))).
  { unfold start_test_case, log_test_message, bind, ret.
    destruct (get_latest_fsw_time w) as [[z|e] w'];
      cbn [fst snd] in *; [reflexivity|discriminate]. }
  rewrite S.
  set (w1 := snd (clear_histories None (snd (get_latest_fsw_time w)))).
  assert (C4 : latest_time w1 = latest_time (snd (get_latest_fsw_time w)))
    by reflexivity.
  split; [reflexivity|].
  split; [rewrite C4, L; reflexivity|].
  split.
  { intros r [-> |[-> | ->]]; reflexivity. }
  split.
  { intros r H1 H2 H3. unfold w1. cbn.
    rewrite (HistRef_eqb_neq _ _ H1), (HistRef_eqb_neq _ _ H2),
      (HistRef_eqb_neq _ _ H3). reflexivity. }
  set (w2 := snd (method_of (op_user_clear aggregate_telemetry_history)
                    (snd (method_of (op_user_clear aggregate_event_history)
                                    w1)))).
  assert (A1 : objects (histories w2 aggregate_event_history) = [])
    by reflexivity.
  assert (A2 : objects (histories w2 aggregate_telemetry_history) = [])
    by reflexivity.
  assert (A3 : latest_time w2 = latest_time w1) by reflexivity.
  destruct (get_latest_fsw_time_run w2) as [V' _].
  cbv zeta in V'. rewrite V', A1, A2, A3, C4, L.
  change (last_useconds []) with (useconds TimeType_default).
  f_equal. lia.
Qed.

(** The last aggregate event carries 30 microseconds; the time survives
    the test case and the clearing of the aggregate histories. *)
Lemma start_test_case_keeps_time_witness :
  fst (get_latest_fsw_time
         (snd (method_of (op_user_clear aggregate_telemetry_history)
                 (snd (method_of (op_user_clear aggregate_event_history)
                         (snd (start_test_case
                                 "case"
                                 (arrive [(aggregate_event_history, rec_c)]
                                         fresh_world))))))))
  = Return 30.
Proof.
  apply (start_test_case_keeps_time
           "case" 30 (arrive [(aggregate_event_history, rec_c)] fresh_world)).
  - cbn. lia.
  - reflexivity.
Defined.

(** ** The sequence search misses no sequence *)







